(** * Log-shipping satellite: discovery supervisor, stream workers and sinks

    A shallow embedding of [src/image_builds/opensearch/agent.py] and the
    properties its specification states about it.

    Conventions of the embedding:
    - a Python [str] is a list of code points ([list N]), so that [len] is
      [length] and [s[:k]] is [take k s];
    - a [bytes] object is a [list Byte.byte];
    - a [dict] is an insertion-ordered association list with unique keys,
      the order being the one [.items()] and [json.dumps] observe;
    - mutable objects live in a store and are passed by location;
    - calls that leave the process (HTTP requests, the clock, [print], the
      search backend) are answered by an explicit environment, and what the
      program emits is collected in a trace of events;
    - an exception is a value of the result type, and [try]/[except] is a
      combinator on computations. *)

From Stdlib Require Import ZArith List Lia String Ascii Decimal DecimalN.
From stdpp Require Import base decidable option list gmap.

Local Open Scope Z_scope.

(** ** Text *)

Abbreviation codepoint := N (only parsing).
Abbreviation str := (list N) (only parsing).
Abbreviation bytes := (list Byte.byte) (only parsing).

(** Code points of an ASCII literal of the source. *)
Definition lit (s : string) : str :=
  map N_of_ascii (list_ascii_of_string s).

Definition REPLACEMENT_CHARACTER : codepoint := 65533%N.

(** Python truthiness of the values the agent tests. *)
Definition truthy_str (s : str) : bool :=
  match s with [] => false | _ :: _ => true end.

Definition truthy_opt_str (o : option str) : bool :=
  match o with Some s => truthy_str s | None => false end.

(** ** Calendar time

    [time.strftime(fmt)] without a time tuple formats [time.localtime()],
    the broken-down LOCAL time of the current instant.  A clock reading is
    the instant (seconds since the epoch) together with the UTC offset in
    force for the process's time zone at that instant. *)

Record clock_reading := ClockReading {
  epoch : Z;       (* time.time(), whole seconds *)
  utcoffset : Z    (* seconds east of UTC of the local zone *)
}.

Record struct_time := StructTime {
  tm_year : Z; tm_mon : Z; tm_mday : Z;
  tm_hour : Z; tm_min : Z; tm_sec : Z;
  tm_gmtoff : Z
}.

(** Proleptic Gregorian date of a day number counted from 1970-01-01. *)
Definition civil_from_days (days : Z) : Z * Z * Z :=
  let z := days + 719468 in
  let era := z / 146097 in
  let doe := z - era * 146097 in
  let yoe := (doe - doe / 1460 + doe / 36524 - doe / 146096) / 365 in
  let doy := doe - (365 * yoe + yoe / 4 - yoe / 100) in
  let mp := (5 * doy + 2) / 153 in
  let d := doy - (153 * mp + 2) / 5 + 1 in
  let m := if mp <? 10 then mp + 3 else mp - 9 in
  let y := yoe + era * 400 + (if m <=? 2 then 1 else 0) in
  (y, m, d).

(** Broken-down time of the instant [secs] shown in a zone [off] seconds
    east of UTC. *)
Definition broken_down (secs off : Z) : struct_time :=
  let t := secs + off in
  let '(y, m, d) := civil_from_days (t / 86400) in
  let r := t mod 86400 in
  {| tm_year := y; tm_mon := m; tm_mday := d;
     tm_hour := r / 3600; tm_min := (r mod 3600) / 60; tm_sec := r mod 60;
     tm_gmtoff := off |}.

Definition localtime (r : clock_reading) : struct_time :=
  broken_down (epoch r) (utcoffset r).

Definition gmtime (r : clock_reading) : struct_time :=
  broken_down (epoch r) 0.

Definition date_of (t : struct_time) : Z * Z * Z :=
  (tm_year t, tm_mon t, tm_mday t).

(** *** strftime *)

Definition digit (n : Z) : codepoint := (48 + Z.to_N n)%N.

Definition pad2 (n : Z) : str := [digit (n / 10); digit (n mod 10)].

Fixpoint uint_codes (u : Decimal.uint) : str :=
  match u with
  | Decimal.Nil => []
  | Decimal.D0 r => 48%N :: uint_codes r
  | Decimal.D1 r => 49%N :: uint_codes r
  | Decimal.D2 r => 50%N :: uint_codes r
  | Decimal.D3 r => 51%N :: uint_codes r
  | Decimal.D4 r => 52%N :: uint_codes r
  | Decimal.D5 r => 53%N :: uint_codes r
  | Decimal.D6 r => 54%N :: uint_codes r
  | Decimal.D7 r => 55%N :: uint_codes r
  | Decimal.D8 r => 56%N :: uint_codes r
  | Decimal.D9 r => 57%N :: uint_codes r
  end.

(** Decimal rendering without padding, as the C library prints [%Y]. *)
Definition decimal (n : Z) : str := uint_codes (N.to_uint (Z.to_N n)).

Inductive directive :=
  | Lit (c : codepoint)
  | Dir_Y | Dir_m | Dir_d | Dir_H | Dir_M | Dir_S | Dir_z.

Definition render (t : struct_time) (d : directive) : str :=
  match d with
  | Lit c => [c]
  | Dir_Y => decimal (tm_year t)
  | Dir_m => pad2 (tm_mon t)
  | Dir_d => pad2 (tm_mday t)
  | Dir_H => pad2 (tm_hour t)
  | Dir_M => pad2 (tm_min t)
  | Dir_S => pad2 (tm_sec t)
  | Dir_z =>
      let a := Z.abs (tm_gmtoff t) in
      (if tm_gmtoff t <? 0 then 45%N else 43%N)
        :: pad2 (a / 3600) ++ pad2 ((a mod 3600) / 60)
  end.

Definition strftime (fmt : list directive) (t : struct_time) : str :=
  concat (map (render t) fmt).

(** ['%Y.%m.%d'] *)
Definition FMT_INDEX_DATE : list directive :=
  [Dir_Y; Lit 46%N; Dir_m; Lit 46%N; Dir_d].

(** ["%Y-%m-%dT%H:%M:%S%z"] *)
Definition FMT_TIMESTAMP : list directive :=
  [Dir_Y; Lit 45%N; Dir_m; Lit 45%N; Dir_d; Lit 84%N;
   Dir_H; Lit 58%N; Dir_M; Lit 58%N; Dir_S; Dir_z].

(** The date part the specification writes as YYYY.MM.DD. *)
Definition yyyy_mm_dd (date : Z * Z * Z) : str :=
  let '(y, m, d) := date in
  decimal y ++ [46%N] ++ pad2 m ++ [46%N] ++ pad2 d.

(** ** Dictionaries

    A [dict] keeps its items in insertion order; assigning to a key that is
    present replaces the value in place, assigning to a new key appends. *)

Abbreviation dict V := (list (str * V)) (only parsing).

Section dict.
Context {V : Type}.

Fixpoint dict_get (d : dict V) (k : str) : option V :=
  match d with
  | [] => None
  | (k', v) :: d' => if decide (k' = k) then Some v else dict_get d' k
  end.

(** [d[k] = v] *)
Fixpoint dict_set (d : dict V) (k : str) (v : V) : dict V :=
  match d with
  | [] => [(k, v)]
  | (k', v') :: d' =>
      if decide (k' = k) then (k', v) :: d' else (k', v') :: dict_set d' k v
  end.

(** [d.pop(k, None)], the dictionary afterwards *)
Fixpoint dict_pop (d : dict V) (k : str) : dict V :=
  match d with
  | [] => []
  | (k', v') :: d' =>
      if decide (k' = k) then d' else (k', v') :: dict_pop d' k
  end.

Definition dict_keys (d : dict V) : list str := map fst d.
End dict.

(** [d.get(k, default)] *)
Definition dict_get_default {V} (d : dict V) (k : str) (dflt : V) : V :=
  default dflt (dict_get d k).

(** ** The process and its surroundings *)

Inductive level := DEBUG | INFO | ERROR.

(** A started [threading.Thread]: the arguments of its target
    [stream_logs], its name, and whether its run has not yet returned. *)
Record thread := Thread {
  target_args : str * str;
  thread_name : str;
  alive : bool
}.

Inductive event :=
  | EvLog (lvl : level) (fmt : string)       (* logger.<lvl>(fmt, ...) *)
  | EvSendLog (doc : dict str)               (* the call send_log(doc): a mark of
                                                the hand-over, not an output *)
  | EvPrint (line : dict str)                (* print(json.dumps(line)) wrote one line *)
  | EvIndex (index : str) (body : dict str)  (* the backend stored body in index *)
  | EvSleep (seconds : Z).                   (* time.sleep(seconds) *)

Record world := World {
  heap : list (dict str);   (* the dict objects, by location *)
  pool : list thread;       (* the Thread objects, by handle *)
  trace : list event;       (* what the process has emitted, oldest first *)
  tick : nat                (* number of calls answered by the surroundings *)
}.

Definition set_heap (h : list (dict str)) (w : world) : world :=
  {| heap := h; pool := pool w; trace := trace w; tick := tick w |}.
Definition set_pool (p : list thread) (w : world) : world :=
  {| heap := heap w; pool := p; trace := trace w; tick := tick w |}.
Definition add_event (e : event) (w : world) : world :=
  {| heap := heap w; pool := pool w; trace := trace w ++ [e]; tick := tick w |}.
Definition next_tick (w : world) : world :=
  {| heap := heap w; pool := pool w; trace := trace w; tick := S (tick w) |}.

(** A container object of the list endpoint's JSON array, of the shape the
    runtime's interface gives it: identifiers are strings, names an array
    of strings.  [None] stands for a key that is absent or [null]. *)
Record container_obj := ContainerObj {
  Id : option str;
  ID : option str;
  Names : option (list str)
}.

Inductive list_response :=
  | ListUnreachable                          (* session.get raises *)
  | ListResponse (status : Z) (body : option (list container_obj)).
                                             (* None: the body is not JSON *)

Inductive stream_end := EOF | ReadError.

(** A log-follow request whose stream comes to an end.  (A stream that
    stays open without data keeps its worker blocked in a read, and has no
    script here.) *)
Inductive logs_response :=
  | LogsUnreachable                          (* session.get raises *)
  | LogsResponse (status : Z) (lines : list bytes) (ending : stream_end).

(** The surroundings answer the [n]-th call the process makes to them. *)
Record environment := Environment {
  clock : nat -> clock_reading;
  containers_json : nat -> list_response;
  container_logs : str -> nat -> logs_response;
  print_raises : nat -> bool;
  index_raises : nat -> bool
}.

(** Module-level constants of the agent. *)
Record globals := Globals {
  OPENSEARCH_INDEX_PREFIX : str;
  NODE_NAME : str;
  DISCOVERY_INTERVAL_SECONDS : Z;
  AGENT_MODE : str;
  opensearch_client : option unit   (* None until the client is built *)
}.

(** The module's start-up code for [opensearch_client]. *)
Definition init_opensearch_client (mode : str) (constructor_ok : bool)
  : option unit :=
  if decide (mode = lit "opensearch")
  then (if constructor_ok then Some tt else None)
  else None.

(** ** Computations that may raise *)

Inductive exn := Exception (what : string).

Inductive result (A : Type) :=
  | Ok (a : A)
  | Raise (e : exn).
Arguments Ok {A} a.
Arguments Raise {A} e.

Definition M (A : Type) : Type := world -> result A * world.

Definition ret {A} (a : A) : M A := fun w => (Ok a, w).

Definition raise {A} (e : exn) : M A := fun w => (Raise e, w).

Definition bind {A B} (m : M A) (k : A -> M B) : M B :=
  fun w => match m w with
           | (Ok a, w') => k a w'
           | (Raise e, w') => (Raise e, w')
           end.

(** [try: m  except Exception as e: h e] *)
Definition try_except {A} (m : M A) (h : exn -> M A) : M A :=
  fun w => match m w with
           | (Ok a, w') => (Ok a, w')
           | (Raise e, w') => h e w'
           end.

Notation "'let*' x ':=' m 'in' k" := (bind m (fun x => k))
  (at level 10, x name, m at level 100, k at level 200).

Definition emit (e : event) : M unit := fun w => (Ok tt, add_event e w).

Definition log (lvl : level) (fmt : string) : M unit := emit (EvLog lvl fmt).

(** Ask the surroundings: the answer to call number [tick]. *)
Definition ask {A} (oracle : nat -> A) : M A :=
  fun w => (Ok (oracle (tick w)), next_tick w).

(** *** The object store *)

Definition alloc (d : dict str) : M nat :=
  fun w => (Ok (length (heap w)), set_heap (heap w ++ [d]) w).

Definition load (l : nat) : M (dict str) :=
  fun w => (Ok (default [] (heap w !! l)), w).

(** [obj[k] = v] on the dict at location [l] *)
Definition store_item (l : nat) (k v : str) : M unit :=
  fun w => (Ok tt,
            set_heap (<[l := dict_set (default [] (heap w !! l)) k v]> (heap w)) w).

(** *** Threads *)

(** [t = threading.Thread(target=stream_logs, args=..., name=...); t.start()] *)
Definition thread_start (args : str * str) (name : str) : M nat :=
  fun w => (Ok (length (pool w)),
            set_pool (pool w ++ [Thread args name true]) w).

Definition thread_alive (w : world) (t : nat) : bool :=
  match pool w !! t with Some th => alive th | None => false end.

(** [t.is_alive()] *)
Definition is_alive (t : nat) : M bool :=
  fun w => (Ok (thread_alive w t), w).

(** The run of thread [t] has returned. *)
Definition thread_exit (t : nat) (w : world) : world :=
  match pool w !! t with
  | Some th =>
      set_pool (<[t := Thread (target_args th) (thread_name th) false]> (pool w)) w
  | None => w
  end.

(** *** Loops *)

(** [for x in xs: s = body(s, x)] *)
Fixpoint for_each {A S} (body : S -> A -> M S) (xs : list A) (s : S) : M S :=
  match xs with
  | [] => ret s
  | x :: xs' => let* s' := body s x in for_each body xs' s'
  end.

(** [[f(x) for x in xs if keep(x)]] *)
Fixpoint comprehension {A B} (keep : A -> M bool) (f : A -> B) (xs : list A)
  : M (list B) :=
  match xs with
  | [] => ret []
  | x :: xs' =>
      let* b := keep x in
      let* rest := comprehension keep f xs' in
      ret (if b then f x :: rest else rest)
  end.

(** ** Codecs *)

Definition in_range (lo hi b : N) : bool := ((lo <=? b) && (b <=? hi))%N.

Definition is_continuation (b : N) : bool := in_range 128 191 b.

(** [raw.decode("utf-8", errors="replace")] on byte values: a well-formed
    sequence gives its code point; an ill-formed one gives U+FFFD for its
    longest prefix that starts a well-formed sequence (one byte if there is
    none), and decoding resumes at the next byte. *)
Fixpoint utf8_decode_replace (bs : list N) : str :=
  match bs with
  | [] => []
  | b0 :: r0 =>
      if (b0 <? 128)%N then b0 :: utf8_decode_replace r0
      else if in_range 194 223 b0 then
        match r0 with
        | [] => [REPLACEMENT_CHARACTER]
        | b1 :: r1 =>
            if is_continuation b1
            then ((b0 - 192) * 64 + (b1 - 128))%N :: utf8_decode_replace r1
            else REPLACEMENT_CHARACTER :: utf8_decode_replace r0
        end
      else if in_range 224 239 b0 then
        let lo := (if b0 =? 224 then 160 else 128)%N in
        let hi := (if b0 =? 237 then 159 else 191)%N in
        match r0 with
        | [] => [REPLACEMENT_CHARACTER]
        | b1 :: r1 =>
            if in_range lo hi b1 then
              match r1 with
              | [] => [REPLACEMENT_CHARACTER]
              | b2 :: r2 =>
                  if is_continuation b2
                  then ((b0 - 224) * 4096 + (b1 - 128) * 64 + (b2 - 128))%N
                         :: utf8_decode_replace r2
                  else REPLACEMENT_CHARACTER :: utf8_decode_replace r1
              end
            else REPLACEMENT_CHARACTER :: utf8_decode_replace r0
        end
      else if in_range 240 244 b0 then
        let lo := (if b0 =? 240 then 144 else 128)%N in
        let hi := (if b0 =? 244 then 143 else 191)%N in
        match r0 with
        | [] => [REPLACEMENT_CHARACTER]
        | b1 :: r1 =>
            if in_range lo hi b1 then
              match r1 with
              | [] => [REPLACEMENT_CHARACTER]
              | b2 :: r2 =>
                  if is_continuation b2 then
                    match r2 with
                    | [] => [REPLACEMENT_CHARACTER]
                    | b3 :: r3 =>
                        if is_continuation b3
                        then ((b0 - 240) * 262144 + (b1 - 128) * 4096
                              + (b2 - 128) * 64 + (b3 - 128))%N
                               :: utf8_decode_replace r3
                        else REPLACEMENT_CHARACTER :: utf8_decode_replace r2
                    end
                  else REPLACEMENT_CHARACTER :: utf8_decode_replace r1
              end
            else REPLACEMENT_CHARACTER :: utf8_decode_replace r0
        end
      else REPLACEMENT_CHARACTER :: utf8_decode_replace r0
  end.

(** [raw.decode("utf-8", errors="replace")] *)
Definition bytes_decode (raw : bytes) : M str :=
  ret (utf8_decode_replace (map Byte.to_N raw)).

Definition hex_digit (n : N) : codepoint :=
  (if n <? 10 then 48 + n else 87 + n)%N.

Definition repr_byte (quote b : N) : str :=
  if ((b =? quote) || (b =? 92))%N then [92%N; b]
  else if (b =? 9)%N then [92%N; 116%N]
  else if (b =? 10)%N then [92%N; 110%N]
  else if (b =? 13)%N then [92%N; 114%N]
  else if ((b <? 32) || (127 <=? b))%N
       then [92%N; 120%N; hex_digit (b / 16); hex_digit (b mod 16)]
  else [b].

(** [str(raw)] of a bytes object, its [repr]. *)
Definition bytes_str (raw : bytes) : str :=
  let bs := map Byte.to_N raw in
  let quote :=
    if existsb (N.eqb 39) bs && negb (existsb (N.eqb 34) bs)
    then 34%N else 39%N in
  [98%N; quote] ++ concat (map (repr_byte quote) bs) ++ [quote].

(** ** The agent *)

Section agent.
Context (g : globals) (env : environment).

(** [time.strftime(fmt)] *)
Definition time_strftime (fmt : list directive) : M str :=
  let* now := ask (clock env) in
  ret (strftime fmt (localtime now)).

(** [r.raise_for_status()] *)
Definition raise_for_status (status : Z) : M unit :=
  if (400 <=? status) && (status <? 600)
  then raise (Exception "HTTPError")
  else ret tt.

(** [a or b] *)
Definition py_or (a b : option str) : option str :=
  if truthy_opt_str a then a else b.

(** One turn of the loop [for c in containers] of [list_containers]. *)
Definition add_container (out : dict str) (c : container_obj) : dict str :=
  let cid := py_or (Id c) (ID c) in
  let names := default [] (Names c) in
  let name :=
    match names with
    | n :: _ => n
    | [] => if truthy_opt_str cid then take 12 (default [] cid)
            else lit "unknown"
    end in
  if truthy_opt_str cid then dict_set out (default [] cid) name else out.

Definition list_containers : M (dict str) :=
  let* got :=
    try_except
      (let* r := ask (containers_json env) in
       match r with
       | ListUnreachable => raise (Exception "ConnectionError")
       | ListResponse status body =>
           let* _ := raise_for_status status in
           match body with
           | None => raise (Exception "JSONDecodeError")
           | Some containers => ret (Some containers)
           end
       end)
      (fun e =>
         let* _ := log ERROR "Error listing containers via Podman API: %s" in
         ret None) in
  match got with
  | None => ret []
  | Some containers => ret (fold_left add_container containers [])
  end.

(** [print(json.dumps(d, ensure_ascii=False))] *)
Definition print_json (d : dict str) : M unit :=
  let* fails := ask (print_raises env) in
  if fails : bool then raise (Exception "OSError") else emit (EvPrint d).

(** [opensearch_client.index(index=index, body=doc)] *)
Definition client_index (index : str) (body : dict str) : M unit :=
  let* fails := ask (index_raises env) in
  if fails : bool then raise (Exception "TransportError")
  else emit (EvIndex index body).

Definition TRUNCATION_MARKER : str := lit "...[truncated]".

Definition send_log (doc : nat) : M unit :=
  let* d := load doc in
  let* _ := emit (EvSendLog d) in
  if decide (AGENT_MODE g = lit "local") then
    let msg := dict_get_default d (lit "message") [] in
    let* doc_print := alloc d in
    let* _ :=
      if (300 <? length msg)%nat
      then store_item doc_print (lit "message")
             (take 300 msg ++ TRUNCATION_MARKER)
      else ret tt in
    let* line := load doc_print in
    print_json line
  else
    match opensearch_client g with
    | None => log ERROR "OpenSearch client not initialized, cannot send log"
    | Some _ =>
        let* date := time_strftime FMT_INDEX_DATE in
        let index_name := OPENSEARCH_INDEX_PREFIX g ++ lit "-" ++ date in
        try_except
          (let* body := load doc in client_index index_name body)
          (fun e => log ERROR "Failed to index log line: %s")
    end.

(** [for raw_line in r.iter_lines(): body(raw_line)], the stream ending
    in end-of-file or in a read error. *)
Fixpoint iter_lines (body : bytes -> M unit) (lines : list bytes)
    (ending : stream_end) : M unit :=
  match lines with
  | [] =>
      match ending with
      | EOF => ret tt
      | ReadError => raise (Exception "ChunkedEncodingError")
      end
  | raw_line :: rest =>
      let* _ := body raw_line in
      iter_lines body rest ending
  end.

(** The body of the loop over the lines of [stream_logs]. *)
Definition forward_line (container_id name : str) (raw_line : bytes)
  : M unit :=
  match raw_line with
  | [] => ret tt
  | _ :: _ =>
      let* line :=
        try_except (bytes_decode raw_line)
                   (fun _ => ret (bytes_str raw_line)) in
      let* stamp := time_strftime FMT_TIMESTAMP in
      let* doc :=
        alloc [(lit "@timestamp", stamp);
               (lit "message", line);
               (lit "container_id", container_id);
               (lit "container_name", name);
               (lit "node", NODE_NAME g)] in
      send_log doc
  end.

Definition stream_logs (container_id name : str) : M unit :=
  let* _ := log INFO "Starting log stream for %s (%s)" in
  let* _ :=
    try_except
      (let* r := ask (container_logs env container_id) in
       match r with
       | LogsUnreachable => raise (Exception "ConnectionError")
       | LogsResponse status lines ending =>
           let* _ := raise_for_status status in
           iter_lines (forward_line container_id name) lines ending
       end)
      (fun e => log ERROR "Error streaming logs for %s (%s): %s") in
  log INFO "Log stream ended for %s (%s)".

(** *** The discovery loop *)

(** The local variables of [main]. *)
Record locals := Locals {
  active_streams : gset str;
  threads : dict nat
}.

(** One turn of [for cid, name in containers.items()]. *)
Definition start_collector (st : locals) (item : str * str) : M locals :=
  let '(cid, name) := item in
  if decide (cid ∈ active_streams st) then ret st
  else
    let* _ := log INFO "Starting log collector for container %s (%s)" in
    let* t := thread_start (cid, name) (lit "log-" ++ name) in
    ret {| active_streams := active_streams st ∪ {[cid]};
           threads := dict_set (threads st) cid t |}.

(** One turn of [for cid in dead]. *)
Definition reap (st : locals) (cid : str) : M locals :=
  let* _ := log INFO "Cleaning up dead log stream for %s" in
  ret {| active_streams := active_streams st ∖ {[cid]};
         threads := dict_pop (threads st) cid |}.

(** The part of the loop body under [# Clean up threads that died]. *)
Definition clean_up (st : locals) : M locals :=
  let* dead :=
    comprehension (fun it : str * nat => let* a := is_alive (snd it) in
                                         ret (negb a))
                  fst (threads st) in
  for_each reap dead st.

(** The body of [while True] in [main]. *)
Definition loop_body (st : locals) : M locals :=
  let* containers := list_containers in
  let* _ := log DEBUG "Discovered containers: %s" in
  let* st1 := for_each start_collector containers st in
  let* st2 := clean_up st1 in
  let* _ := emit (EvSleep (DISCOVERY_INTERVAL_SECONDS g)) in
  ret st2.

(** The run of a started thread: its target with its arguments, after
    which the thread is no longer alive.  An exception that escaped the
    target would end the thread as well. *)
Definition thread_run (t : nat) (w : world) : world :=
  match pool w !! t with
  | Some th =>
      let '(cid, name) := target_args th in
      thread_exit t (snd (stream_logs cid name w))
  | None => w
  end.
End agent.

Definition initial_locals : locals := Locals ∅ [].
Definition initial_world : world := World [] [] [] 0.

(** ** Scenarios

    Concrete configurations and surroundings used by the examples below. *)

Definition indexing_globals : globals :=
  Globals (lit "podman-logs") (lit "podman-node") 10 (lit "opensearch") (Some tt).

Definition debug_globals : globals :=
  Globals (lit "podman-logs") (lit "podman-node") 10 (lit "local") None.

(** 2024-03-07T23:30:00Z *)
Definition late_evening_utc : Z := 1709854200.

(** Surroundings in which nothing fails and nothing is running: the clock
    shows [late_evening_utc] in a zone [off] seconds east of UTC. *)
Definition quiet_env (off : Z) : environment :=
  {| clock := fun _ => ClockReading late_evening_utc off;
     containers_json := fun _ => ListResponse 200 (Some []);
     container_logs := fun _ _ => LogsResponse 200 [] EOF;
     print_raises := fun _ => false;
     index_raises := fun _ => false |}.

Definition hello_doc : dict str :=
  [(lit "@timestamp", lit "2024-03-08T00:30:00+0100");
   (lit "message", lit "hello");
   (lit "container_id", lit "abc123");
   (lit "container_name", lit "/web");
   (lit "node", lit "podman-node")].

(** A world holding one record, at location 0. *)
Definition world_with (d : dict str) : world := World [d] [] [] 0.

(** ** Wording of the specification *)

(** "leading path separator stripped": the name without a leading ['/']. *)
Definition strip_leading_separator (name : str) : str :=
  match name with
  | 47%N :: rest => rest
  | _ => name
  end.

(** The identifier the agent uses for a container object. *)
Definition effective_id (c : container_obj) : option str :=
  py_or (Id c) (ID c).

(** A response of the list endpoint that makes the request fail: no
    connection, an HTTP error status, or a body that is not JSON. *)
Definition list_failed (r : list_response) : bool :=
  match r with
  | ListUnreachable => true
  | ListResponse status body =>
      ((400 <=? status) && (status <? 600))
      || match body with None => true | Some _ => false end
  end.

Definition web_container : container_obj :=
  ContainerObj (Some (lit "abc123")) None (Some [lit "/web"]).

Definition db_container : container_obj :=
  ContainerObj None (Some (lit "def456")) (Some [lit "/db"]).

Definition nameless_container : container_obj :=
  ContainerObj (Some (lit "0123456789abcdef")) None None.

Definition anonymous_container : container_obj :=
  ContainerObj None (Some []) (Some [lit "/ghost"]).

(** Surroundings whose list endpoint answers [r] to every call. *)
Definition listing_env (r : list_response) : environment :=
  {| clock := fun _ => ClockReading late_evening_utc 0;
     containers_json := fun _ => r;
     container_logs := fun _ _ => LogsResponse 200 [] EOF;
     print_raises := fun _ => false;
     index_raises := fun _ => false |}.

(** The name recorded for a container whose identifier is [cid]. *)
Definition recorded_name (c : container_obj) (cid : str) : str :=
  match Names c with
  | Some (n :: _) => n
  | _ => take 12 cid
  end.

(** The records handed to the sink, in order, as a trace shows them. *)
Definition sent_records (t : list event) : list (dict str) :=
  omap (fun e => match e with EvSendLog d => Some d | _ => None end) t.

(** What the debug sink prints for a record [d]. *)
Definition debug_line (d : dict str) : dict str :=
  let msg := dict_get_default d (lit "message") [] in
  if (300 <? length msg)%nat
  then dict_set d (lit "message") (take 300 msg ++ TRUNCATION_MARKER)
  else d.

(** A record whose message is [n] times the letter a. *)
Definition doc_of_as (n : nat) : dict str :=
  [(lit "@timestamp", lit "2024-03-08T00:30:00+0100");
   (lit "message", replicate n 97%N);
   (lit "container_id", lit "abc123");
   (lit "container_name", lit "/web");
   (lit "node", lit "podman-node")].

(** The LogRecord of the specification, as the document the worker builds. *)
Definition log_record (timestamp message container_id container_name node : str)
  : dict str :=
  [(lit "@timestamp", timestamp);
   (lit "message", message);
   (lit "container_id", container_id);
   (lit "container_name", container_name);
   (lit "node", node)].

Definition nonempty_line (raw : bytes) : bool :=
  match raw with [] => false | _ :: _ => true end.

(** No write of the configured sink raises into its caller. *)
Definition sink_never_raises (g : globals) (env : environment) : Prop :=
  AGENT_MODE g ≠ lit "local" \/ forall n, print_raises env n = false.

(** Surroundings in which container [abc123]'s log stream is [r], the
    backend is down ([backend_down]) and standard output is closed
    ([stdout_closed]). *)
Definition streaming_env (r : logs_response) (backend_down stdout_closed : bool)
  : environment :=
  {| clock := fun _ => ClockReading late_evening_utc 3600;
     containers_json := fun _ => ListResponse 200 (Some [web_container]);
     container_logs := fun _ _ => r;
     print_raises := fun _ => stdout_closed;
     index_raises := fun _ => backend_down |}.

(** The bytes [a], [0xff], [b]: not UTF-8. *)
Definition invalid_line : bytes := [Byte.x61; Byte.xff; Byte.x62].

Definition line_b : bytes := [Byte.x62].

(** ** The supervisor as a transition system *)

(** Thread [t] is a running worker for container [cid]. *)
Definition live_worker (w : world) (t : nat) (cid : str) : Prop :=
  exists th,
    pool w !! t = Some th /\ alive th = true /\ fst (target_args th) = cid.

(** The list [dead] of the clean-up, for the thread pool [p]. *)
Definition dead_streams (p : list thread) (ths : dict nat) : list str :=
  map fst
    (List.filter
       (fun it : str * nat =>
          negb (match p !! snd it with Some th => alive th | None => false end))
       ths).

(** What one turn of [for cid in dead] does to the local variables. *)
Definition forget (st : locals) (cid : str) : locals :=
  {| active_streams := active_streams st ∖ {[cid]};
     threads := dict_pop (threads st) cid |}.

(** The moves of the process: the main thread handles one listed container,
    cleans up, or runs a whole turn of its loop; a running worker's target
    returns.  Workers end at any moment, also between two moves of one turn
    of the loop. *)
Inductive step (g : globals) (env : environment)
  : locals * world -> locals * world -> Prop :=
  | step_start st w item st' w' :
      start_collector st item w = (Ok st', w') ->
      step g env (st, w) (st', w')
  | step_clean_up st w st' w' :
      clean_up st w = (Ok st', w') ->
      step g env (st, w) (st', w')
  | step_loop_body st w st' w' :
      loop_body g env st w = (Ok st', w') ->
      step g env (st, w) (st', w')
  | step_thread_run st w t :
      thread_alive w t = true ->
      step g env (st, w) (st, thread_run g env t w).

(** The states of a run of [main], which starts with no thread. *)
Inductive reachable (g : globals) (env : environment)
  : locals * world -> Prop :=
  | reachable_start w0 :
      pool w0 = [] -> reachable g env (initial_locals, w0)
  | reachable_step s s' :
      reachable g env s -> step g env s s' -> reachable g env s'.

(** The bookkeeping of [main] agrees with the threads that exist. *)
Record supervisor_inv (st : locals) (p : list thread) : Prop := SupervisorInv {
  inv_registered :
    forall cid, cid ∈ active_streams st <-> is_Some (dict_get (threads st) cid);
  inv_unique_keys : NoDup (dict_keys (threads st));
  inv_handle :
    forall cid t, dict_get (threads st) cid = Some t ->
      exists th, p !! t = Some th /\ fst (target_args th) = cid;
  inv_live :
    forall t th, p !! t = Some th -> alive th = true ->
      dict_get (threads st) (fst (target_args th)) = Some t
}.

(** What holds of the local variables [st] and the world [w] while the loop
    [for cid, name in containers.items()] runs over [items], having started
    from [st0] and the thread pool [p0]. *)
Record discovery_post (items : dict str) (st0 : locals) (p0 : list thread)
    (st : locals) (w : world) : Prop := DiscoveryPost {
  post_inv : supervisor_inv st (pool w);
  post_started :
    exists new,
      pool w = p0 ++ new
      /\ Forall (fun th => (alive th = true)
                           /\ (fst (target_args th) ∉ active_streams st0)
                           /\ (target_args th ∈ items)) new;
  post_kept :
    forall cid, cid ∈ active_streams st0 ->
      cid ∈ active_streams st
      /\ dict_get (threads st) cid = dict_get (threads st0) cid;
  post_fresh :
    forall cid, cid ∈ active_streams st -> cid ∉ active_streams st0 ->
      exists t, (length p0 <= t)%nat
                /\ dict_get (threads st) cid = Some t
                /\ live_worker w t cid
}.

(** The state of [main] after its first turn when the runtime lists the
    container [web_container]. *)
Definition one_worker_locals : locals :=
  {| active_streams := {[lit "abc123"]};
     threads := [(lit "abc123", 0%nat)] |}.

Definition one_worker_world : world :=
  {| heap := [];
     pool := [Thread (lit "abc123", lit "/web") (lit "log-/web") true];
     trace := [EvLog DEBUG "Discovered containers: %s";
               EvLog INFO "Starting log collector for container %s (%s)";
               EvSleep 10];
     tick := 1 |}.

(** A computation that starts, ends and replaces no thread. *)
Definition pool_preserving {A} (m : M A) : Prop :=
  forall w, pool (snd (m w)) = pool w.

(** ** Observations on traces *)

(** The lines written to standard output, in order. *)
Definition printed_lines (t : list event) : list (dict str) :=
  omap (fun e => match e with EvPrint d => Some d | _ => None end) t.

(** The documents stored by the backend, each with its index, in order. *)
Definition indexed_docs (t : list event) : list (str * dict str) :=
  omap (fun e => match e with EvIndex i d => Some (i, d) | _ => None end) t.

(** The errors logged under the format [fmt]. *)
Definition logged_errors (fmt : string) (t : list event) : nat :=
  length (List.filter
            (fun e => match e with
                      | EvLog ERROR f => if decide (f = fmt) then true else false
                      | _ => false
                      end) t).

(** Surroundings in which the runtime lists [web_container] on the first
    call and no container afterwards. *)
Definition vanishing_env : environment :=
  {| clock := fun _ => ClockReading late_evening_utc 0;
     containers_json := fun n =>
       match n with
       | O => ListResponse 200 (Some [web_container])
       | S _ => ListResponse 200 (Some [])
       end;
     container_logs := fun _ _ => LogsResponse 200 [] EOF;
     print_raises := fun _ => false;
     index_raises := fun _ => false |}.

(** The day of the year counted from March 1st, for the day [doe] of a
    400-year era, as [civil_from_days] computes it. *)
Definition day_of_year (doe : Z) : Z :=
  let yoe := (doe - doe / 1460 + doe / 36524 - doe / 146096) / 365 in
  doe - (365 * yoe + yoe / 4 - yoe / 100).

(** [check] on every integer of the interval of length [2 ^ k] from [lo]. *)
Fixpoint all_from (k : nat) (lo : Z) (check : Z -> bool) : bool :=
  match k with
  | O => check lo
  | S k' => all_from k' lo check && all_from k' (lo + 2 ^ Z.of_nat k') check
  end.

(** * The SBOM agent

    A shallow embedding of [src/image_builds/dtrack/agent.py].

    JSON documents are trees; the operations of the agent on them follow
    Python's on the values [json.loads] returns, an operation that Python
    rejects being a raised exception.  The agent mutates only documents it
    has just parsed and holds alone, so a mutation is the new tree.
    Requests are recorded by endpoint and payload rather than as URL text,
    the URL of each endpoint being given beside it. *)

Module Dtrack.

#[warnings="-register-all"] Inductive json :=
  | JNull                                (* None *)
  | JBool (b : bool)
  | JNum (n : Z)                         (* a number; the agent computes with none *)
  | JStr (s : str)
  | JArr (items : list json)
  | JObj (fields : list (str * json)).

(** Python truthiness. *)
Definition truthy (v : json) : bool :=
  match v with
  | JNull => false
  | JBool b => b
  | JNum n => negb (n =? 0)
  | JStr s => truthy_str s
  | JArr items => match items with [] => false | _ :: _ => true end
  | JObj fields => match fields with [] => false | _ :: _ => true end
  end.

(** ** Computations without effects that may raise *)

Definition rbind {A B} (r : result A) (k : A -> result B) : result B :=
  match r with
  | Ok a => k a
  | Raise e => Raise e
  end.

Notation "'let+' x ':=' m 'in' k" := (rbind m (fun x => k))
  (at level 10, x name, m at level 100, k at level 200).

(** A loop that builds a list, stopping at the first exception. *)
Fixpoint map_result {A B} (f : A -> result B) (xs : list A) : result (list B) :=
  match xs with
  | [] => Ok []
  | x :: xs' =>
      let+ y := f x in
      let+ ys := map_result f xs' in
      Ok (y :: ys)
  end.

(** ** Python operations on JSON values *)

Fixpoint is_prefix (k s : str) : bool :=
  match k, s with
  | [], _ => true
  | _ :: _, [] => false
  | a :: k', b :: s' => (a =? b)%N && is_prefix k' s'
  end.

Fixpoint is_substring (k s : str) : bool :=
  is_prefix k s
  || match s with
     | [] => false
     | _ :: s' => is_substring k s'
     end.

(** [v.get(k, dflt)] *)
Definition py_get (v : json) (k : str) (dflt : json) : result json :=
  match v with
  | JObj fields => Ok (default dflt (dict_get fields k))
  | _ => Raise (Exception "AttributeError")
  end.

(** [v[0]] *)
Definition py_first (v : json) : result json :=
  match v with
  | JArr (x :: _) => Ok x
  | JArr [] => Raise (Exception "IndexError")
  | JStr (c :: _) => Ok (JStr [c])
  | JStr [] => Raise (Exception "IndexError")
  | JObj _ => Raise (Exception "KeyError")
  | _ => Raise (Exception "TypeError")
  end.

(** [v[k]], [k] a string *)
Definition py_item (v : json) (k : str) : result json :=
  match v with
  | JObj fields =>
      match dict_get fields k with
      | Some x => Ok x
      | None => Raise (Exception "KeyError")
      end
  | _ => Raise (Exception "TypeError")
  end.

(** [k in v], [k] a string *)
Definition py_in (k : str) (v : json) : result bool :=
  match v with
  | JObj fields => Ok (match dict_get fields k with Some _ => true | None => false end)
  | JArr items =>
      Ok (existsb (fun x => match x with
                            | JStr s => bool_decide (s = k)
                            | _ => false
                            end) items)
  | JStr s => Ok (is_substring k s)
  | _ => Raise (Exception "TypeError")
  end.

(** The values [for x in v] goes through. *)
Definition py_iter (v : json) : result (list json) :=
  match v with
  | JArr items => Ok items
  | JStr s => Ok (map (fun c => JStr [c]) s)
  | JObj fields => Ok (map (fun kv => JStr (fst kv)) fields)
  | _ => Raise (Exception "TypeError")
  end.

(** [s.lstrip(c)] and [s.rstrip(c)] for a one-character [c] *)
Fixpoint lstrip (c : codepoint) (s : str) : str :=
  match s with
  | [] => []
  | a :: s' => if (a =? c)%N then lstrip c s' else s
  end.

Definition rstrip (c : codepoint) (s : str) : str :=
  reverse (lstrip c (reverse s)).

(** [v[-4:]] *)
Definition py_last4 (v : json) : result json :=
  match v with
  | JStr s => Ok (JStr (drop (length s - 4) s))
  | JArr items => Ok (JArr (drop (length items - 4) items))
  | _ => Raise (Exception "TypeError")
  end.

(** [v + s], [s] a string *)
Definition py_add_str (v : json) (s : str) : result json :=
  match v with
  | JStr t => Ok (JStr (t ++ s))
  | _ => Raise (Exception "TypeError")
  end.

(** ** The process and its surroundings *)

Inductive verb := GET | PUT | PATCH.

(** [{base}_{today}_{suffix}] *)
Record version_tag := VersionTag {
  tag_base : str;
  tag_day : str;
  tag_suffix : json
}.

Inductive endpoint :=
  | ProjectLookup (name : str) (version : version_tag)
      (* {DT_URL}/api/v1/project?name={name}&version={version} *)
  | ProjectCollection          (* {DT_URL}/api/v1/project *)
  | ProjectItem (uuid : json)  (* {DT_URL}/api/v1/project/{uuid} *)
  | BomCollection              (* {DT_URL}/api/v1/bom *)
  | BomStatus (token : json).  (* {DT_URL}/api/v1/bom/token/{token} *)

Inductive payload :=
  | NoPayload
  | NewProject (name : str) (version : version_tag) (classifier : string)
               (parent : option json)
      (* {"name", "version", "classifier", "active": True[, "parent": {"uuid"}]} *)
  | ProjectTags (tags : list str)                (* {"tags": [{"name": t}, ...]} *)
  | BomUpload (project : json) (bom : json).
      (* {"project", "bom": base64 of the BOM's JSON text} *)

Inductive command :=
  | Curl                   (* curl --unix-socket ... http://d/containers/json *)
  | Syft (image : json).   (* syft -q docker:{image} -o cyclonedx-json *)

Inductive event :=
  | Printed (stamp : str) (fmt : string)   (* log(f"...") *)
  | Slept (seconds : Z)                    (* time.sleep(seconds) *)
  | Requested (v : verb) (e : endpoint) (p : payload)
  | Ran (c : command).                     (* subprocess.check_output(...) *)

Record world := World {
  trace : list event;
  clock_reads : nat;
  http_calls : nat;
  process_runs : nat
}.

Definition initial_world : world := World [] 0 0 0.

Inductive http_answer :=
  | Unreachable                                     (* the request raises *)
  | Response (status : Z) (body : option json).     (* None: r.json() raises *)

Inductive process_answer :=
  | NotFound                       (* no such executable: FileNotFoundError *)
  | ExitNonZero                    (* CalledProcessError *)
  | Output (parsed : option json). (* the output; None: json.loads raises *)

(** The surroundings answer the [n]-th clock reading, request and process
    run. *)
Record environment := Environment {
  utc_now : nat -> Z;
  http : nat -> http_answer;
  subprocess : nat -> process_answer
}.

Record config := Config {
  DT_URL : str;
  DT_API_KEY : str;
  DT_PROJECT_NAME : str;
  DT_PROJECT_VERSION_BASE : str;
  SCAN_INTERVAL_SECONDS : Z;
  SERVER_HOSTNAME : option str
}.

(** The module's check of its three required settings, and the trailing
    slashes taken off [DT_URL]. *)
Definition startup (url key project : option str) : result (str * str * str) :=
  if negb (truthy_opt_str url) || negb (truthy_opt_str key)
     || negb (truthy_opt_str project)
  then Raise (Exception "SystemExit")
  else Ok (rstrip 47 (default [] url), default [] key, default [] project).

Definition M (A : Type) : Type := world -> result A * world.

Definition ret {A} (a : A) : M A := fun w => (Ok a, w).

Definition raise {A} (e : exn) : M A := fun w => (Raise e, w).

Definition bind {A B} (m : M A) (k : A -> M B) : M B :=
  fun w => match m w with
           | (Ok a, w') => k a w'
           | (Raise e, w') => (Raise e, w')
           end.

(** [try: m  except <the exceptions [caught] accepts> as e: h e] *)
Definition try_except {A} (caught : exn -> bool) (m : M A) (h : exn -> M A)
  : M A :=
  fun w => match m w with
           | (Ok a, w') => (Ok a, w')
           | (Raise e, w') => if caught e then h e w' else (Raise e, w')
           end.

(** [except Exception] *)
Definition any_exception (e : exn) : bool := true.

(** [except subprocess.CalledProcessError] *)
Definition called_process_error (e : exn) : bool :=
  match e with Exception what => bool_decide (what = "CalledProcessError"%string) end.

Notation "'let!' x ':=' m 'in' k" := (bind m (fun x => k))
  (at level 10, x name, m at level 100, k at level 200).

Definition lift {A} (r : result A) : M A := fun w => (r, w).

Definition emit (e : event) : M unit :=
  fun w => (Ok tt, World (trace w ++ [e]) (clock_reads w) (http_calls w)
                         (process_runs w)).

(** ["%Y-%m-%dT%H:%M:%SZ"] *)
Definition FMT_LOG : list directive :=
  [Dir_Y; Lit 45%N; Dir_m; Lit 45%N; Dir_d; Lit 84%N;
   Dir_H; Lit 58%N; Dir_M; Lit 58%N; Dir_S; Lit 90%N].

(** ["%Y%m%d"] *)
Definition FMT_DAY : list directive := [Dir_Y; Dir_m; Dir_d].

Section agent.
Context (cfg : config) (env : environment) (url_ok : str -> bool).

(** [datetime.now(UTC).strftime(fmt)] *)
Definition utc_strftime (fmt : list directive) : M str :=
  fun w => (Ok (strftime fmt (broken_down (utc_now env (clock_reads w)) 0)),
            World (trace w) (S (clock_reads w)) (http_calls w) (process_runs w)).

Definition log (fmt : string) : M unit :=
  let! now := utc_strftime FMT_LOG in
  emit (Printed now fmt).

Definition sleep (seconds : Z) : M unit := emit (Slept seconds).

(** A request: recorded, then answered. *)
Definition request (v : verb) (e : endpoint) (p : payload) : M (Z * option json) :=
  let! _ := emit (Requested v e p) in
  fun w =>
    let w' := World (trace w) (clock_reads w) (S (http_calls w)) (process_runs w) in
    match http env (http_calls w) with
    | Unreachable => (Raise (Exception "ConnectionError"), w')
    | Response status body => (Ok (status, body), w')
    end.

(** [r.json()] *)
Definition response_json (body : option json) : M json :=
  match body with
  | Some v => ret v
  | None => raise (Exception "JSONDecodeError")
  end.

(** [subprocess.check_output(cmd, text=True)], its output as parsed by
    [json.loads] later. *)
Definition check_output (c : command) : M (option json) :=
  let! _ := emit (Ran c) in
  fun w =>
    let w' := World (trace w) (clock_reads w) (http_calls w) (S (process_runs w)) in
    match subprocess env (process_runs w) with
    | NotFound => (Raise (Exception "FileNotFoundError"), w')
    | ExitNonZero => (Raise (Exception "CalledProcessError"), w')
    | Output parsed => (Ok parsed, w')
    end.

(** [json.loads(out)] *)
Definition json_loads (out : option json) : M json :=
  match out with
  | Some v => ret v
  | None => raise (Exception "JSONDecodeError")
  end.

(** [for x in xs: body(x)] *)
Fixpoint for_each {A} (body : A -> M unit) (xs : list A) : M unit :=
  match xs with
  | [] => ret tt
  | x :: xs' => let! _ := body x in for_each body xs'
  end.

(** *** discover_containers *)

(** The dict [{"id", "name", "image"}] built for a container. *)
Record container := Container {
  c_id : json;
  c_name : str;
  c_image : json
}.

(** One turn of [for c in data]. *)
Definition describe (c : json) : result container :=
  let+ names := py_get c (lit "Names") (JArr [JStr (lit "unknown")]) in
  let+ raw_name := py_first names in
  let+ name :=
    if truthy raw_name
    then match raw_name with
         | JStr s => Ok (lstrip 47 s)
         | _ => Raise (Exception "AttributeError")
         end
    else Ok (lit "unknown") in
  let+ id := py_get c (lit "Id") JNull in
  let+ image := py_get c (lit "Image") JNull in
  Ok (Container id name image).

Definition discover_containers : M (list container) :=
  let! got :=
    try_except any_exception
      (let! out := check_output Curl in
       let! data := json_loads out in
       ret (Some data))
      (fun e =>
         let! _ := log "ERROR: failed to query podman socket: {e}" in
         ret None) in
  match got with
  | None => ret []
  | Some data =>
      let! items := lift (py_iter data) in
      let! containers := lift (map_result describe items) in
      let! _ := log "Discovered {len(containers)} containers:" in
      let! _ := for_each (fun _ => log "  - {c['name']} ({c['image']})")
                         containers in
      ret containers
  end.

(** *** sanitize_licenses *)

Definition expression_of (v : json) : json := JObj [(lit "expression", v)].

(** The loop [for lic in component["licenses"]]: the value of
    [valid_license] at its end, and the licenses as the loop leaves them
    (an invalid [url] popped from a license object it passed over). *)
Fixpoint scan_licenses (lics : list json) : result (option json * list json) :=
  match lics with
  | [] => Ok (None, [])
  | lic :: rest =>
      let continue (lic' : json) :=
        let+ r := scan_licenses rest in
        Ok (fst r, lic' :: snd r) in
      match lic with
      | JObj fields =>
          match dict_get fields (lit "expression") with
          | Some (JStr expr) => Ok (Some (expression_of (JStr expr)), lics)
          | _ =>
              match dict_get fields (lit "license") with
              | Some (JObj lic_obj) =>
                  match dict_get lic_obj (lit "id") with
                  | Some id => Ok (Some (expression_of id), lics)
                  | None =>
                      match dict_get lic_obj (lit "name") with
                      | Some name => Ok (Some (expression_of name), lics)
                      | None =>
                          match dict_get lic_obj (lit "url") with
                          | Some (JStr url) =>
                              if url_ok url then continue lic
                              else continue
                                     (JObj (dict_set fields (lit "license")
                                              (JObj (dict_pop lic_obj (lit "url")))))
                          | Some _ => Raise (Exception "TypeError")
                          | None => continue lic
                          end
                      end
                  end
              | _ => continue lic
              end
          end
      | _ => continue lic
      end
  end.

(** One turn of [for component in bom.get("components", [])]. *)
Definition sanitize_component (component : json) : result json :=
  let+ present := py_in (lit "licenses") component in
  if negb present then Ok component
  else
    let+ licenses := py_item component (lit "licenses") in
    let+ lics := py_iter licenses in
    let+ scanned := scan_licenses lics in
    match component with
    | JObj fields =>
        match fst scanned with
        | Some valid_license =>
            Ok (JObj (dict_set fields (lit "licenses") (JArr [valid_license])))
        | None => Ok (JObj (dict_pop fields (lit "licenses")))
        end
    | _ => Raise (Exception "TypeError")
    end.

(** [for component in bom.get("components", []): body(component)], each
    component being what [body] makes of it. *)
Definition for_components (body : json -> result json) (bom : json)
  : result json :=
  let+ components := py_get bom (lit "components") (JArr []) in
  let+ items := py_iter components in
  let+ items' := map_result body items in
  match bom, components with
  | JObj fields, JArr _ =>
      match dict_get fields (lit "components") with
      | Some _ => Ok (JObj (dict_set fields (lit "components") (JArr items')))
      | None => Ok bom
      end
  | _, _ => Ok bom
  end.

(** The document after [sanitize_licenses(bom)]. *)
Definition sanitize_licenses (bom : json) : result json :=
  for_components sanitize_component bom.

(** *** get_or_create_project *)

Inductive searched :=
  | Found (uuid : json)   (* return uuid *)
  | Failed                (* return None *)
  | Absent.               (* go on to create *)

Definition get_or_create_project (name hostname : str) (parent_uuid : json)
  : M json :=
  let! today := utc_strftime FMT_DAY in
  let! suffix :=
    match parent_uuid with
    | JNull => ret (JStr hostname)
    | _ => lift (py_last4 parent_uuid)
    end in
  let project_name :=
    match parent_uuid with JNull => DT_PROJECT_NAME cfg | _ => name end in
  let project_version := VersionTag (DT_PROJECT_VERSION_BASE cfg) today suffix in
  let classifier :=
    match parent_uuid with
    | JNull => "APPLICATION"%string
    | _ => "CONTAINER"%string
    end in
  let! _ := log "Checking for project '{project_name}' (version {project_version})" in
  let! r := request GET (ProjectLookup project_name project_version) NoPayload in
  let! outcome :=
    if fst r =? 200 then
      let! projects := response_json (snd r) in
      if truthy projects then
        let! first := lift (py_first projects) in
        let! uuid := lift (py_item first (lit "uuid")) in
        let! _ := log "Project already exists: {uuid}" in
        ret (Found uuid)
      else ret Absent
    else if negb (fst r =? 404) then
      let! _ := log "ERROR: search failed for project {project_name}: {r.status_code} {r.text}" in
      ret Failed
    else ret Absent in
  match outcome with
  | Found uuid => ret uuid
  | Failed => ret JNull
  | Absent =>
      let parent :=
        match parent_uuid with JNull => None | _ => Some parent_uuid end in
      let! _ := log "Creating project '{project_name}' (version {project_version})" in
      let! r := request PUT ProjectCollection
                  (NewProject project_name project_version classifier parent) in
      let! body :=
        try_except any_exception (response_json (snd r))
                   (fun _ => ret (JObj [])) in
      let! refused :=
        if negb (fst r =? 201) then ret true
        else let! has := lift (py_in (lit "uuid") body) in ret (negb has) in
      if refused : bool then
        let! _ := log "ERROR: failed to create project: {r.status_code} {body}" in
        ret JNull
      else
        let! uuid := lift (py_item body (lit "uuid")) in
        let! _ := log "Created project {project_name} uuid={uuid}" in
        let tags :=
          hostname ::
            match SERVER_HOSTNAME cfg with
            | Some s => if truthy_str s then [s] else []
            | None => []
            end in
        let! _ :=
          try_except any_exception
            (let! _ := request PATCH (ProjectItem uuid) (ProjectTags tags) in
             ret tt)
            (fun e => log "WARNING: failed to tag project {uuid}: {e}") in
        ret uuid
  end.

(** *** run_syft *)

(** [v.setdefault(k, dflt)], the dict afterwards *)
Definition py_setdefault (v : json) (k : str) (dflt : json) : result json :=
  match v with
  | JObj fields =>
      match dict_get fields k with
      | Some _ => Ok v
      | None => Ok (JObj (dict_set fields k dflt))
      end
  | _ => Raise (Exception "AttributeError")
  end.

(** [v[k] = x], the dict afterwards *)
Definition py_setitem (v : json) (k : str) (x : json) : result json :=
  match v with
  | JObj fields => Ok (JObj (dict_set fields k x))
  | _ => Raise (Exception "TypeError")
  end.

Definition default_component (service_name : str) : json :=
  JObj [(lit "type", JStr (lit "application"));
        (lit "name", JStr service_name);
        (lit "version", JStr (lit "1.0.0"))].

(** The lines of [run_syft] after the output is parsed. *)
Definition prepare_bom (bom : json) (service_name : str) : result json :=
  let+ bom := py_setdefault bom (lit "metadata") (JObj []) in
  let+ metadata := py_item bom (lit "metadata") in
  let+ metadata := py_setdefault metadata (lit "component")
                     (default_component service_name) in
  let+ bom := py_setitem bom (lit "metadata") metadata in
  let+ bom := for_components
                (fun comp => py_setitem comp (lit "group") (JStr service_name))
                bom in
  sanitize_licenses bom.

Definition run_syft (image : json) (service_name : str) : M json :=
  let! tagged := lift (py_in (lit ":") image) in
  let! image :=
    if tagged : bool then ret image
    else lift (py_add_str image (lit ":latest")) in
  let! _ := log "Scanning {image} with syft" in
  let! out :=
    try_except called_process_error
      (let! o := check_output (Syft image) in ret (Some o))
      (fun e =>
         let! _ := log "ERROR: syft failed for {image}: {e}" in
         ret None) in
  match out with
  | None => ret JNull
  | Some o =>
      let! parsed :=
        try_except any_exception
          (let! bom := json_loads o in ret (Some bom))
          (fun e =>
             let! _ := log "ERROR: failed to parse syft output for {image}: {e}" in
             ret None) in
      match parsed with
      | None => ret JNull
      | Some bom => lift (prepare_bom bom service_name)
      end
  end.

(** *** upload_bom

    [json.dumps(bom)] does not raise on a parsed document, so the handler
    around it is not entered. *)
Definition upload_bom (project_uuid bom : json) (service_name : str) : M json :=
  let! r := request PUT BomCollection (BomUpload project_uuid bom) in
  if negb (fst r =? 200) then
    let! _ := log "ERROR: BOM upload failed for {service_name}: {r.status_code} {r.text}" in
    ret JNull
  else
    let! token :=
      try_except any_exception
        (let! js := response_json (snd r) in
         lift (py_get js (lit "token") JNull))
        (fun _ => ret JNull) in
    let! _ :=
      if truthy token
      then log "BOM uploaded for {service_name}, token={token}"
      else log "BOM uploaded for {service_name}, but no token returned" in
    ret token.

(** *** wait_for_bom *)

(** The remaining [n] turns of [for _ in range(10)], and the line after
    the loop. *)
Fixpoint poll (token : json) (n : nat) : M unit :=
  match n with
  | O => log "BOM processing may still be ongoing"
  | S n' =>
      let! r := request GET (BomStatus token) NoPayload in
      if negb (fst r =? 200) then
        log "WARNING: BOM status check failed: {r.status_code} {r.text}"
      else
        let! js := response_json (snd r) in
        let! processing := lift (py_get js (lit "processing") (JBool false)) in
        if negb (truthy processing) then log "BOM processing completed"
        else
          let! _ := sleep 5 in
          poll token n'
  end.

Definition wait_for_bom (token : json) : M unit := poll token 10.

(** *** main_loop *)

(** One turn of the second [for c in containers] of a scan cycle. *)
Definition scan_container (hostname : str) (parent_uuid : json) (c : container)
  : M unit :=
  if negb (truthy (c_image c)) then ret tt
  else
    let! project_uuid := get_or_create_project (c_name c) hostname parent_uuid in
    if negb (truthy project_uuid) then ret tt
    else
      let! bom := run_syft (c_image c) (c_name c) in
      if negb (truthy bom) then ret tt
      else
        let! token := upload_bom project_uuid bom (c_name c) in
        if truthy token then wait_for_bom token else ret tt.

(** The body of [while True]. *)
Definition scan_cycle (hostname : str) (parent_uuid : json) : M unit :=
  let! _ := log "Starting scan cycle" in
  let! containers := discover_containers in
  match containers with
  | [] =>
      let! _ := log "No containers discovered, sleeping" in
      sleep (SCAN_INTERVAL_SECONDS cfg)
  | _ :: _ =>
      let! _ := log "Intended project structure:" in
      let! _ := log "  {DT_PROJECT_NAME}" in
      let! _ := for_each
                  (fun c => if truthy (c_image c)
                            then log "    {c['name']}"
                            else ret tt)
                  containers in
      let! _ := for_each (scan_container hostname parent_uuid) containers in
      let! _ := log "Scan cycle done, sleeping {SCAN_INTERVAL_SECONDS}s" in
      sleep (SCAN_INTERVAL_SECONDS cfg)
  end.

Fixpoint scan_cycles (hostname : str) (parent_uuid : json) (n : nat) : M unit :=
  match n with
  | O => ret tt
  | S n' =>
      let! _ := scan_cycle hostname parent_uuid in
      scan_cycles hostname parent_uuid n'
  end.

(** [main_loop] up to the end of the first [cycles] turns of its loop;
    [hostname] is what [socket.gethostname()] returns. *)
Definition main_loop (hostname : str) (cycles : nat) : M unit :=
  let! _ := log "Agent starting, DT root project={DT_PROJECT_NAME}, host={hostname}" in
  let! parent_uuid :=
    get_or_create_project (DT_PROJECT_NAME cfg) hostname JNull in
  if negb (truthy parent_uuid) then
    log "ERROR: could not create/find parent project, aborting."
  else scan_cycles hostname parent_uuid cycles.

End agent.

(** ** Observations on traces *)

(** The requests made, in order. *)
Definition requests (t : list event) : list (verb * endpoint * payload) :=
  omap (fun e => match e with
                 | Requested v e p => Some (v, e, p)
                 | _ => None
                 end) t.

(** The commands run, in order. *)
Definition commands (t : list event) : list command :=
  omap (fun e => match e with Ran c => Some c | _ => None end) t.

(** The seconds slept, in order. *)
Definition sleeps (t : list event) : list Z :=
  omap (fun e => match e with Slept s => Some s | _ => None end) t.

End Dtrack.

(** ** Wording for the SBOM agent *)

(** A container object of the runtime's list whose names are absent or
    start with a string. *)
Definition named_container (item : Dtrack.json) : Prop :=
  exists fields,
    item = Dtrack.JObj fields
    /\ (dict_get fields (lit "Names") = None
        \/ exists first rest,
             dict_get fields (lit "Names")
             = Some (Dtrack.JArr (Dtrack.JStr first :: rest))).

(** The name the agent gives to a container object. *)
Definition discovered_name (fields : list (str * Dtrack.json)) : str :=
  match dict_get fields (lit "Names") with
  | Some (Dtrack.JArr (Dtrack.JStr (a :: first) :: _)) =>
      Dtrack.lstrip 47 (a :: first)
  | _ => lit "unknown"
  end.

(** What a license entry offers as expression: its own expression if that
    is a string, else the id of its license object, else that object's
    name. *)
Definition offered (lic : Dtrack.json) : option Dtrack.json :=
  match lic with
  | Dtrack.JObj fields =>
      match dict_get fields (lit "expression") with
      | Some (Dtrack.JStr expr) => Some (Dtrack.JStr expr)
      | _ =>
          match dict_get fields (lit "license") with
          | Some (Dtrack.JObj lic_obj) =>
              match dict_get lic_obj (lit "id") with
              | Some id => Some id
              | None => dict_get lic_obj (lit "name")
              end
          | _ => None
          end
      end
  | _ => None
  end.

(** A license entry whose license object, if it has a url, has a string
    there. *)
Definition url_is_text (lic : Dtrack.json) : Prop :=
  forall fields lic_obj url,
    lic = Dtrack.JObj fields ->
    dict_get fields (lit "license") = Some (Dtrack.JObj lic_obj) ->
    dict_get lic_obj (lit "url") = Some url ->
    exists s, url = Dtrack.JStr s.

(** A component as [json.loads] gives it: an object with distinct keys,
    whose licenses, if any, are an array of entries with textual urls. *)
Definition sound_component (c : Dtrack.json) : Prop :=
  exists fields,
    c = Dtrack.JObj fields
    /\ NoDup (dict_keys fields)
    /\ match dict_get fields (lit "licenses") with
       | None => True
       | Some (Dtrack.JArr lics) => Forall url_is_text lics
       | Some _ => False
       end.

(** The second world differs from the first by printed lines and clock
    readings only. *)
Definition only_printed (w w' : Dtrack.world) : Prop :=
  Dtrack.requests (Dtrack.trace w') = Dtrack.requests (Dtrack.trace w)
  /\ Dtrack.commands (Dtrack.trace w') = Dtrack.commands (Dtrack.trace w)
  /\ Dtrack.sleeps (Dtrack.trace w') = Dtrack.sleeps (Dtrack.trace w)
  /\ Dtrack.http_calls w' = Dtrack.http_calls w
  /\ Dtrack.process_runs w' = Dtrack.process_runs w.

(** ** Scenarios for the SBOM agent *)

Definition dtrack_config : Dtrack.config :=
  {| Dtrack.DT_URL := lit "https://dtrack.example";
     Dtrack.DT_API_KEY := lit "key";
     Dtrack.DT_PROJECT_NAME := lit "shop";
     Dtrack.DT_PROJECT_VERSION_BASE := lit "v1.2.0";
     Dtrack.SCAN_INTERVAL_SECONDS := 3600;
     Dtrack.SERVER_HOSTNAME := Some (lit "rack7") |}.

(** Surroundings that answer every process run with [p] and every request
    with the answer [h] gives to its number, at 2024-03-07T23:30:00Z. *)
Definition dtrack_env (p : Dtrack.process_answer) (h : nat -> Dtrack.http_answer)
  : Dtrack.environment :=
  {| Dtrack.utc_now := fun _ => late_evening_utc;
     Dtrack.http := h;
     Dtrack.subprocess := fun _ => p |}.

Definition web_entry : Dtrack.json :=
  Dtrack.JObj [(lit "Id", Dtrack.JStr (lit "abc123"));
               (lit "Names", Dtrack.JArr [Dtrack.JStr (lit "//web")]);
               (lit "Image", Dtrack.JStr (lit "nginx"))].

Definition unnamed_entry : Dtrack.json :=
  Dtrack.JObj [(lit "Id", Dtrack.JStr (lit "def456"));
               (lit "Names", Dtrack.JArr [])].

Definition always (a : Dtrack.http_answer) : nat -> Dtrack.http_answer :=
  fun _ => a.

(** A license entry at which the loop raises: it offers nothing and its
    license object has a url that is not a string. *)
Definition bad_url (lic : Dtrack.json) : bool :=
  match lic with
  | Dtrack.JObj fields =>
      match dict_get fields (lit "license") with
      | Some (Dtrack.JObj lic_obj) =>
          match dict_get lic_obj (lit "url") with
          | Some (Dtrack.JStr _) => false
          | Some _ => true
          | None => false
          end
      | _ => false
      end
  | _ => false
  end.

(** The license the loop over the entries settles on: that of the first
    entry that offers one, unless an entry before it has a bad url. *)
Fixpoint chosen_license (lics : list Dtrack.json) : result (option Dtrack.json) :=
  match lics with
  | [] => Ok None
  | lic :: rest =>
      match offered lic with
      | Some e => Ok (Some (Dtrack.expression_of e))
      | None =>
          if bad_url lic then Raise (Exception "TypeError")
          else chosen_license rest
      end
  end.

(** What [sanitize_licenses] makes of a component's fields. *)
Definition sanitized_fields (fields : list (str * Dtrack.json))
    (choice : option Dtrack.json) : list (str * Dtrack.json) :=
  match choice with
  | Some valid_license =>
      dict_set fields (lit "licenses") (Dtrack.JArr [valid_license])
  | None => dict_pop fields (lit "licenses")
  end.

(** How [sanitize_licenses] relates a component to what it was: the other
    keys keep their values, a component without licenses is untouched, and
    the licenses are gone or a single expression. *)
Definition sanitized_component (c c' : Dtrack.json) : Prop :=
  exists fields fields',
    c = Dtrack.JObj fields /\ c' = Dtrack.JObj fields'
    /\ NoDup (dict_keys fields')
    /\ (forall k, k ≠ lit "licenses" -> dict_get fields' k = dict_get fields k)
    /\ (dict_get fields (lit "licenses") = None -> fields' = fields)
    /\ (dict_get fields' (lit "licenses") = None
        \/ exists e,
             dict_get fields' (lit "licenses")
             = Some (Dtrack.JArr [Dtrack.JObj [(lit "expression", e)]])).

(** How [run_syft] relates a component of the scanner's output to the one
    it returns: the group is the service name, and every key other than
    group and licenses keeps its value. *)
Definition grouped_component (service_name : str) (c c' : Dtrack.json) : Prop :=
  exists fields fields',
    c = Dtrack.JObj fields /\ c' = Dtrack.JObj fields'
    /\ dict_get fields' (lit "group") = Some (Dtrack.JStr service_name)
    /\ (forall k, k ≠ lit "licenses" -> k ≠ lit "group" ->
          dict_get fields' k = dict_get fields k)
    /\ (dict_get fields' (lit "licenses") = None
        \/ exists e,
             dict_get fields' (lit "licenses")
             = Some (Dtrack.JArr [Dtrack.JObj [(lit "expression", e)]])).

(** The day a call of [get_or_create_project] in world [w] puts in the
    version: the UTC date at its one reading of the clock. *)
Definition utc_day (env : Dtrack.environment) (w : Dtrack.world) : str :=
  strftime Dtrack.FMT_DAY
           (broken_down (Dtrack.utc_now env (Dtrack.clock_reads w)) 0).

(** The argument [parent_uuid] as [main_loop] passes it: [None], or a
    text. *)
Definition parent_argument (v : Dtrack.json) : Prop :=
  v = Dtrack.JNull \/ exists p, v = Dtrack.JStr p.

(** The tags of a new project: the host's name, then [SERVER_HOSTNAME] when
    it is set and not empty. *)
Definition host_tags (cfg : Dtrack.config) (hostname : str) : list str :=
  hostname ::
    match Dtrack.SERVER_HOSTNAME cfg with
    | Some (c :: s) => [c :: s]
    | _ => []
    end.

(** What separates a trace from a later one: the requests, commands and
    sleeps added. *)
Definition added (w w' : Dtrack.world)
    (rs : list (Dtrack.verb * Dtrack.endpoint * Dtrack.payload))
    (cs : list Dtrack.command) (ss : list Z) : Prop :=
  Dtrack.requests (Dtrack.trace w') = Dtrack.requests (Dtrack.trace w) ++ rs
  /\ Dtrack.commands (Dtrack.trace w') = Dtrack.commands (Dtrack.trace w) ++ cs
  /\ Dtrack.sleeps (Dtrack.trace w') = Dtrack.sleeps (Dtrack.trace w) ++ ss.

(** The answer to a search that lets [get_or_create_project] go on to
    create the project: status 404, or status 200 with a body that is
    false as a condition (an empty list). *)
Definition reports_absent (status : Z) (body : option Dtrack.json) : Prop :=
  status = 404
  \/ (status = 200 /\ exists v, body = Some v /\ Dtrack.truthy v = false).

(** The answer to a creation that [get_or_create_project] takes as a
    refusal: a status other than 201, or a body that is not JSON or is an
    object without the key uuid. *)
Definition refuses (status : Z) (body : option Dtrack.json) : Prop :=
  status <> 201
  \/ body = None
  \/ exists fields, body = Some (Dtrack.JObj fields)
                    /\ dict_get fields (lit "uuid") = None.

(** A server without the project: the search is answered 404, the
    creation 201 with a uuid, and the tagging fails. *)
Definition creating_server (n : nat) : Dtrack.http_answer :=
  match n with
  | 0%nat => Dtrack.Response 404 None
  | 1%nat =>
      Dtrack.Response 201
        (Some (Dtrack.JObj [(lit "uuid", Dtrack.JStr (lit "77aa"))]))
  | _ => Dtrack.Unreachable
  end.

(** A server that answers the search 404 and refuses the creation. *)
Definition refusing_server (n : nat) : Dtrack.http_answer :=
  match n with
  | 0%nat => Dtrack.Response 404 None
  | _ => Dtrack.Response 403 None
  end.

(** The image [run_syft] hands to the scanner: the image's name, with
    [:latest] added when it holds no colon. *)
Definition scanned_image (s : str) : Dtrack.json :=
  Dtrack.JStr (if bool_decide (58%N ∈ s) then s else s ++ lit ":latest").

(** The requests of the project API: those to the project endpoints. *)
Definition project_request (r : Dtrack.verb * Dtrack.endpoint * Dtrack.payload)
  : Prop :=
  match snd (fst r) with
  | Dtrack.ProjectLookup _ _ | Dtrack.ProjectCollection | Dtrack.ProjectItem _ => True
  | Dtrack.BomCollection | Dtrack.BomStatus _ => False
  end.

(** A computation that, from any world, adds at most [n] requests, all of
    the project API, and neither runs a command nor sleeps. *)
Definition within (n : nat) {A} (m : Dtrack.M A) : Prop :=
  forall w,
    exists rs,
      added w (snd (m w)) rs [] []
      /\ (length rs <= n)%nat
      /\ Forall project_request rs
      /\ Dtrack.process_runs (snd (m w)) = Dtrack.process_runs w.

(** A scanner's answer that gives [run_syft] no document. *)
Definition scan_fails (a : Dtrack.process_answer) : Prop :=
  match a with
  | Dtrack.Output (Some _) => False
  | _ => True
  end.

(** * Properties *)

(** ** Calendar and formatting *)

Example civil_epoch : civil_from_days 0 = (1970, 1, 1).
Proof. reflexivity. Qed.

Example civil_leap_day_2000 : civil_from_days 11016 = (2000, 2, 29).
Proof. reflexivity. Qed.

Example civil_2024_03_07 : civil_from_days 19789 = (2024, 3, 7).
Proof. reflexivity. Qed.

Example civil_before_epoch : civil_from_days (-1) = (1969, 12, 31).
Proof. reflexivity. Qed.

Lemma strftime_index_date t :
  strftime FMT_INDEX_DATE t = yyyy_mm_dd (date_of t).
Proof.
  destruct t as [y m d hh mm ss off].
  unfold strftime, yyyy_mm_dd, date_of; simpl.
  now rewrite ?app_nil_r.
Qed.

(** In a zone with offset zero local time is UTC. *)
Lemma localtime_utc r : utcoffset r = 0 -> localtime r = gmtime r.
Proof. unfold localtime, gmtime. now intros ->. Qed.

Lemma uint_codes_inj u v : uint_codes u = uint_codes v -> u = v.
Proof.
  revert v; induction u; intros v; destruct v; simpl; intros H;
    try discriminate; try reflexivity;
    injection H as H; f_equal; auto.
Qed.

Lemma decimal_inj y1 y2 :
  0 <= y1 -> 0 <= y2 -> decimal y1 = decimal y2 -> y1 = y2.
Proof.
  unfold decimal. intros H1 H2 H. apply uint_codes_inj in H.
  apply (f_equal N.of_uint) in H.
  rewrite !DecimalN.Unsigned.of_to in H. lia.
Qed.

Lemma digit_inj a b : 0 <= a -> 0 <= b -> digit a = digit b -> a = b.
Proof. unfold digit. lia. Qed.

Lemma pad2_inj a b : 0 <= a -> 0 <= b -> pad2 a = pad2 b -> a = b.
Proof.
  unfold pad2. intros Ha Hb H. injection H as H1 H2.
  apply digit_inj in H1; [| apply Z.div_pos; lia ..].
  apply digit_inj in H2; [| apply Z.mod_pos_bound; lia ..].
  rewrite (Z.div_mod a 10), (Z.div_mod b 10) by lia. lia.
Qed.

(** Different dates have different renderings. *)
Lemma yyyy_mm_dd_inj y1 m1 d1 y2 m2 d2 :
  0 <= y1 -> 0 <= y2 -> 0 <= m1 -> 0 <= m2 -> 0 <= d1 -> 0 <= d2 ->
  yyyy_mm_dd (y1, m1, d1) = yyyy_mm_dd (y2, m2, d2) ->
  (y1, m1, d1) = (y2, m2, d2).
Proof.
  intros Hy1 Hy2 Hm1 Hm2 Hd1 Hd2 H. unfold yyyy_mm_dd in H.
  apply app_inj_2 in H as [Hy H]; [| reflexivity].
  apply decimal_inj in Hy; [| assumption ..].
  simpl in H. injection H as H3 H4 H5 H6.
  assert (Hm : pad2 m1 = pad2 m2) by (unfold pad2; congruence).
  assert (Hd : pad2 d1 = pad2 d2) by (unfold pad2; congruence).
  apply pad2_inj in Hm; [| assumption ..].
  apply pad2_inj in Hd; [| assumption ..].
  congruence.
Qed.

(** ** The indexing sink *)

Section indexing_sink.
Context (g : globals) (env : environment).

(** The document write of [send_log] in indexing mode: one clock reading
    for the index name, one backend call. *)
Lemma send_log_indexing doc w c :
  AGENT_MODE g ≠ lit "local" ->
  opensearch_client g = Some c ->
  send_log g env doc w =
    let d := default [] (heap w !! doc) in
    let date := yyyy_mm_dd (date_of (localtime (clock env (tick w)))) in
    let index_name := OPENSEARCH_INDEX_PREFIX g ++ lit "-" ++ date in
    (Ok tt,
     {| heap := heap w; pool := pool w;
        trace := trace w ++
          [EvSendLog d;
           if index_raises env (S (tick w))
           then EvLog ERROR "Failed to index log line: %s"
           else EvIndex index_name d];
        tick := S (S (tick w)) |}).
Proof.
  intros Hmode Hc. unfold send_log, bind, load, emit; simpl.
  destruct (decide (AGENT_MODE g = lit "local")) as [|_]; [contradiction|].
  rewrite Hc. unfold time_strftime, try_except, client_index, bind, ask, ret, load;
    simpl.
  rewrite strftime_index_date.
  destruct (index_raises env (S (tick w))); simpl;
    unfold log, emit, raise, add_event; simpl;
    now rewrite <- app_assoc.
Qed.

Lemma send_log_no_client doc w :
  AGENT_MODE g ≠ lit "local" ->
  opensearch_client g = None ->
  send_log g env doc w =
    (Ok tt,
     {| heap := heap w; pool := pool w;
        trace := trace w ++
          [EvSendLog (default [] (heap w !! doc));
           EvLog ERROR "OpenSearch client not initialized, cannot send log"];
        tick := tick w |}).
Proof.
  intros Hmode Hc. unfold send_log, bind, load, emit; simpl.
  destruct (decide (AGENT_MODE g = lit "local")) as [|_]; [contradiction|].
  rewrite Hc. unfold log, emit, add_event; simpl.
  now rewrite <- app_assoc.
Qed.
End indexing_sink.

(** C1 (amended). For every record the indexing sink writes, the target
    index name is the configured prefix, a hyphen, and the calendar date of
    the write in the process's LOCAL time zone, formatted YYYY.MM.DD: the
    code formats [time.localtime()].  The name depends only on the prefix
    and that local date; it is the UTC date when the zone's offset is zero,
    and with prefix "podman-logs" and a write on local date 2024-03-07 it is
    "podman-logs-2024.03.07". *)
Theorem index_name_is_prefix_and_local_date
    (g : globals) (env : environment) (doc : nat) (w : world) (c : unit) :
  AGENT_MODE g ≠ lit "local" ->
  opensearch_client g = Some c ->
  index_raises env (S (tick w)) = false ->
  let now := clock env (tick w) in
  let local_date := date_of (localtime now) in
  exists index_name : str,
    trace (snd (send_log g env doc w)) =
      trace w ++ [EvSendLog (default [] (heap w !! doc));
                  EvIndex index_name (default [] (heap w !! doc))]
    /\ index_name = OPENSEARCH_INDEX_PREFIX g ++ lit "-" ++ yyyy_mm_dd local_date
    /\ (utcoffset now = 0 -> local_date = date_of (gmtime now))
    /\ (OPENSEARCH_INDEX_PREFIX g = lit "podman-logs" ->
        local_date = (2024, 3, 7) ->
        index_name = lit "podman-logs-2024.03.07").
Proof.
  intros Hmode Hc Hok now local_date.
  exists (OPENSEARCH_INDEX_PREFIX g ++ lit "-" ++ yyyy_mm_dd local_date).
  split; [| split; [reflexivity | split]].
  - rewrite (send_log_indexing g env doc w c Hmode Hc).
    cbv zeta. cbn [snd trace]. now rewrite Hok.
  - intros Hutc. unfold local_date. now rewrite localtime_utc.
  - intros Hprefix Hdate. now rewrite Hprefix, Hdate.
Qed.

Lemma index_name_is_prefix_and_local_date_witness :
  exists index_name : str,
    trace (snd (send_log indexing_globals (quiet_env 0) 0 (world_with hello_doc))) =
      [EvSendLog hello_doc; EvIndex index_name hello_doc]
    /\ index_name = lit "podman-logs-2024.03.07".
Proof.
  destruct (index_name_is_prefix_and_local_date
              indexing_globals (quiet_env 0) 0 (world_with hello_doc) tt)
    as (index_name & Htrace & _ & _ & Hname).
  - discriminate.
  - reflexivity.
  - reflexivity.
  - exists index_name. split.
    + exact Htrace.
    + apply Hname; reflexivity.
Defined.

(** C1, as stated, fails: a write at 2024-03-07T23:30:00Z by a process
    whose zone is one hour east of UTC occurs on 2024-03-07 UTC and goes to
    the index of 2024-03-08. *)
Lemma index_name_utc_date_counterexample :
  date_of (gmtime (clock (quiet_env 3600) 0)) = (2024, 3, 7)
  /\ OPENSEARCH_INDEX_PREFIX indexing_globals = lit "podman-logs"
  /\ trace (snd (send_log indexing_globals (quiet_env 3600) 0
                          (world_with hello_doc))) =
       [EvSendLog hello_doc; EvIndex (lit "podman-logs-2024.03.08") hello_doc]
  /\ lit "podman-logs-2024.03.08" ≠ lit "podman-logs-2024.03.07".
Proof. repeat split. discriminate. Qed.

(** Records written on different local days land in different indices. *)
Lemma index_names_differ_by_day (prefix : str) (y1 m1 d1 y2 m2 d2 : Z) :
  0 <= y1 -> 0 <= y2 -> 0 <= m1 -> 0 <= m2 -> 0 <= d1 -> 0 <= d2 ->
  (y1, m1, d1) ≠ (y2, m2, d2) ->
  prefix ++ lit "-" ++ yyyy_mm_dd (y1, m1, d1)
  ≠ prefix ++ lit "-" ++ yyyy_mm_dd (y2, m2, d2).
Proof.
  intros ? ? ? ? ? ? Hne Heq. apply Hne.
  apply app_inv_head in Heq. apply (app_inv_head (lit "-")) in Heq.
  now apply yyyy_mm_dd_inj.
Qed.

(** ** Dictionaries *)

Section dict_facts.
Context {V : Type}.
Implicit Types (d : dict V) (k : str) (v : V).

Lemma dict_get_set_eq d k v : dict_get (dict_set d k v) k = Some v.
Proof.
  induction d as [|[k' v'] d IH]; simpl.
  - now rewrite decide_True.
  - destruct (decide (k' = k)) as [->|Hne]; simpl.
    + now rewrite decide_True.
    + now rewrite decide_False.
Qed.

Lemma dict_get_set_ne d k k' v :
  k ≠ k' -> dict_get (dict_set d k v) k' = dict_get d k'.
Proof.
  intros Hne. induction d as [|[k0 v0] d IH]; simpl.
  - now rewrite decide_False.
  - destruct (decide (k0 = k)) as [->|Hne0]; simpl.
    + now rewrite !decide_False.
    + destruct (decide (k0 = k')); [reflexivity | exact IH].
Qed.

Lemma dict_keys_set d k v k' :
  k' ∈ dict_keys (dict_set d k v) <-> k' = k \/ k' ∈ dict_keys d.
Proof.
  unfold dict_keys. induction d as [|[k0 v0] d IH]; simpl.
  - rewrite list_elem_of_singleton. split; [auto | intros [|H]; [auto | inversion H]].
  - destruct (decide (k0 = k)) as [->|Hne]; simpl;
      rewrite !elem_of_cons; [tauto | rewrite IH; tauto].
Qed.

Lemma dict_get_is_Some d k : is_Some (dict_get d k) <-> k ∈ dict_keys d.
Proof.
  unfold dict_keys. induction d as [|[k0 v0] d IH]; simpl.
  - split; [intros [? H]; discriminate | intros H; inversion H].
  - rewrite elem_of_cons. destruct (decide (k0 = k)) as [->|Hne].
    + split; [auto | eauto].
    + rewrite IH. split; [auto | intros [->|H]; [contradiction | exact H]].
Qed.

Lemma dict_get_None d k : dict_get d k = None <-> k ∉ dict_keys d.
Proof.
  rewrite <- dict_get_is_Some, <- eq_None_not_Some. reflexivity.
Qed.

Lemma dict_keys_set_NoDup d k v :
  NoDup (dict_keys d) -> NoDup (dict_keys (dict_set d k v)).
Proof.
  unfold dict_keys. induction d as [|[k0 v0] d IH]; simpl; intros Hnd.
  - apply NoDup_singleton.
  - apply NoDup_cons in Hnd as [Hnotin Hnd].
    destruct (decide (k0 = k)) as [->|Hne]; simpl; apply NoDup_cons.
    + auto.
    + split; [| auto]. intros Hin.
      apply (dict_keys_set d k v k0) in Hin as [->|Hin]; auto.
Qed.

Lemma dict_keys_pop d k k' :
  NoDup (dict_keys d) ->
  k' ∈ dict_keys (dict_pop d k) <-> k' ≠ k /\ k' ∈ dict_keys d.
Proof.
  unfold dict_keys. induction d as [|[k0 v0] d IH]; simpl; intros Hnd.
  - split; [intros H; inversion H | intros [_ H]; inversion H].
  - apply NoDup_cons in Hnd as [Hnotin Hnd].
    destruct (decide (k0 = k)) as [->|Hne]; simpl; rewrite ?elem_of_cons.
    + split.
      * intros Hin. split; [intros ->; contradiction | auto].
      * intros [Hk [->|Hin]]; [contradiction | exact Hin].
    + rewrite (IH Hnd). split.
      * intros [->|[? ?]]; auto.
      * intros [Hk [->|Hin]]; auto.
Qed.

Lemma dict_get_pop_ne d k k' :
  k ≠ k' -> dict_get (dict_pop d k) k' = dict_get d k'.
Proof.
  intros Hne. induction d as [|[k0 v0] d IH]; simpl; [reflexivity|].
  destruct (decide (k0 = k)) as [->|Hne0]; simpl.
  - now rewrite decide_False.
  - destruct (decide (k0 = k')); [reflexivity | exact IH].
Qed.

Lemma dict_keys_pop_NoDup d k :
  NoDup (dict_keys d) -> NoDup (dict_keys (dict_pop d k)).
Proof.
  unfold dict_keys. induction d as [|[k0 v0] d IH]; simpl; intros Hnd.
  - constructor.
  - apply NoDup_cons in Hnd as [Hnotin Hnd].
    destruct (decide (k0 = k)) as [->|Hne]; simpl; [exact Hnd|].
    apply NoDup_cons. split; [| auto]. intros Hin.
    apply (dict_keys_pop d k k0 Hnd) in Hin as [_ Hin]. contradiction.
Qed.

Lemma dict_get_elem_of d k v :
  dict_get d k = Some v -> (k, v) ∈ d.
Proof.
  induction d as [|[k0 v0] d IH]; simpl; [discriminate|].
  destruct (decide (k0 = k)) as [->|Hne].
  - intros [= ->]. apply elem_of_cons; auto.
  - intros H. apply elem_of_cons; auto.
Qed.

Lemma dict_elem_of_get d k v :
  NoDup (dict_keys d) -> (k, v) ∈ d -> dict_get d k = Some v.
Proof.
  unfold dict_keys. induction d as [|[k0 v0] d IH]; simpl; intros Hnd Hin.
  - inversion Hin.
  - apply NoDup_cons in Hnd as [Hnotin Hnd].
    apply elem_of_cons in Hin as [[= -> ->]|Hin].
    + now rewrite decide_True.
    + destruct (decide (k0 = k)) as [->|Hne]; [| auto].
      exfalso. apply Hnotin. apply list_elem_of_fmap. now exists (k, v).
Qed.
End dict_facts.

(** ** The runtime client: listing containers *)

Lemma truthy_opt_str_true o :
  truthy_opt_str o = true <-> exists s, o = Some s /\ s ≠ [].
Proof.
  destruct o as [[|a s]|]; simpl; split; try discriminate.
  - intros (s & [= <-] & Hs). contradiction.
  - intros _. exists (a :: s). split; [reflexivity | discriminate].
  - reflexivity.
  - intros (s & H & _). discriminate.
Qed.

(** The effective identifier is falsy exactly when both identifier keys are
    missing or empty. *)
Lemma effective_id_falsy c :
  truthy_opt_str (effective_id c) = false <->
  truthy_opt_str (Id c) = false /\ truthy_opt_str (ID c) = false.
Proof.
  unfold effective_id, py_or.
  destruct (truthy_opt_str (Id c)) eqn:E; [rewrite E|]; split; intros H;
    try tauto; try discriminate; destruct H; discriminate.
Qed.

Lemma add_container_falsy out c :
  truthy_opt_str (effective_id c) = false -> add_container out c = out.
Proof. unfold add_container, effective_id. now intros ->. Qed.

Lemma add_container_truthy out c cid :
  effective_id c = Some cid -> cid ≠ [] ->
  add_container out c = dict_set out cid (recorded_name c cid).
Proof.
  unfold add_container, effective_id, recorded_name. intros -> Hne.
  destruct cid as [|a cid]; [contradiction|]. simpl.
  now destruct (Names c) as [[|n names]|].
Qed.

Lemma containers_fold_skip cs1 c cs2 out :
  truthy_opt_str (effective_id c) = false ->
  fold_left add_container (cs1 ++ c :: cs2) out
  = fold_left add_container (cs1 ++ cs2) out.
Proof.
  intros Hc. rewrite !fold_left_app. simpl. now rewrite add_container_falsy.
Qed.

Lemma containers_fold_get_other cs out k :
  (forall c, c ∈ cs -> effective_id c ≠ Some k) ->
  dict_get (fold_left add_container cs out) k = dict_get out k.
Proof.
  revert out. induction cs as [|c cs IH]; intros out Hcs; simpl; [reflexivity|].
  rewrite IH by (intros c' Hc'; apply Hcs; now apply elem_of_cons; right).
  destruct (truthy_opt_str (effective_id c)) eqn:E.
  - apply truthy_opt_str_true in E as (cid & Hid & Hne).
    rewrite (add_container_truthy out c cid Hid Hne).
    apply dict_get_set_ne. intros ->.
    apply (Hcs c); [apply elem_of_cons; now left | exact Hid].
  - now rewrite add_container_falsy.
Qed.

Lemma containers_fold_keys cs out k :
  k ∈ dict_keys (fold_left add_container cs out) <->
  k ∈ dict_keys out \/ exists c, c ∈ cs /\ effective_id c = Some k /\ k ≠ [].
Proof.
  revert out. induction cs as [|c cs IH]; intros out; simpl.
  - split; [auto | intros [H|(c & Hc & _)]; [exact H | inversion Hc]].
  - rewrite IH. destruct (truthy_opt_str (effective_id c)) eqn:E.
    + apply truthy_opt_str_true in E as (cid & Hid & Hne).
      rewrite (add_container_truthy out c cid Hid Hne), dict_keys_set.
      split.
      * intros [[->|H]|(c' & Hc' & H)]; [right | now left | right].
        -- exists c. split; [apply elem_of_cons; now left | auto].
        -- exists c'. split; [apply elem_of_cons; now right | auto].
      * intros [H|(c' & Hc' & Hid' & Hne')]; [now left; right|].
        apply elem_of_cons in Hc' as [->|Hc'].
        -- left; left. congruence.
        -- right. now exists c'.
    + rewrite add_container_falsy by exact E. split.
      * intros [H|(c' & Hc' & H)]; [now left | right].
        exists c'. split; [apply elem_of_cons; now right | auto].
      * intros [H|(c' & Hc' & Hid' & Hne')]; [now left|].
        apply elem_of_cons in Hc' as [->|Hc'].
        -- rewrite Hid' in E. destruct k; [contradiction | discriminate].
        -- right. now exists c'.
Qed.

Lemma containers_fold_NoDup cs out :
  NoDup (dict_keys out) -> NoDup (dict_keys (fold_left add_container cs out)).
Proof.
  revert out. induction cs as [|c cs IH]; intros out Hnd; simpl; [exact Hnd|].
  apply IH. destruct (truthy_opt_str (effective_id c)) eqn:E.
  - apply truthy_opt_str_true in E as (cid & Hid & Hne).
    rewrite (add_container_truthy out c cid Hid Hne).
    now apply dict_keys_set_NoDup.
  - now rewrite add_container_falsy.
Qed.

Section runtime_client.
Context (env : environment).

Lemma list_containers_ok w status cs :
  containers_json env (tick w) = ListResponse status (Some cs) ->
  (400 <=? status) && (status <? 600) = false ->
  list_containers env w = (Ok (fold_left add_container cs []), next_tick w).
Proof.
  intros Hr Hs. unfold list_containers, bind, try_except, ask; simpl.
  rewrite Hr. unfold raise_for_status. now rewrite Hs.
Qed.

Lemma list_containers_failed w :
  list_failed (containers_json env (tick w)) = true ->
  list_containers env w =
    (Ok [],
     add_event (EvLog ERROR "Error listing containers via Podman API: %s")
               (next_tick w)).
Proof.
  intros Hf. unfold list_containers, bind, try_except, ask; simpl.
  destruct (containers_json env (tick w)) as [|status body]; simpl in *.
  - reflexivity.
  - unfold raise_for_status.
    destruct ((400 <=? status) && (status <? 600)); simpl in *.
    + reflexivity.
    + destruct body; [discriminate | reflexivity].
Qed.

(** Listing never raises to its caller. *)
Lemma list_containers_returns w :
  exists out, fst (list_containers env w) = Ok out.
Proof.
  destruct (list_failed (containers_json env (tick w))) eqn:Hf.
  - rewrite list_containers_failed by exact Hf. now exists [].
  - destruct (containers_json env (tick w)) as [|status body] eqn:Hr;
      [discriminate|].
    simpl in Hf. apply orb_false_iff in Hf as [Hs Hb].
    destruct body as [cs|]; [| discriminate].
    rewrite (list_containers_ok w status cs Hr Hs). eauto.
Qed.
End runtime_client.

(** C2 (amended). For every container object of a successful list response
    that has a non-empty identifier and a non-empty names array, and whose
    identifier no later object of the response repeats, the name recorded
    under that identifier is the first element of the names array exactly
    as the runtime sent it: a leading ['/'] is kept, not stripped. *)
Theorem container_name_is_first_name_verbatim
    (env : environment) (w : world) (status : Z)
    (cs1 cs2 : list container_obj) (c : container_obj)
    (cid n : str) (rest : list str) :
  containers_json env (tick w) = ListResponse status (Some (cs1 ++ c :: cs2)) ->
  (400 <=? status) && (status <? 600) = false ->
  effective_id c = Some cid ->
  cid ≠ [] ->
  Names c = Some (n :: rest) ->
  (forall c', c' ∈ cs2 -> effective_id c' ≠ Some cid) ->
  exists out,
    fst (list_containers env w) = Ok out /\ dict_get out cid = Some n.
Proof.
  intros Hr Hs Hid Hne Hnames Hlater.
  rewrite (list_containers_ok env w status _ Hr Hs). eexists; split; [reflexivity|].
  rewrite fold_left_app. simpl.
  rewrite containers_fold_get_other by exact Hlater.
  rewrite (add_container_truthy _ c cid Hid Hne), dict_get_set_eq.
  unfold recorded_name. now rewrite Hnames.
Qed.

Lemma container_name_is_first_name_verbatim_witness :
  exists out,
    fst (list_containers (listing_env (ListResponse 200 (Some [web_container])))
                         initial_world) = Ok out
    /\ dict_get out (lit "abc123") = Some (lit "/web").
Proof.
  apply (container_name_is_first_name_verbatim
           (listing_env (ListResponse 200 (Some [web_container])))
           initial_world 200 [] [] web_container (lit "abc123") (lit "/web") []).
  - reflexivity.
  - reflexivity.
  - reflexivity.
  - discriminate.
  - reflexivity.
  - intros c' Hc'. inversion Hc'.
Defined.

(** C2, as stated, fails: for the container [{Id: "abc123", Names: ["/web"]}]
    the recorded name is "/web", whereas the first name with its leading
    separator stripped is "web". *)
Lemma container_name_stripped_counterexample :
  let out := fst (list_containers
                    (listing_env (ListResponse 200 (Some [web_container])))
                    initial_world) in
  Names web_container = Some [lit "/web"]
  /\ out = Ok [(lit "abc123", lit "/web")]
  /\ out ≠ Ok [(lit "abc123", strip_leading_separator (lit "/web"))].
Proof. repeat split. discriminate. Qed.

(** ** The debug sink *)

Section debug_sink.
Context (g : globals) (env : environment).

(** [send_log] in local mode: the record is copied to a fresh object, the
    copy's message is cut, and the copy is printed. *)
Lemma send_log_debug doc w :
  AGENT_MODE g = lit "local" ->
  send_log g env doc w =
    let d := default [] (heap w !! doc) in
    (if print_raises env (tick w) then Raise (Exception "OSError") else Ok tt,
     {| heap := heap w ++ [debug_line d]; pool := pool w;
        trace := trace w ++ EvSendLog d ::
                   (if print_raises env (tick w) then []
                    else [EvPrint (debug_line d)]);
        tick := S (tick w) |}).
Proof.
  intros Hmode. unfold send_log, bind, load, emit; simpl.
  rewrite decide_True by exact Hmode.
  unfold alloc, debug_line, dict_get_default; simpl.
  set (d := default [] (heap w !! doc)).
  set (msg := default [] (dict_get d (lit "message"))).
  assert (Hlook : (heap w ++ [d]) !! length (heap w) = Some d)
    by now apply list_lookup_middle.
  destruct (300 <? length msg)%nat; simpl.
  - unfold store_item, print_json, bind, ask, load; simpl.
    rewrite Hlook; simpl.
    rewrite insert_app_r_alt, Nat.sub_diag by reflexivity; simpl.
    rewrite list_lookup_middle by reflexivity; simpl.
    destruct (print_raises env (tick w)); simpl;
      unfold raise, emit, add_event; simpl; rewrite <- ?app_assoc; reflexivity.
  - unfold ret, print_json, bind, ask, load; simpl.
    rewrite Hlook; simpl.
    destruct (print_raises env (tick w)); simpl;
      unfold raise, emit, add_event; simpl; rewrite <- ?app_assoc; reflexivity.
Qed.
End debug_sink.

Lemma debug_line_other_fields d k :
  k ≠ lit "message" -> dict_get (debug_line d) k = dict_get d k.
Proof.
  intros Hk. unfold debug_line.
  destruct (300 <? _)%nat; [| reflexivity].
  apply dict_get_set_ne. congruence.
Qed.

Lemma debug_line_long d msg :
  dict_get d (lit "message") = Some msg ->
  (300 < length msg)%nat ->
  dict_get (debug_line d) (lit "message")
  = Some (take 300 msg ++ TRUNCATION_MARKER).
Proof.
  intros Hmsg Hlen. unfold debug_line, dict_get_default. rewrite Hmsg; simpl.
  apply Nat.ltb_lt in Hlen. rewrite Hlen. apply dict_get_set_eq.
Qed.

Lemma debug_line_short d msg :
  dict_get d (lit "message") = Some msg ->
  (length msg <= 300)%nat ->
  debug_line d = d.
Proof.
  intros Hmsg Hlen. unfold debug_line, dict_get_default. rewrite Hmsg; simpl.
  apply Nat.ltb_ge in Hlen. now rewrite Hlen.
Qed.

(** C4. For every record the debug sink accepts and prints: a message longer
    than 300 characters is printed as its first 300 characters followed by
    the truncation marker; a message of at most 300 characters is printed
    unchanged (the whole record is); a message of 310 letters a is printed
    as 300 letters a followed by the marker. *)
Theorem debug_sink_truncates_long_messages
    (g : globals) (env : environment) (doc : nat) (w : world)
    (d : dict str) (msg : str) :
  AGENT_MODE g = lit "local" ->
  heap w !! doc = Some d ->
  dict_get d (lit "message") = Some msg ->
  print_raises env (tick w) = false ->
  exists line,
    send_log g env doc w
      = (Ok tt, {| heap := heap w ++ [line]; pool := pool w;
                   trace := trace w ++ [EvSendLog d; EvPrint line];
                   tick := S (tick w) |})
    /\ ((300 < length msg)%nat ->
        dict_get line (lit "message") = Some (take 300 msg ++ TRUNCATION_MARKER))
    /\ ((length msg <= 300)%nat ->
        line = d /\ dict_get line (lit "message") = Some msg)
    /\ (msg = replicate 310 97%N ->
        dict_get line (lit "message")
        = Some (replicate 300 97%N ++ lit "...[truncated]")).
Proof.
  intros Hmode Hdoc Hmsg Hprint. exists (debug_line d).
  split; [| split; [| split]].
  - rewrite (send_log_debug g env doc w Hmode). cbv zeta.
    now rewrite Hdoc, Hprint.
  - now apply debug_line_long.
  - intros Hlen. rewrite (debug_line_short d msg Hmsg Hlen). auto.
  - intros ->. rewrite (debug_line_long d _ Hmsg).
    + reflexivity.
    + rewrite length_replicate. lia.
Qed.

Lemma debug_sink_truncates_long_messages_witness :
  exists line,
    trace (snd (send_log debug_globals (quiet_env 3600) 0 (world_with (doc_of_as 310))))
      = [EvSendLog (doc_of_as 310); EvPrint line]
    /\ dict_get line (lit "message")
       = Some (replicate 300 97%N ++ lit "...[truncated]").
Proof.
  destruct (debug_sink_truncates_long_messages
              debug_globals (quiet_env 3600) 0 (world_with (doc_of_as 310))
              (doc_of_as 310) (replicate 310 97%N))
    as (line & Hrun & _ & _ & Hex).
  - reflexivity.
  - reflexivity.
  - reflexivity.
  - reflexivity.
  - exists line. split.
    + now rewrite Hrun.
    + now apply Hex.
Defined.

(** C10. In local mode [send_log] leaves the caller's record, and every
    other object of the store, as it was: the truncation is applied to a
    fresh copy.  Every field of the printed copy other than the message
    equals the same field of the caller's record. *)
Theorem debug_sink_leaves_record_unmodified
    (g : globals) (env : environment) (doc : nat) (w : world) (d : dict str) :
  AGENT_MODE g = lit "local" ->
  heap w !! doc = Some d ->
  let w' := snd (send_log g env doc w) in
  exists copy,
    heap w' = heap w ++ [copy]
    /\ heap w' !! doc = Some d
    /\ (forall l, (l < length (heap w))%nat -> heap w' !! l = heap w !! l)
    /\ (print_raises env (tick w) = false ->
        trace w' = trace w ++ [EvSendLog d; EvPrint copy])
    /\ (forall k, k ≠ lit "message" -> dict_get copy k = dict_get d k).
Proof.
  intros Hmode Hdoc w'. exists (debug_line d).
  assert (Hw : heap w' = heap w ++ [debug_line d]).
  { unfold w'. rewrite (send_log_debug g env doc w Hmode). cbv zeta.
    now rewrite Hdoc. }
  split; [exact Hw | split; [| split; [| split]]].
  - rewrite Hw. rewrite lookup_app_l; [exact Hdoc|].
    now apply lookup_lt_Some in Hdoc.
  - intros l Hl. rewrite Hw. now apply lookup_app_l.
  - intros Hprint. unfold w'. rewrite (send_log_debug g env doc w Hmode).
    cbv zeta. now rewrite Hdoc, Hprint.
  - intros k Hk. now apply debug_line_other_fields.
Qed.

Lemma debug_sink_leaves_record_unmodified_witness :
  let w' := snd (send_log debug_globals (quiet_env 3600) 0
                          (world_with (doc_of_as 310))) in
  exists copy,
    heap w' = [doc_of_as 310; copy]
    /\ dict_get copy (lit "container_id") = Some (lit "abc123").
Proof.
  destruct (debug_sink_leaves_record_unmodified
              debug_globals (quiet_env 3600) 0 (world_with (doc_of_as 310))
              (doc_of_as 310))
    as (copy & Hheap & _ & _ & _ & Hfields).
  - reflexivity.
  - reflexivity.
  - exists copy. split.
    + exact Hheap.
    + rewrite Hfields; [reflexivity | discriminate].
Defined.

(** ** Decoding *)


Lemma utf8_decode_replace_ascii bs :
  Forall (fun b => (b < 128)%N) bs -> utf8_decode_replace bs = bs.
Proof.
  induction 1 as [|b bs Hb _ IH]; [reflexivity|]. simpl.
  apply N.ltb_lt in Hb. now rewrite Hb, IH.
Qed.

Example decode_invalid_line :
  utf8_decode_replace (map Byte.to_N invalid_line)
  = [97%N; REPLACEMENT_CHARACTER; 98%N].
Proof. reflexivity. Qed.

(** The euro sign, and the same sequence cut short before a letter. *)
Example decode_three_byte_sequence :
  utf8_decode_replace [226; 130; 172]%N = [8364%N]
  /\ utf8_decode_replace [226; 130; 65]%N = [REPLACEMENT_CHARACTER; 65%N].
Proof. split; reflexivity. Qed.

(** ** The stream worker *)

Lemma sent_records_app t1 t2 :
  sent_records (t1 ++ t2) = sent_records t1 ++ sent_records t2.
Proof. apply omap_app. Qed.

Section worker.
Context (g : globals) (env : environment).

(** Every call of [send_log] hands over exactly the record at [doc]. *)
Lemma send_log_sent doc w :
  sent_records (trace (snd (send_log g env doc w)))
  = sent_records (trace w) ++ [default [] (heap w !! doc)].
Proof.
  destruct (decide (AGENT_MODE g = lit "local")) as [Hmode|Hmode].
  - rewrite (send_log_debug g env doc w Hmode). cbv zeta. cbn [snd trace].
    rewrite sent_records_app. f_equal.
    now destruct (print_raises env (tick w)).
  - destruct (opensearch_client g) as [c|] eqn:Hc.
    + rewrite (send_log_indexing g env doc w c Hmode Hc). cbv zeta.
      cbn [snd trace]. rewrite sent_records_app. f_equal.
      now destruct (index_raises env (S (tick w))).
    + rewrite (send_log_no_client g env doc w Hmode Hc). cbn [snd trace].
      now rewrite sent_records_app.
Qed.

(** The indexing sink never raises into its caller. *)
Lemma send_log_indexing_returns doc w :
  AGENT_MODE g ≠ lit "local" -> fst (send_log g env doc w) = Ok tt.
Proof.
  intros Hmode. destruct (opensearch_client g) as [c|] eqn:Hc.
  - now rewrite (send_log_indexing g env doc w c Hmode Hc).
  - now rewrite (send_log_no_client g env doc w Hmode Hc).
Qed.

Lemma send_log_returns doc w :
  sink_never_raises g env -> fst (send_log g env doc w) = Ok tt.
Proof.
  intros [Hmode|Hprint]; [now apply send_log_indexing_returns|].
  destruct (decide (AGENT_MODE g = lit "local")) as [Hmode|Hmode].
  - rewrite (send_log_debug g env doc w Hmode). cbv zeta.
    now rewrite Hprint.
  - now apply send_log_indexing_returns.
Qed.

Context (container_id name : str).

Lemma forward_line_empty w :
  forward_line g env container_id name [] w = (Ok tt, w).
Proof. reflexivity. Qed.

Lemma forward_line_nonempty raw w :
  raw ≠ [] ->
  forward_line g env container_id name raw w =
    send_log g env (length (heap w))
      (set_heap
         (heap w ++
            [log_record (strftime FMT_TIMESTAMP (localtime (clock env (tick w))))
                        (utf8_decode_replace (map Byte.to_N raw))
                        container_id name (NODE_NAME g)])
         (next_tick w)).
Proof. destruct raw; [contradiction | reflexivity]. Qed.

Lemma forward_line_sent raw w :
  raw ≠ [] ->
  sent_records (trace (snd (forward_line g env container_id name raw w)))
  = sent_records (trace w) ++
      [log_record (strftime FMT_TIMESTAMP (localtime (clock env (tick w))))
                  (utf8_decode_replace (map Byte.to_N raw))
                  container_id name (NODE_NAME g)].
Proof.
  intros Hraw. rewrite (forward_line_nonempty raw w Hraw), send_log_sent.
  cbn [heap set_heap trace next_tick].
  now rewrite list_lookup_middle.
Qed.

Lemma forward_line_returns raw w :
  sink_never_raises g env ->
  fst (forward_line g env container_id name raw w) = Ok tt.
Proof.
  intros Hsafe. destruct raw as [|b raw]; [reflexivity|].
  rewrite forward_line_nonempty by discriminate.
  now apply send_log_returns.
Qed.

(** The loop over the lines: one record per non-empty line, in order. *)
Lemma iter_lines_sent lines ending w :
  sink_never_raises g env ->
  exists new,
    sent_records
      (trace (snd (iter_lines (forward_line g env container_id name)
                              lines ending w)))
    = sent_records (trace w) ++ new
    /\ Forall2
         (fun d raw =>
            exists stamp,
              d = log_record stamp (utf8_decode_replace (map Byte.to_N raw))
                             container_id name (NODE_NAME g))
         new (List.filter nonempty_line lines).
Proof.
  intros Hsafe. revert w.
  induction lines as [|raw lines IH]; intros w; simpl.
  - exists []. split; [| constructor].
    rewrite app_nil_r. now destruct ending.
  - unfold bind.
    pose proof (forward_line_returns raw w Hsafe) as Hret.
    destruct (forward_line g env container_id name raw w) as [r w1] eqn:Hfw.
    simpl in Hret. subst r.
    destruct (IH w1) as (new & Hsent & Hall).
    assert (Hw1 : w1 = snd (forward_line g env container_id name raw w))
      by now rewrite Hfw.
    destruct raw as [|b raw].
    + simpl. exists new. split; [| exact Hall].
      rewrite Hsent. rewrite Hw1, forward_line_empty. reflexivity.
    + simpl. eexists (_ :: new). split.
      * rewrite Hsent, Hw1, forward_line_sent by discriminate.
        rewrite <- app_assoc. reflexivity.
      * constructor; [eauto | exact Hall].
Qed.

(** The worker's target returns normally whatever the stream does. *)
Lemma stream_logs_returns w :
  fst (stream_logs g env container_id name w) = Ok tt.
Proof.
  unfold stream_logs. unfold bind at 1. cbn [log emit].
  unfold bind at 1.
  match goal with
  | |- context [try_except ?m ?h ?w0] =>
      destruct (try_except m h w0) as [[[]|e] w1] eqn:E;
      [reflexivity | exfalso; unfold try_except in E; destruct (m w0) as [[[]|e'] w2]]
  end; discriminate.
Qed.
End worker.

Section worker_stream.
Context (g : globals) (env : environment) (container_id name : str).

Lemma stream_logs_sent w status lines ending :
  container_logs env container_id (tick w) = LogsResponse status lines ending ->
  (400 <=? status) && (status <? 600) = false ->
  sink_never_raises g env ->
  exists new,
    sent_records (trace (snd (stream_logs g env container_id name w)))
    = sent_records (trace w) ++ new
    /\ Forall2
         (fun d raw =>
            exists stamp,
              d = log_record stamp (utf8_decode_replace (map Byte.to_N raw))
                             container_id name (NODE_NAME g))
         new (List.filter nonempty_line lines).
Proof.
  intros Hr Hs Hsafe.
  unfold stream_logs, bind, try_except, ask, log, emit; simpl.
  rewrite Hr. unfold raise_for_status. rewrite Hs; simpl.
  set (w1 := next_tick (add_event _ w)).
  destruct (iter_lines_sent g env container_id name lines ending w1 Hsafe)
    as (new & Hsent & Hall).
  exists new. split; [| exact Hall].
  destruct (iter_lines _ lines ending w1) as [[[]|e] w2]; simpl in *;
    rewrite ?sent_records_app, Hsent; unfold w1; simpl;
    rewrite sent_records_app; simpl; now rewrite ?app_nil_r.
Qed.
End worker_stream.



(** An ill-formed line is forwarded with the replacement character. *)
Example invalid_line_is_forwarded :
  let env := streaming_env (LogsResponse 200 [invalid_line] EOF) false false in
  sent_records
    (trace (snd (stream_logs indexing_globals env (lit "abc123") (lit "/web")
                             initial_world)))
  = [log_record (lit "2024-03-08T00:30:00+0100")
                [97%N; REPLACEMENT_CHARACTER; 98%N]
                (lit "abc123") (lit "/web") (lit "podman-node")].
Proof. reflexivity. Qed.

(** ** Sink failures *)

(** With the indexing sink a failed write is logged and the worker goes on:
    every non-empty line of the stream is still handed over. *)
Lemma indexing_sink_failure_keeps_worker_reading
    (g : globals) (env : environment) (container_id name : str) (w : world)
    (status : Z) (lines : list bytes) (ending : stream_end) :
  AGENT_MODE g ≠ lit "local" ->
  container_logs env container_id (tick w) = LogsResponse status lines ending ->
  (400 <=? status) && (status <? 600) = false ->
  exists new,
    sent_records (trace (snd (stream_logs g env container_id name w)))
    = sent_records (trace w) ++ new
    /\ length new = length (List.filter nonempty_line lines).
Proof.
  intros Hmode Hr Hs.
  destruct (stream_logs_sent g env container_id name w status lines ending
              Hr Hs (or_introl Hmode)) as (new & Hsent & Hall).
  exists new. split; [exact Hsent|]. now apply Forall2_length in Hall.
Qed.

Example indexing_sink_backend_down :
  let env := streaming_env (LogsResponse 200 [invalid_line; line_b] EOF)
                           true false in
  let w' := snd (stream_logs indexing_globals env (lit "abc123") (lit "/web")
                             initial_world) in
  map (fun e => match e with EvSendLog _ => None | _ => Some e end) (trace w')
  = [Some (EvLog INFO "Starting log stream for %s (%s)");
     None; Some (EvLog ERROR "Failed to index log line: %s");
     None; Some (EvLog ERROR "Failed to index log line: %s");
     Some (EvLog INFO "Log stream ended for %s (%s)")].
Proof. reflexivity. Qed.

(** C8 fails for the debug sink.  In local mode [send_log] has no handler
    around its write: when [print] raises on the first of two lines, the
    exception leaves [send_log], is caught by the handler around the whole
    stream, and the worker ends without reading the second line. *)
Theorem debug_sink_write_error_ends_worker :
  let env := streaming_env (LogsResponse 200 [invalid_line; line_b] EOF)
                           false true in
  let first := log_record (lit "2024-03-08T00:30:00+0100")
                          [97%N; REPLACEMENT_CHARACTER; 98%N]
                          (lit "abc123") (lit "/web") (lit "podman-node") in
  fst (send_log debug_globals env 0 (world_with first))
    = Raise (Exception "OSError")
  /\ trace (snd (stream_logs debug_globals env (lit "abc123") (lit "/web")
                             initial_world))
     = [EvLog INFO "Starting log stream for %s (%s)";
        EvSendLog first;
        EvLog ERROR "Error streaming logs for %s (%s): %s";
        EvLog INFO "Log stream ended for %s (%s)"].
Proof. split; reflexivity. Qed.

(** ** What touches the thread pool *)

Create HintDb frame.

Lemma pp_ret {A} (a : A) : pool_preserving (ret a).
Proof. now intros w. Qed.

Lemma pp_raise {A} e : pool_preserving (@raise A e).
Proof. now intros w. Qed.

Lemma pp_bind {A B} (m : M A) (k : A -> M B) :
  pool_preserving m -> (forall a, pool_preserving (k a)) ->
  pool_preserving (bind m k).
Proof.
  intros Hm Hk w. unfold bind. specialize (Hm w).
  destruct (m w) as [[a|e] w1]; simpl in *; [| exact Hm].
  now rewrite Hk.
Qed.

Lemma pp_try_except {A} (m : M A) (h : exn -> M A) :
  pool_preserving m -> (forall e, pool_preserving (h e)) ->
  pool_preserving (try_except m h).
Proof.
  intros Hm Hh w. unfold try_except. specialize (Hm w).
  destruct (m w) as [[a|e] w1]; simpl in *; [exact Hm|].
  now rewrite Hh.
Qed.

Lemma pp_emit e : pool_preserving (emit e).
Proof. now intros w. Qed.

Lemma pp_log lvl fmt : pool_preserving (log lvl fmt).
Proof. now intros w. Qed.

Lemma pp_ask {A} (oracle : nat -> A) : pool_preserving (ask oracle).
Proof. now intros w. Qed.

Lemma pp_alloc d : pool_preserving (alloc d).
Proof. now intros w. Qed.

Lemma pp_load l : pool_preserving (load l).
Proof. now intros w. Qed.

Lemma pp_store_item l k v : pool_preserving (store_item l k v).
Proof. now intros w. Qed.

Lemma pp_is_alive t : pool_preserving (is_alive t).
Proof. now intros w. Qed.

#[local] Hint Resolve pp_ret pp_raise pp_emit pp_log pp_ask pp_alloc pp_load
  pp_store_item pp_is_alive : frame.

Ltac frame :=
  repeat first
    [ match goal with |- forall _, _ => intro end
    | apply pp_bind
    | apply pp_try_except
    | solve [auto with frame]
    | match goal with
      | |- pool_preserving (if ?b then _ else _) => destruct b
      | |- pool_preserving (match ?x with _ => _ end) => destruct x
      end ].

Section frames.
Context (g : globals) (env : environment).

Lemma pp_raise_for_status status : pool_preserving (raise_for_status status).
Proof. unfold raise_for_status. frame. Qed.

Lemma pp_list_containers : pool_preserving (list_containers env).
Proof. unfold list_containers. frame. apply pp_raise_for_status. Qed.

Lemma pp_send_log doc : pool_preserving (send_log g env doc).
Proof.
  unfold send_log, time_strftime, print_json, client_index. frame.
Qed.

Lemma pp_forward_line cid name raw :
  pool_preserving (forward_line g env cid name raw).
Proof.
  unfold forward_line, bytes_decode, time_strftime. frame.
Qed.

Lemma pp_iter_lines body lines ending :
  (forall raw, pool_preserving (body raw)) ->
  pool_preserving (iter_lines body lines ending).
Proof.
  intros Hbody. induction lines as [|raw lines IH]; simpl; frame.
Qed.

Lemma pp_stream_logs cid name : pool_preserving (stream_logs g env cid name).
Proof.
  unfold stream_logs. frame.
  - apply pp_raise_for_status.
  - apply pp_iter_lines. intros raw0. apply pp_forward_line.
Qed.
End frames.

(** ** The discovery loop, phase by phase *)

Lemma dict_get_pop {V} (d : dict V) k k' :
  NoDup (dict_keys d) ->
  dict_get (dict_pop d k) k' = if decide (k' = k) then None else dict_get d k'.
Proof.
  intros Hnd. destruct (decide (k' = k)) as [->|Hne].
  - apply dict_get_None. rewrite dict_keys_pop by exact Hnd. tauto.
  - apply dict_get_pop_ne. congruence.
Qed.

Lemma start_collector_present st cid name w :
  cid ∈ active_streams st -> start_collector st (cid, name) w = (Ok st, w).
Proof. intros Hin. unfold start_collector. now rewrite decide_True. Qed.

Lemma start_collector_absent st cid name w :
  cid ∉ active_streams st ->
  start_collector st (cid, name) w =
    (Ok {| active_streams := active_streams st ∪ {[cid]};
           threads := dict_set (threads st) cid (length (pool w)) |},
     {| heap := heap w;
        pool := pool w ++ [Thread (cid, name) (lit "log-" ++ name) true];
        trace := trace w ++
                   [EvLog INFO "Starting log collector for container %s (%s)"];
        tick := tick w |}).
Proof. intros Hin. unfold start_collector. now rewrite decide_False. Qed.

Lemma for_each_forget dead st w :
  for_each reap dead st w =
    (Ok (fold_left forget dead st),
     {| heap := heap w; pool := pool w;
        trace := trace w ++
                   map (fun _ => EvLog INFO "Cleaning up dead log stream for %s")
                       dead;
        tick := tick w |}).
Proof.
  revert st w. induction dead as [|cid dead IH]; intros st w; simpl.
  - rewrite app_nil_r. now destruct w.
  - unfold bind, reap at 1, log, emit, ret; simpl. rewrite IH; simpl.
    now rewrite <- app_assoc.
Qed.

Lemma clean_up_eq st w :
  clean_up st w =
    (Ok (fold_left forget (dead_streams (pool w) (threads st)) st),
     {| heap := heap w; pool := pool w;
        trace := trace w ++
                   map (fun _ => EvLog INFO "Cleaning up dead log stream for %s")
                       (dead_streams (pool w) (threads st));
        tick := tick w |}).
Proof.
  unfold clean_up, bind.
  assert (Hdead : forall ths,
    comprehension
      (fun it : str * nat => let* a := is_alive (snd it) in ret (negb a))
      fst ths w
    = (Ok (dead_streams (pool w) ths), w)).
  { induction ths as [|[cid t] ths IH]; [reflexivity|].
    simpl. unfold bind at 1 2. cbn [is_alive ret snd]. unfold bind at 1.
    rewrite IH. unfold ret, dead_streams, thread_alive; simpl.
    now destruct (pool w !! t) as [[args nm []]|]. }
  rewrite Hdead. apply for_each_forget.
Qed.

Lemma elem_of_dead_streams p ths cid :
  cid ∈ dead_streams p ths <->
  exists t, (cid, t) ∈ ths
            /\ match p !! t with Some th => alive th | None => false end = false.
Proof.
  unfold dead_streams. rewrite list_elem_of_fmap. split.
  - intros ([cid' t] & -> & Hin). exists t.
    apply list_elem_of_In, filter_In in Hin as [Hin Hdead].
    split; [now apply list_elem_of_In|]. simpl in Hdead.
    now apply negb_true_iff in Hdead.
  - intros (t & Hin & Hdead). exists (cid, t). split; [reflexivity|].
    apply list_elem_of_In, filter_In. split; [now apply list_elem_of_In|].
    simpl. now rewrite Hdead.
Qed.

Lemma forget_all_NoDup dead st :
  NoDup (dict_keys (threads st)) ->
  NoDup (dict_keys (threads (fold_left forget dead st))).
Proof.
  revert st. induction dead as [|c dead IH]; intros st Hnd; simpl; [exact Hnd|].
  apply IH. simpl. now apply dict_keys_pop_NoDup.
Qed.

Lemma forget_all_get dead st cid :
  NoDup (dict_keys (threads st)) ->
  dict_get (threads (fold_left forget dead st)) cid
  = if decide (cid ∈ dead) then None else dict_get (threads st) cid.
Proof.
  revert st. induction dead as [|c dead IH]; intros st Hnd; cbn [fold_left].
  - rewrite decide_False; [reflexivity | apply not_elem_of_nil].
  - rewrite IH by (simpl; now apply dict_keys_pop_NoDup). cbn [forget threads].
    rewrite dict_get_pop by exact Hnd.
    destruct (decide (cid ∈ dead)) as [Hin|Hnin].
    + rewrite decide_True; [reflexivity | now apply elem_of_cons; right].
    + destruct (decide (cid = c)) as [->|Hne].
      * rewrite decide_True; [reflexivity | now apply elem_of_cons; left].
      * rewrite decide_False; [reflexivity|].
        intros [?|?]%elem_of_cons; contradiction.
Qed.

Lemma forget_all_active dead st cid :
  cid ∈ active_streams (fold_left forget dead st) <->
  cid ∈ active_streams st /\ cid ∉ dead.
Proof.
  revert st. induction dead as [|c dead IH]; intros st; simpl.
  - split; [intros H; split; [exact H | apply not_elem_of_nil] | tauto].
  - rewrite IH. simpl. rewrite elem_of_difference, elem_of_singleton, not_elem_of_cons.
    tauto.
Qed.

(** ** The bookkeeping invariant *)

Lemma inv_initial : supervisor_inv initial_locals [].
Proof.
  split; simpl.
  - intros cid. split; [intros H; now apply not_elem_of_empty in H|].
    intros [? H]; discriminate.
  - constructor.
  - discriminate.
  - intros t th H. now rewrite lookup_nil in H.
Qed.

Lemma inv_mark_ended st p t th :
  supervisor_inv st p -> p !! t = Some th ->
  supervisor_inv st (<[t := Thread (target_args th) (thread_name th) false]> p).
Proof.
  intros [I1 I2 I3 I4] Ht. split; [exact I1 | exact I2 | |].
  - intros cid t0 Hget. destruct (I3 cid t0 Hget) as (th0 & Hth0 & Hcid).
    destruct (decide (t0 = t)) as [->|Hne].
    + eexists. split.
      * apply list_lookup_insert_eq. now apply lookup_lt_Some in Ht.
      * simpl. congruence.
    + exists th0. split; [| exact Hcid]. now rewrite list_lookup_insert_ne.
  - intros t0 th0 Hth0 Halive. destruct (decide (t0 = t)) as [->|Hne].
    + rewrite list_lookup_insert_eq in Hth0 by now apply lookup_lt_Some in Ht.
      injection Hth0 as <-. discriminate.
    + rewrite list_lookup_insert_ne in Hth0 by congruence. now apply I4.
Qed.

Lemma inv_start_absent st p cid name :
  supervisor_inv st p -> cid ∉ active_streams st ->
  supervisor_inv
    {| active_streams := active_streams st ∪ {[cid]};
       threads := dict_set (threads st) cid (length p) |}
    (p ++ [Thread (cid, name) (lit "log-" ++ name) true]).
Proof.
  intros [I1 I2 I3 I4] Hnew. split; simpl.
  - intros c. rewrite elem_of_union, elem_of_singleton, I1.
    destruct (decide (cid = c)) as [->|Hne].
    + rewrite dict_get_set_eq. split; eauto.
    + rewrite dict_get_set_ne by exact Hne. split; [intros [H| ->]|]; tauto.
  - now apply dict_keys_set_NoDup.
  - intros c t Hget. destruct (decide (cid = c)) as [->|Hne].
    + rewrite dict_get_set_eq in Hget. injection Hget as <-.
      eexists. split; [now apply list_lookup_middle | reflexivity].
    + rewrite dict_get_set_ne in Hget by exact Hne.
      destruct (I3 c t Hget) as (th & Hth & Hc). exists th. split; [| exact Hc].
      rewrite lookup_app_l; [exact Hth | now apply lookup_lt_Some in Hth].
  - intros t th Hth Halive.
    destruct (decide (t < length p)%nat) as [Hlt|Hge].
    + rewrite lookup_app_l in Hth by exact Hlt.
      pose proof (I4 t th Hth Halive) as Hget.
      rewrite dict_get_set_ne; [exact Hget|].
      intros Heq. apply Hnew, I1. rewrite Heq. eauto.
    + apply lookup_lt_Some in Hth as Hlen. rewrite length_app in Hlen.
      simpl in Hlen. assert (t = length p) as -> by lia.
      rewrite list_lookup_middle in Hth by reflexivity. injection Hth as <-.
      simpl. apply dict_get_set_eq.
Qed.

Lemma inv_start st w item st' w' :
  supervisor_inv st (pool w) ->
  start_collector st item w = (Ok st', w') ->
  supervisor_inv st' (pool w').
Proof.
  intros Hinv. destruct item as [cid name].
  destruct (decide (cid ∈ active_streams st)) as [Hin|Hnin].
  - rewrite start_collector_present by exact Hin. now intros [= <- <-].
  - rewrite start_collector_absent by exact Hnin. intros [= <- <-]. simpl.
    now apply inv_start_absent.
Qed.

Lemma inv_forget_dead st p :
  supervisor_inv st p ->
  supervisor_inv (fold_left forget (dead_streams p (threads st)) st) p.
Proof.
  intros [I1 I2 I3 I4]. set (dead := dead_streams p (threads st)). split.
  - intros c. rewrite forget_all_active, forget_all_get, I1 by exact I2.
    destruct (decide (c ∈ dead)) as [Hin|Hnin].
    + split; [tauto | intros [? H]; discriminate].
    + tauto.
  - now apply forget_all_NoDup.
  - intros c t. rewrite forget_all_get by exact I2.
    destruct (decide (c ∈ dead)); [discriminate | apply I3].
  - intros t th Hth Halive. rewrite forget_all_get by exact I2.
    rewrite decide_False; [now apply I4|].
    intros (t' & Hin & Hdead)%elem_of_dead_streams.
    apply (dict_elem_of_get _ _ _ I2) in Hin.
    rewrite (I4 t th Hth Halive) in Hin. injection Hin as <-.
    rewrite Hth in Hdead. congruence.
Qed.

Lemma inv_clean_up st w st' w' :
  supervisor_inv st (pool w) ->
  clean_up st w = (Ok st', w') ->
  supervisor_inv st' (pool w').
Proof.
  intros Hinv. rewrite clean_up_eq. intros [= <- <-]. simpl.
  now apply inv_forget_dead.
Qed.

Lemma pool_thread_exit t w :
  pool (thread_exit t w)
  = match pool w !! t with
    | Some th => <[t := Thread (target_args th) (thread_name th) false]> (pool w)
    | None => pool w
    end.
Proof. unfold thread_exit. now destruct (pool w !! t). Qed.

Lemma pool_thread_run g env t w :
  pool (thread_run g env t w)
  = match pool w !! t with
    | Some th => <[t := Thread (target_args th) (thread_name th) false]> (pool w)
    | None => pool w
    end.
Proof.
  unfold thread_run. destruct (pool w !! t) as [th|] eqn:Hth; [| reflexivity].
  destruct (target_args th) as [cid name] eqn:Hargs.
  rewrite pool_thread_exit, (pp_stream_logs g env cid name w), Hth.
  now rewrite Hargs.
Qed.

Lemma inv_thread_run g env st w t :
  supervisor_inv st (pool w) -> supervisor_inv st (pool (thread_run g env t w)).
Proof.
  intros Hinv. rewrite pool_thread_run.
  destruct (pool w !! t) as [th|] eqn:Hth; [| exact Hinv].
  now apply inv_mark_ended.
Qed.

(** A loop whose body keeps a property and returns keeps it and returns. *)
Lemma for_each_invariant {A S} (body : S -> A -> M S) (P : S -> world -> Prop)
    (xs : list A) :
  (forall s w x, x ∈ xs -> P s w ->
     exists s' w', body s x w = (Ok s', w') /\ P s' w') ->
  forall s w, P s w ->
    exists s' w', for_each body xs s w = (Ok s', w') /\ P s' w'.
Proof.
  induction xs as [|x xs IH]; intros Hbody s w HP; simpl.
  - now exists s, w.
  - destruct (Hbody s w x) as (s1 & w1 & Hx & HP1);
      [apply elem_of_cons; now left | exact HP |].
    unfold bind. rewrite Hx. apply IH; [| exact HP1].
    intros s0 w0 x0 Hx0. apply Hbody. apply elem_of_cons; now right.
Qed.

Lemma live_worker_app w w' new t cid :
  pool w' = pool w ++ new -> live_worker w t cid -> live_worker w' t cid.
Proof.
  intros Hpool (th & Hth & Halive & Hcid). exists th.
  split; [| auto]. rewrite Hpool, lookup_app_l; [exact Hth|].
  now apply lookup_lt_Some in Hth.
Qed.

Lemma discovery_post_start items st0 p0 st w cid name :
  (cid, name) ∈ items ->
  discovery_post items st0 p0 st w ->
  exists st' w',
    start_collector st (cid, name) w = (Ok st', w')
    /\ discovery_post items st0 p0 st' w'.
Proof.
  intros Hitem [Hinv (new & Hpool & Hnew) Hkept Hfresh].
  destruct (decide (cid ∈ active_streams st)) as [Hin|Hnin].
  { exists st, w. rewrite start_collector_present by exact Hin.
    split; [reflexivity|]. split; eauto. }
  rewrite start_collector_absent by exact Hnin.
  eexists _, _. split; [reflexivity|].
  assert (Hnot0 : cid ∉ active_streams st0).
  { intros H0. apply Hnin. now apply Hkept. }
  split; simpl.
  - now apply inv_start_absent.
  - exists (new ++ [Thread (cid, name) (lit "log-" ++ name) true]).
    split; [now rewrite Hpool, app_assoc|].
    apply Forall_app. split; [exact Hnew|].
    constructor; [| constructor]. simpl. auto.
  - intros c Hc. destruct (Hkept c Hc) as [Hact Hget]. split.
    + apply elem_of_union. now left.
    + rewrite dict_get_set_ne; [exact Hget|]. intros <-. contradiction.
  - intros c Hc Hc0. destruct (decide (cid = c)) as [<-|Hne].
    + exists (length (pool w)). split; [| split].
      * rewrite Hpool, length_app. lia.
      * apply dict_get_set_eq.
      * eexists. split; [now apply list_lookup_middle | auto].
    + apply elem_of_union in Hc as [Hc|Hc];
        [| apply elem_of_singleton in Hc; congruence].
      destruct (Hfresh c Hc Hc0) as (t & Hge & Hget & Hlive).
      exists t. split; [exact Hge | split].
      * now rewrite dict_get_set_ne.
      * eapply live_worker_app; [| exact Hlive]. reflexivity.
Qed.

Lemma discovery_phase items st0 w0 :
  supervisor_inv st0 (pool w0) ->
  exists st1 w1,
    for_each start_collector items st0 w0 = (Ok st1, w1)
    /\ discovery_post items st0 (pool w0) st1 w1.
Proof.
  intros Hinv.
  apply (for_each_invariant start_collector
           (discovery_post items st0 (pool w0)) items).
  - intros st w [cid name] Hitem Hpost. now apply discovery_post_start.
  - split.
    + exact Hinv.
    + exists []. split; [now rewrite app_nil_r | constructor].
    + auto.
    + intros cid Hin Hnin. contradiction.
Qed.

Lemma discovery_active items st0 w0 st1 w1 :
  for_each start_collector items st0 w0 = (Ok st1, w1) ->
  forall cid,
    cid ∈ active_streams st1 <->
    cid ∈ active_streams st0 \/ cid ∈ dict_keys items.
Proof.
  revert st0 w0.
  induction items as [|[c name] items IH]; intros st0 w0 Hrun cid;
    cbn [for_each] in Hrun.
  - injection Hrun as <- <-.
    split; [auto | intros [H|H]; [exact H | inversion H]].
  - unfold bind in Hrun. cbn [dict_keys map fst]. rewrite elem_of_cons.
    destruct (decide (c ∈ active_streams st0)) as [Hin|Hnin].
    + rewrite start_collector_present in Hrun by exact Hin.
      rewrite (IH _ _ Hrun cid). split; [tauto|].
      intros [H|[->|H]]; auto.
    + rewrite start_collector_absent in Hrun by exact Hnin.
      rewrite (IH _ _ Hrun cid). simpl.
      rewrite elem_of_union, elem_of_singleton. tauto.
Qed.

Section loop.
Context (g : globals) (env : environment).

Lemma loop_body_phases st w containers w1 st1 w2 :
  list_containers env w = (Ok containers, w1) ->
  for_each start_collector containers st
    (add_event (EvLog DEBUG "Discovered containers: %s") w1) = (Ok st1, w2) ->
  loop_body g env st w =
    (Ok (fold_left forget (dead_streams (pool w2) (threads st1)) st1),
     {| heap := heap w2; pool := pool w2;
        trace := (trace w2 ++
                   map (fun _ => EvLog INFO "Cleaning up dead log stream for %s")
                       (dead_streams (pool w2) (threads st1)))
                 ++ [EvSleep (DISCOVERY_INTERVAL_SECONDS g)];
        tick := tick w2 |}).
Proof.
  intros Hlist Hfor. unfold loop_body, bind. rewrite Hlist. cbn [log emit].
  rewrite Hfor, clean_up_eq. reflexivity.
Qed.

(** A turn of the loop from a consistent state: it completes, and its
    three phases are related as follows. *)
Lemma loop_body_post st w :
  supervisor_inv st (pool w) ->
  exists containers st1 w2 st2 w3,
    fst (list_containers env w) = Ok containers
    /\ discovery_post containers st (pool w) st1 w2
    /\ (forall cid, cid ∈ active_streams st1 <->
                    cid ∈ active_streams st \/ cid ∈ dict_keys containers)
    /\ st2 = fold_left forget (dead_streams (pool w2) (threads st1)) st1
    /\ pool w3 = pool w2
    /\ last (trace w3) = Some (EvSleep (DISCOVERY_INTERVAL_SECONDS g))
    /\ loop_body g env st w = (Ok st2, w3).
Proof.
  intros Hinv.
  destruct (list_containers_returns env w) as (containers & Hlist).
  destruct (list_containers env w) as [r w1] eqn:Hrun. simpl in Hlist. subst r.
  assert (Hpool1 : pool w1 = pool w).
  { pose proof (pp_list_containers env w) as H. now rewrite Hrun in H. }
  set (w1' := add_event (EvLog DEBUG "Discovered containers: %s") w1).
  destruct (discovery_phase containers st w1') as (st1 & w2 & Hfor & Hpost).
  { unfold w1'; simpl. now rewrite Hpool1. }
  exists containers, st1, w2. eexists _, _.
  split; [reflexivity|]. split; [| split; [| split; [reflexivity|]]].
  - unfold w1' in Hpost; simpl in Hpost. now rewrite Hpool1 in Hpost.
  - exact (discovery_active _ _ _ _ _ Hfor).
  - split; [| split]; [| | exact (loop_body_phases st w _ _ _ _ Hrun Hfor)].
    + reflexivity.
    + simpl. apply last_snoc.
Qed.

Lemma inv_loop_body st w st' w' :
  supervisor_inv st (pool w) ->
  loop_body g env st w = (Ok st', w') ->
  supervisor_inv st' (pool w').
Proof.
  intros Hinv Hrun.
  destruct (loop_body_post st w Hinv)
    as (containers & st1 & w2 & st2 & w3 & _ & Hpost & _ & -> & Hpool & _ & Heq).
  rewrite Heq in Hrun. injection Hrun as <- <-. rewrite Hpool.
  apply inv_forget_dead, Hpost.
Qed.

Lemma reachable_inv st w :
  reachable g env (st, w) -> supervisor_inv st (pool w).
Proof.
  intros Hreach. remember (st, w) as s eqn:Hs. revert st w Hs.
  induction Hreach as [w0 Hpool|[st0 w0] s' Hreach IH Hstep]; intros st w Hs.
  - injection Hs as <- <-. rewrite Hpool. apply inv_initial.
  - specialize (IH st0 w0 eq_refl). subst s'.
    inversion Hstep; subst.
    + eapply inv_start; eauto.
    + eapply inv_clean_up; eauto.
    + eapply inv_loop_body; eauto.
    + now apply inv_thread_run.
Qed.
End loop.

(** ** The discovery supervisor *)

Example first_poll_starts_one_worker :
  loop_body indexing_globals (streaming_env LogsUnreachable false false)
            initial_locals initial_world
  = (Ok one_worker_locals, one_worker_world).
Proof. vm_compute. reflexivity. Qed.

Lemma at_most_one_live_worker_of_inv st w cid t1 t2 :
  supervisor_inv st (pool w) ->
  live_worker w t1 cid -> live_worker w t2 cid -> t1 = t2.
Proof.
  intros Hinv (th1 & Hth1 & Ha1 & Hc1) (th2 & Hth2 & Ha2 & Hc2).
  pose proof (inv_live _ _ Hinv t1 th1 Hth1 Ha1) as H1.
  pose proof (inv_live _ _ Hinv t2 th2 Hth2 Ha2) as H2.
  rewrite Hc1 in H1. rewrite Hc2 in H2. congruence.
Qed.

Lemma live_worker_registered st w cid t :
  supervisor_inv st (pool w) -> live_worker w t cid ->
  cid ∈ active_streams st /\ dict_get (threads st) cid = Some t.
Proof.
  intros Hinv (th & Hth & Ha & Hc).
  pose proof (inv_live _ _ Hinv t th Hth Ha) as Hget. rewrite Hc in Hget.
  split; [| exact Hget]. apply (inv_registered _ _ Hinv). eauto.
Qed.

Lemma clean_up_removes_only_ended st w st' w' cid :
  supervisor_inv st (pool w) ->
  clean_up st w = (Ok st', w') ->
  cid ∈ active_streams st -> cid ∉ active_streams st' ->
  forall t, ~ live_worker w t cid.
Proof.
  intros Hinv Hrun Hin Hout t Hlive.
  rewrite clean_up_eq in Hrun. injection Hrun as <- _.
  assert (Hdead : cid ∈ dead_streams (pool w) (threads st)).
  { destruct (decide (cid ∈ dead_streams (pool w) (threads st))); [assumption|].
    exfalso. apply Hout. now apply forget_all_active. }
  apply elem_of_dead_streams in Hdead as (t' & Hitem & Hdead).
  apply (dict_elem_of_get _ _ _ (inv_unique_keys _ _ Hinv)) in Hitem.
  destruct (live_worker_registered st w cid t Hinv Hlive) as [_ Hget].
  rewrite Hget in Hitem. injection Hitem as <-.
  destruct Hlive as (th & Hth & Ha & _). rewrite Hth in Hdead. congruence.
Qed.

(** C3. In every state the discovery loop reaches there is at most one live
    worker per container id, and a live worker is registered under its id.
    A worker is started for an id only if the id is not in the set (for an
    id in the set the loop's turn for it changes nothing); an entry leaves
    the set only in the clean-up and only when no worker for it is alive;
    so when a worker for an id is alive, the next turn of the loop completes
    and leaves that worker the only live one for the id. *)
Theorem at_most_one_live_worker_per_container
    (g : globals) (env : environment) (st : locals) (w : world) :
  reachable g env (st, w) ->
  (forall cid t1 t2,
      live_worker w t1 cid -> live_worker w t2 cid -> t1 = t2)
  /\ (forall cid t, live_worker w t cid ->
        cid ∈ active_streams st /\ dict_get (threads st) cid = Some t)
  /\ (forall cid name, cid ∈ active_streams st ->
        start_collector st (cid, name) w = (Ok st, w))
  /\ (forall cid name st' w',
        start_collector st (cid, name) w = (Ok st', w') ->
        active_streams st ⊆ active_streams st'
        /\ (pool w' ≠ pool w -> cid ∉ active_streams st))
  /\ (forall st' w' cid,
        clean_up st w = (Ok st', w') ->
        cid ∈ active_streams st -> cid ∉ active_streams st' ->
        forall t, ~ live_worker w t cid)
  /\ (forall cid t, live_worker w t cid ->
        exists st' w',
          loop_body g env st w = (Ok st', w')
          /\ forall t', live_worker w' t' cid <-> t' = t).
Proof.
  intros Hreach. pose proof (reachable_inv g env st w Hreach) as Hinv.
  split; [| split; [| split; [| split; [| split]]]].
  - intros cid t1 t2. now apply (at_most_one_live_worker_of_inv st).
  - intros cid t. now apply live_worker_registered.
  - intros cid name. apply start_collector_present.
  - intros cid name st' w' Hrun.
    destruct (decide (cid ∈ active_streams st)) as [Hin|Hnin].
    + rewrite start_collector_present in Hrun by exact Hin.
      injection Hrun as <- <-. split; [reflexivity | congruence].
    + rewrite start_collector_absent in Hrun by exact Hnin.
      injection Hrun as <- <-. split; [| auto]. simpl.
      intros c Hc. apply elem_of_union. now left.
  - intros st' w' cid. now apply clean_up_removes_only_ended.
  - intros cid t Hlive.
    destruct (loop_body_post g env st w Hinv)
      as (containers & st1 & w2 & st2 & w3 & _ & Hpost & _ & Hst2 & Hpool & _ & Hrun).
    exists st2, w3. split; [exact Hrun|].
    destruct (post_started _ _ _ _ _ Hpost) as (new & Hnew & _).
    assert (Hlive' : live_worker w3 t cid).
    { apply (live_worker_app w w3 new); [congruence | exact Hlive]. }
    assert (Hinv' : supervisor_inv st2 (pool w3))
      by exact (inv_loop_body g env st w st2 w3 Hinv Hrun).
    intros t'. split.
    + intros Ht'. now apply (at_most_one_live_worker_of_inv st2 w3 cid).
    + now intros ->.
Qed.

Lemma at_most_one_live_worker_per_container_witness :
  live_worker one_worker_world 0 (lit "abc123")
  /\ forall t, live_worker one_worker_world t (lit "abc123") -> t = 0%nat.
Proof.
  assert (Hlive : live_worker one_worker_world 0 (lit "abc123")).
  { eexists. repeat split; reflexivity. }
  split; [exact Hlive|].
  destruct (at_most_one_live_worker_per_container
              indexing_globals (streaming_env LogsUnreachable false false)
              one_worker_locals one_worker_world) as (Hone & _).
  - apply (reachable_step _ _ (initial_locals, initial_world)).
    + apply reachable_start. reflexivity.
    + apply step_loop_body. vm_compute. reflexivity.
  - intros t Ht. exact (Hone (lit "abc123") t 0%nat Ht Hlive).
Defined.

(** The scenario of the specification: the container [abc123] on the first
    poll, [abc123] and [def456] on the second; one worker is started by the
    first turn, one more by the second, and both are alive. *)
Example two_polls_two_workers :
  let env :=
    {| clock := fun _ => ClockReading late_evening_utc 0;
       containers_json := fun n =>
         match n with
         | O => ListResponse 200 (Some [web_container])
         | _ => ListResponse 200 (Some [web_container; db_container])
         end;
       container_logs := fun _ _ => LogsUnreachable;
       print_raises := fun _ => false;
       index_raises := fun _ => false |} in
  exists st1 w1 st2 w2,
    loop_body indexing_globals env initial_locals initial_world = (Ok st1, w1)
    /\ loop_body indexing_globals env st1 w1 = (Ok st2, w2)
    /\ map target_args (pool w1) = [(lit "abc123", lit "/web")]
    /\ map target_args (pool w2)
       = [(lit "abc123", lit "/web"); (lit "def456", lit "/db")]
    /\ map alive (pool w2) = [true; true]
    /\ threads st2 = [(lit "abc123", 0%nat); (lit "def456", 1%nat)].
Proof.
  intros env. eexists _, _, _, _.
  split; [vm_compute; reflexivity|].
  split; [vm_compute; reflexivity|].
  repeat split.
Qed.



Example list_failure_kinds :
  list_failed ListUnreachable = true
  /\ list_failed (ListResponse 500 (Some [web_container])) = true
  /\ list_failed (ListResponse 404 None) = true
  /\ list_failed (ListResponse 200 None) = true
  /\ list_failed (ListResponse 200 (Some [])) = false.
Proof. repeat split. Qed.

(** ** Ended workers *)

Lemma live_worker_pool_eq w w' t cid :
  pool w' = pool w -> live_worker w t cid -> live_worker w' t cid.
Proof.
  intros Hpool. apply (live_worker_app w w' []). now rewrite app_nil_r.
Qed.

Lemma thread_run_ends g env t w : thread_alive (thread_run g env t w) t = false.
Proof.
  unfold thread_alive. rewrite pool_thread_run.
  destruct (pool w !! t) as [th|] eqn:Hth.
  - rewrite list_lookup_insert_eq; [reflexivity|]. now apply lookup_lt_Some in Hth.
  - now rewrite Hth.
Qed.

Lemma thread_run_pool_length g env t w :
  length (pool (thread_run g env t w)) = length (pool w).
Proof.
  rewrite pool_thread_run. destruct (pool w !! t); [apply length_insert | reflexivity].
Qed.

Section worker_endings.
Context (g : globals) (env : environment) (container_id name : str).

Lemma stream_logs_open_failure w :
  container_logs env container_id (tick w) = LogsUnreachable ->
  trace (snd (stream_logs g env container_id name w))
  = trace w ++ [EvLog INFO "Starting log stream for %s (%s)";
                EvLog ERROR "Error streaming logs for %s (%s): %s";
                EvLog INFO "Log stream ended for %s (%s)"].
Proof.
  intros Hr. unfold stream_logs, bind, try_except, ask, log, emit; simpl.
  rewrite Hr; simpl. now rewrite <- !app_assoc.
Qed.

Lemma stream_logs_http_error w status lines ending :
  container_logs env container_id (tick w) = LogsResponse status lines ending ->
  (400 <=? status) && (status <? 600) = true ->
  trace (snd (stream_logs g env container_id name w))
  = trace w ++ [EvLog INFO "Starting log stream for %s (%s)";
                EvLog ERROR "Error streaming logs for %s (%s): %s";
                EvLog INFO "Log stream ended for %s (%s)"].
Proof.
  intros Hr Hs. unfold stream_logs, bind, try_except, ask, log, emit; simpl.
  rewrite Hr. unfold raise_for_status. rewrite Hs; simpl.
  now rewrite <- !app_assoc.
Qed.

Lemma stream_logs_empty_stream w status :
  container_logs env container_id (tick w) = LogsResponse status [] EOF ->
  (400 <=? status) && (status <? 600) = false ->
  trace (snd (stream_logs g env container_id name w))
  = trace w ++ [EvLog INFO "Starting log stream for %s (%s)";
                EvLog INFO "Log stream ended for %s (%s)"].
Proof.
  intros Hr Hs. unfold stream_logs, bind, try_except, ask, log, emit; simpl.
  rewrite Hr. unfold raise_for_status. rewrite Hs; simpl.
  now rewrite <- !app_assoc.
Qed.

Lemma stream_logs_read_error w status :
  container_logs env container_id (tick w) = LogsResponse status [] ReadError ->
  (400 <=? status) && (status <? 600) = false ->
  trace (snd (stream_logs g env container_id name w))
  = trace w ++ [EvLog INFO "Starting log stream for %s (%s)";
                EvLog ERROR "Error streaming logs for %s (%s): %s";
                EvLog INFO "Log stream ended for %s (%s)"].
Proof.
  intros Hr Hs. unfold stream_logs, bind, try_except, ask, log, emit; simpl.
  rewrite Hr. unfold raise_for_status. rewrite Hs; simpl.
  now rewrite <- !app_assoc.
Qed.
End worker_endings.

Section reaping.
Context (g : globals) (env : environment).

(** The turn of the loop that finds a registered worker ended removes its
    entry. *)
Lemma loop_body_reaps st w cid t :
  supervisor_inv st (pool w) ->
  dict_get (threads st) cid = Some t ->
  thread_alive w t = false ->
  exists st2 w2,
    loop_body g env st w = (Ok st2, w2)
    /\ supervisor_inv st2 (pool w2)
    /\ (length (pool w) <= length (pool w2))%nat
    /\ (cid ∉ active_streams st2)
    /\ dict_get (threads st2) cid = None.
Proof.
  intros Hinv Hget Hdead.
  destruct (loop_body_post g env st w Hinv)
    as (containers & st1 & w2 & st2 & w3 & _ & Hpost & _ & Hst2 & Hpool & _ & Hrun).
  exists st2, w3. split; [exact Hrun|].
  split; [exact (inv_loop_body g env st w st2 w3 Hinv Hrun)|].
  destruct Hpost as [Hinv1 (new & Hnew & _) Hkept _].
  split; [rewrite Hpool, Hnew, length_app; lia|].
  assert (Hact : cid ∈ active_streams st)
    by (apply (inv_registered _ _ Hinv); eauto).
  destruct (Hkept cid Hact) as [_ Hget1]. rewrite Hget in Hget1.
  assert (Hin : cid ∈ dead_streams (pool w2) (threads st1)).
  { apply elem_of_dead_streams. exists t.
    split; [now apply dict_get_elem_of|].
    destruct (inv_handle _ _ Hinv cid t Hget) as (th & Hth & _).
    rewrite Hnew, lookup_app_l by now apply lookup_lt_Some in Hth.
    unfold thread_alive in Hdead. now rewrite Hth in Hdead |- *. }
  subst st2. split.
  - rewrite forget_all_active. tauto.
  - rewrite forget_all_get by exact (inv_unique_keys _ _ Hinv1).
    now rewrite decide_True.
Qed.

(** A listed container that has no entry gets a fresh worker. *)
Lemma loop_body_starts st w cid status cs c :
  supervisor_inv st (pool w) ->
  cid ∉ active_streams st ->
  containers_json env (tick w) = ListResponse status (Some cs) ->
  (400 <=? status) && (status <? 600) = false ->
  c ∈ cs -> effective_id c = Some cid -> cid ≠ [] ->
  exists st3 w3 t',
    loop_body g env st w = (Ok st3, w3)
    /\ (length (pool w) <= t')%nat
    /\ cid ∈ active_streams st3
    /\ dict_get (threads st3) cid = Some t'
    /\ live_worker w3 t' cid.
Proof.
  intros Hinv Hnew Hr Hs Hc Hid Hne.
  destruct (loop_body_post g env st w Hinv)
    as (containers & st1 & w2 & st2 & w3 & Hlist & Hpost & Hact & Hst2
        & Hpool & _ & Hrun).
  rewrite (list_containers_ok env w status cs Hr Hs) in Hlist.
  injection Hlist as <-.
  assert (Hact1 : cid ∈ active_streams st1).
  { apply Hact. right. apply containers_fold_keys. right. now exists c. }
  destruct (post_fresh _ _ _ _ _ Hpost cid Hact1 Hnew)
    as (t' & Hge & Hget & Hlive).
  pose proof (post_inv _ _ _ _ _ Hpost) as Hinv1.
  assert (Hnotdead : cid ∉ dead_streams (pool w2) (threads st1)).
  { intros (t'' & Hitem & Hdead)%elem_of_dead_streams.
    apply (dict_elem_of_get _ _ _ (inv_unique_keys _ _ Hinv1)) in Hitem.
    rewrite Hget in Hitem. injection Hitem as <-.
    destruct Hlive as (th & Hth & Ha & _). rewrite Hth in Hdead. congruence. }
  exists st2, w3, t'. subst st2.
  split; [exact Hrun | split; [exact Hge | split; [| split]]].
  - apply forget_all_active. auto.
  - rewrite forget_all_get by exact (inv_unique_keys _ _ Hinv1).
    now rewrite decide_False.
  - now apply (live_worker_pool_eq w2).
Qed.
End reaping.

(** The clean-up itself removes the entry of an ended worker. *)
Lemma clean_up_reaps st w cid t st' w' :
  supervisor_inv st (pool w) ->
  dict_get (threads st) cid = Some t ->
  thread_alive w t = false ->
  clean_up st w = (Ok st', w') ->
  (cid ∉ active_streams st') /\ dict_get (threads st') cid = None.
Proof.
  intros Hinv Hget Hdead. rewrite clean_up_eq. intros [= <- _].
  assert (Hin : cid ∈ dead_streams (pool w) (threads st)).
  { apply elem_of_dead_streams. exists t. split; [now apply dict_get_elem_of|].
    exact Hdead. }
  split.
  - rewrite forget_all_active. tauto.
  - rewrite forget_all_get by exact (inv_unique_keys _ _ Hinv).
    now rewrite decide_True.
Qed.

(** C7. Whatever the log stream does (the request fails, the runtime answers
    with an error status, a read fails, or the stream closes, also after
    zero bytes), the worker's target returns without an exception and its
    thread is no longer alive.  The next clean-up removes the worker's
    entry, and so does the turn of the discovery loop that follows, which
    completes without starting a worker for the id; in the turn after
    that, if the runtime still lists the container, a fresh worker is
    started and registered for the same id. *)
Theorem ended_worker_is_reaped_then_restarted
    (g : globals) (env : environment) (st : locals) (w : world)
    (cid : str) (t : nat) :
  reachable g env (st, w) ->
  dict_get (threads st) cid = Some t ->
  thread_alive w t = true ->
  let w1 := thread_run g env t w in
  let started := EvLog INFO "Starting log stream for %s (%s)" in
  let failed := EvLog ERROR "Error streaming logs for %s (%s): %s" in
  let ended := EvLog INFO "Log stream ended for %s (%s)" in
  (forall c n w0, fst (stream_logs g env c n w0) = Ok tt)
  /\ (forall c n w0,
        container_logs env c (tick w0) = LogsUnreachable ->
        trace (snd (stream_logs g env c n w0)) = trace w0 ++ [started; failed; ended])
  /\ (forall c n w0 status,
        container_logs env c (tick w0) = LogsResponse status [] ReadError ->
        (400 <=? status) && (status <? 600) = false ->
        trace (snd (stream_logs g env c n w0)) = trace w0 ++ [started; failed; ended])
  /\ (forall c n w0 status,
        container_logs env c (tick w0) = LogsResponse status [] EOF ->
        (400 <=? status) && (status <? 600) = false ->
        trace (snd (stream_logs g env c n w0)) = trace w0 ++ [started; ended])
  /\ reachable g env (st, w1)
  /\ thread_alive w1 t = false
  /\ (forall st' w',
        clean_up st w1 = (Ok st', w') ->
        (cid ∉ active_streams st') /\ dict_get (threads st') cid = None)
  /\ exists st2 w2,
       loop_body g env st w1 = (Ok st2, w2)
       /\ (cid ∉ active_streams st2)
       /\ dict_get (threads st2) cid = None
       /\ forall status cs c,
            containers_json env (tick w2) = ListResponse status (Some cs) ->
            (400 <=? status) && (status <? 600) = false ->
            c ∈ cs -> effective_id c = Some cid -> cid ≠ [] ->
            exists st3 w3 t',
              loop_body g env st2 w2 = (Ok st3, w3)
              /\ t' ≠ t
              /\ cid ∈ active_streams st3
              /\ dict_get (threads st3) cid = Some t'
              /\ live_worker w3 t' cid.
Proof.
  intros Hreach Hget Halive w1 started failed ended.
  pose proof (reachable_inv g env st w Hreach) as Hinv.
  assert (Hreach1 : reachable g env (st, w1)).
  { apply (reachable_step _ _ (st, w)); [exact Hreach|].
    now apply step_thread_run. }
  pose proof (reachable_inv g env st w1 Hreach1) as Hinv1.
  split; [| split; [| split; [| split; [| split; [| split; [| split]]]]]].
  - intros c n w0. apply stream_logs_returns.
  - intros c n w0. apply stream_logs_open_failure.
  - intros c n w0 status. apply stream_logs_read_error.
  - intros c n w0 status. apply stream_logs_empty_stream.
  - exact Hreach1.
  - apply thread_run_ends.
  - intros st' w'.
    apply (clean_up_reaps st w1 cid t st' w' Hinv1 Hget (thread_run_ends g env t w)).
  - destruct (loop_body_reaps g env st w1 cid t Hinv1 Hget (thread_run_ends g env t w))
      as (st2 & w2 & Hrun & Hinv2 & Hlen & Hout & Hgone).
    exists st2, w2. split; [exact Hrun | split; [exact Hout | split; [exact Hgone|]]].
    intros status cs c Hr Hs Hc Hid Hne.
    destruct (loop_body_starts g env st2 w2 cid status cs c Hinv2 Hout Hr Hs Hc Hid Hne)
      as (st3 & w3 & t' & Hrun3 & Hge & Hact & Hget3 & Hlive).
    exists st3, w3, t'. split; [exact Hrun3 | split; [| auto]].
    destruct (inv_handle _ _ Hinv cid t Hget) as (th & Hth & _).
    apply lookup_lt_Some in Hth.
    unfold w1 in Hlen. rewrite thread_run_pool_length in Hlen. lia.
Qed.

Lemma ended_worker_is_reaped_then_restarted_witness :
  let g := indexing_globals in
  let env := streaming_env (LogsResponse 200 [] EOF) false false in
  let w1 := thread_run g env 0 one_worker_world in
  thread_alive w1 0 = false
  /\ exists st2 w2,
       loop_body g env one_worker_locals w1 = (Ok st2, w2)
       /\ (lit "abc123" ∉ active_streams st2)
       /\ exists st3 w3 t',
            loop_body g env st2 w2 = (Ok st3, w3)
            /\ t' ≠ 0%nat
            /\ live_worker w3 t' (lit "abc123").
Proof.
  intros g env w1.
  destruct (ended_worker_is_reaped_then_restarted
              g env one_worker_locals one_worker_world (lit "abc123") 0)
    as (_ & _ & _ & _ & _ & Hdead & _ & st2 & w2 & Hrun & Hout & _ & Hnext).
  - apply (reachable_step _ _ (initial_locals, initial_world)).
    + apply reachable_start. reflexivity.
    + apply step_loop_body. vm_compute. reflexivity.
  - reflexivity.
  - reflexivity.
  - split; [exact Hdead|]. exists st2, w2.
    split; [exact Hrun | split; [exact Hout|]].
    destruct (Hnext 200 [web_container] web_container)
      as (st3 & w3 & t' & Hrun3 & Hne & _ & _ & Hlive).
    + reflexivity.
    + reflexivity.
    + apply list_elem_of_singleton. reflexivity.
    + reflexivity.
    + discriminate.
    + exists st3, w3, t'. auto.
Defined.

(** The same scenario, evaluated: the worker's stream closes after zero
    bytes, the next turn removes the entry, the turn after it starts
    thread 1 for the same container. *)
Example zero_byte_stream_is_restarted :
  let g := indexing_globals in
  let env := streaming_env (LogsResponse 200 [] EOF) false false in
  let w1 := thread_run g env 0 one_worker_world in
  exists st2 w2 st3 w3,
    loop_body g env one_worker_locals w1 = (Ok st2, w2)
    /\ threads st2 = []
    /\ loop_body g env st2 w2 = (Ok st3, w3)
    /\ threads st3 = [(lit "abc123", 1%nat)]
    /\ map alive (pool w3) = [false; true].
Proof.
  intros g env w1. eexists _, _, _, _.
  split; [vm_compute; reflexivity|].
  split; [reflexivity|].
  split; [vm_compute; reflexivity|].
  split; reflexivity.
Qed.

(** ** Containers without an identifier *)

Lemma loop_body_workers_are_listed g env st w status cs :
  supervisor_inv st (pool w) ->
  containers_json env (tick w) = ListResponse status (Some cs) ->
  (400 <=? status) && (status <? 600) = false ->
  exists st' w' new,
    loop_body g env st w = (Ok st', w')
    /\ pool w' = pool w ++ new
    /\ Forall (fun th =>
                 exists c, c ∈ cs
                           /\ effective_id c = Some (fst (target_args th))
                           /\ fst (target_args th) ≠ []) new.
Proof.
  intros Hinv Hr Hs.
  destruct (loop_body_post g env st w Hinv)
    as (containers & st1 & w2 & st2 & w3 & Hlist & Hpost & _ & _ & Hpool & _ & Hrun).
  rewrite (list_containers_ok env w status cs Hr Hs) in Hlist.
  injection Hlist as <-.
  destruct (post_started _ _ _ _ _ Hpost) as (new & Hnew & Hall).
  exists st2, w3, new. split; [exact Hrun | split; [congruence|]].
  eapply Forall_impl; [exact Hall|]. intros th (_ & _ & Hitem). simpl in Hitem.
  assert (Hkey : fst (target_args th) ∈ dict_keys (fold_left add_container cs [])).
  { apply list_elem_of_fmap. now exists (target_args th). }
  apply containers_fold_keys in Hkey as [Hkey|Hkey]; [inversion Hkey | exact Hkey].
Qed.

(** C9. In a successful list response, a container object whose identifier
    is missing or empty under both keys is omitted from the listing
    entirely (the listing is that of the response without the object, and
    no key of it is empty), so the turn of the discovery loop starts workers
    only for non-empty identifiers of listed objects; every object with a
    non-empty identifier appears keyed by that identifier, once. *)
Theorem containers_without_id_are_omitted
    (g : globals) (env : environment) (st : locals) (w : world)
    (status : Z) (cs : list container_obj) :
  containers_json env (tick w) = ListResponse status (Some cs) ->
  (400 <=? status) && (status <? 600) = false ->
  reachable g env (st, w) ->
  exists out,
    fst (list_containers env w) = Ok out
    /\ NoDup (dict_keys out)
    /\ (forall k, k ∈ dict_keys out <->
                  exists c, c ∈ cs /\ effective_id c = Some k /\ k ≠ [])
    /\ (forall cs1 c cs2 env' w',
          cs = cs1 ++ c :: cs2 ->
          truthy_opt_str (Id c) = false ->
          truthy_opt_str (ID c) = false ->
          containers_json env' (tick w') = ListResponse status (Some (cs1 ++ cs2)) ->
          fst (list_containers env' w') = Ok out)
    /\ exists st' w' new,
         loop_body g env st w = (Ok st', w')
         /\ pool w' = pool w ++ new
         /\ Forall (fun th =>
                      exists c, c ∈ cs
                                /\ effective_id c = Some (fst (target_args th))
                                /\ fst (target_args th) ≠ []) new.
Proof.
  intros Hr Hs Hreach. exists (fold_left add_container cs []).
  split; [now rewrite (list_containers_ok env w status cs Hr Hs)|].
  split; [apply containers_fold_NoDup; constructor|].
  split; [| split].
  - intros k. rewrite containers_fold_keys. split.
    + intros [H|H]; [inversion H | exact H].
    + auto.
  - intros cs1 c cs2 env' w' -> HId HID Hr'.
    rewrite (list_containers_ok env' w' status _ Hr' Hs). simpl. f_equal.
    symmetry. apply containers_fold_skip. apply effective_id_falsy. auto.
  - apply (loop_body_workers_are_listed g env st w status cs);
      [| exact Hr | exact Hs].
    exact (reachable_inv g env st w Hreach).
Qed.

Lemma containers_without_id_are_omitted_witness :
  let r := ListResponse 200
             (Some [web_container; anonymous_container; db_container]) in
  exists out,
    fst (list_containers (listing_env r) initial_world) = Ok out
    /\ dict_keys out = [lit "abc123"; lit "def456"]
    /\ fst (list_containers
              (listing_env (ListResponse 200 (Some [web_container; db_container])))
              initial_world) = Ok out.
Proof.
  intros r.
  destruct (containers_without_id_are_omitted
              indexing_globals (listing_env r) initial_locals initial_world 200
              [web_container; anonymous_container; db_container])
    as (out & Hout & _ & _ & Hskip & _).
  - reflexivity.
  - reflexivity.
  - apply reachable_start. reflexivity.
  - exists out. split; [exact Hout | split].
    + vm_compute in Hout. injection Hout as <-. reflexivity.
    + apply (Hskip [web_container] anonymous_container [db_container]);
        reflexivity.
Defined.

(** A container without names is listed under the first 12 characters of
    its identifier; one without identifier is not listed. *)
Example listing_of_unusual_containers :
  fst (list_containers
         (listing_env
            (ListResponse 200 (Some [nameless_container; anonymous_container])))
         initial_world)
  = Ok [(lit "0123456789abcdef", lit "0123456789ab")].
Proof. reflexivity. Qed.

(** * Further properties of the log shipper *)

(** ** The loop's turn *)

Lemma for_each_start_frame items st w :
  exists st' w',
    for_each start_collector items st w = (Ok st', w')
    /\ heap w' = heap w /\ tick w' = tick w.
Proof.
  revert st w. induction items as [|[cid name] items IH]; intros st w.
  - now exists st, w.
  - cbn [for_each]. unfold bind.
    destruct (decide (cid ∈ active_streams st)) as [Hin|Hnin].
    + rewrite start_collector_present by exact Hin. apply IH.
    + rewrite start_collector_absent by exact Hnin.
      destruct (IH {| active_streams := active_streams st ∪ {[cid]};
                      threads := dict_set (threads st) cid (length (pool w)) |}
                   {| heap := heap w;
                      pool := pool w ++ [Thread (cid, name) (lit "log-" ++ name) true];
                      trace := trace w ++
                        [EvLog INFO "Starting log collector for container %s (%s)"];
                      tick := tick w |})
        as (st' & w' & Hrun & Hheap & Htick).
      now exists st', w'.
Qed.

Lemma loop_body_returns
    (g : globals) (env : environment) (st : locals) (w : world) :
  exists st' w',
    loop_body g env st w = (Ok st', w')
    /\ heap w' = heap w
    /\ tick w' = S (tick w)
    /\ last (trace w') = Some (EvSleep (DISCOVERY_INTERVAL_SECONDS g)).
Proof.
  destruct (list_containers_returns env w) as (containers & Hlist).
  destruct (list_containers env w) as [r w1] eqn:Hrun. simpl in Hlist. subst r.
  assert (Hw1 : heap w1 = heap w /\ tick w1 = S (tick w)).
  { destruct (list_failed (containers_json env (tick w))) eqn:Hf.
    - rewrite list_containers_failed in Hrun by exact Hf.
      injection Hrun as _ <-. auto.
    - destruct (containers_json env (tick w)) as [|status body] eqn:Hr;
        [discriminate|].
      simpl in Hf. apply orb_false_iff in Hf as [Hs Hb].
      destruct body as [cs|]; [| discriminate].
      rewrite (list_containers_ok env w status cs Hr Hs) in Hrun.
      injection Hrun as _ <-. auto. }
  destruct (for_each_start_frame containers st
              (add_event (EvLog DEBUG "Discovered containers: %s") w1))
    as (st1 & w2 & Hfor & Hheap & Htick).
  eexists _, _. split; [exact (loop_body_phases g env st w _ _ _ _ Hrun Hfor)|].
  simpl in *. destruct Hw1 as [Hh Ht].
  split; [congruence | split; [congruence | apply last_snoc]].
Qed.


(** ** Bookkeeping and threads *)

(** In every reachable state the set [active_streams] and the dictionary
    [threads] name the same container ids, each once, and every handle in
    [threads] is a started thread whose target was given that id. *)
Theorem bookkeeping_is_consistent
    (g : globals) (env : environment) (st : locals) (w : world) :
  reachable g env (st, w) ->
  (forall cid, cid ∈ active_streams st <-> cid ∈ dict_keys (threads st))
  /\ NoDup (dict_keys (threads st))
  /\ (forall cid t, (cid, t) ∈ threads st ->
        exists th, pool w !! t = Some th /\ fst (target_args th) = cid)
  /\ (forall t th, pool w !! t = Some th -> alive th = true ->
        (fst (target_args th), t) ∈ threads st).
Proof.
  intros Hreach. destruct (reachable_inv g env st w Hreach) as [I1 I2 I3 I4].
  split; [| split; [exact I2 | split]].
  - intros cid. now rewrite I1, dict_get_is_Some.
  - intros cid t Hin. apply I3. now apply dict_elem_of_get.
  - intros t th Hth Ha. apply dict_get_elem_of. now apply I4.
Qed.

Lemma bookkeeping_is_consistent_witness :
  (forall cid, cid ∈ active_streams one_worker_locals
               <-> cid ∈ dict_keys (threads one_worker_locals))
  /\ (lit "abc123", 0%nat) ∈ threads one_worker_locals.
Proof.
  destruct (bookkeeping_is_consistent
              indexing_globals (streaming_env LogsUnreachable false false)
              one_worker_locals one_worker_world) as (Hkeys & _ & _ & Hlive).
  - apply (reachable_step _ _ (initial_locals, initial_world)).
    + apply reachable_start. reflexivity.
    + apply step_loop_body. vm_compute. reflexivity.
  - split; [exact Hkeys|]. apply (Hlive 0%nat _ eq_refl). reflexivity.
Defined.




(** A running worker is never stopped or forgotten by the supervisor: over
    a turn of the loop, whatever the runtime lists (the container gone,
    still there, or there under another name), the worker stays registered
    under its id with the same handle, and its thread is unchanged, so it
    keeps the name it was started with. *)
Theorem running_worker_survives_a_turn
    (g : globals) (env : environment) (st st' : locals) (w w' : world)
    (cid : str) (t : nat) (th : thread) :
  reachable g env (st, w) ->
  pool w !! t = Some th -> alive th = true -> fst (target_args th) = cid ->
  loop_body g env st w = (Ok st', w') ->
  pool w' !! t = Some th
  /\ cid ∈ active_streams st'
  /\ dict_get (threads st') cid = Some t
  /\ (forall t', live_worker w' t' cid -> t' = t).
Proof.
  intros Hreach Hth Ha Hcid Hrun.
  pose proof (reachable_inv g env st w Hreach) as Hinv.
  assert (Hlive : live_worker w t cid) by (exists th; auto).
  destruct (live_worker_registered st w cid t Hinv Hlive) as [Hact Hget].
  destruct (loop_body_post g env st w Hinv)
    as (cs & st1 & w2 & st2 & w3 & _ & Hpost & _ & Hst2 & Hpool & _ & Heq).
  rewrite Heq in Hrun. injection Hrun as <- <-.
  destruct Hpost as [Hinv1 (new & Hnew & _) Hkept _].
  destruct (Hkept cid Hact) as [Hact1 Hget1]. rewrite Hget in Hget1.
  assert (Hth2 : pool w2 !! t = Some th).
  { rewrite Hnew, lookup_app_l; [exact Hth | now apply lookup_lt_Some in Hth]. }
  assert (Hnotdead : cid ∉ dead_streams (pool w2) (threads st1)).
  { intros (t'' & Hitem & Hdead)%elem_of_dead_streams.
    apply (dict_elem_of_get _ _ _ (inv_unique_keys _ _ Hinv1)) in Hitem.
    rewrite Hget1 in Hitem. injection Hitem as <-.
    rewrite Hth2 in Hdead. congruence. }
  assert (Hinv3 : supervisor_inv st2 (pool w3)).
  { rewrite Hst2, Hpool. now apply inv_forget_dead. }
  assert (Hth3 : pool w3 !! t = Some th) by now rewrite Hpool.
  split; [exact Hth3 | split; [| split]].
  - subst st2. apply forget_all_active. auto.
  - subst st2. rewrite forget_all_get by exact (inv_unique_keys _ _ Hinv1).
    now rewrite decide_False.
  - intros t' Hlive'.
    apply (at_most_one_live_worker_of_inv st2 w3 cid t' t Hinv3 Hlive').
    exists th. auto.
Qed.

Lemma running_worker_survives_a_turn_witness :
  exists st' w',
    loop_body indexing_globals vanishing_env one_worker_locals one_worker_world
      = (Ok st', w')
    /\ dict_get (threads st') (lit "abc123") = Some 0%nat
    /\ pool w' !! 0%nat
       = Some (Thread (lit "abc123", lit "/web") (lit "log-/web") true).
Proof.
  destruct (loop_body_returns indexing_globals vanishing_env
              one_worker_locals one_worker_world) as (st' & w' & Hrun & _).
  exists st', w'. split; [exact Hrun|].
  destruct (running_worker_survives_a_turn
              indexing_globals vanishing_env
              one_worker_locals st' one_worker_world w' (lit "abc123") 0
              (Thread (lit "abc123", lit "/web") (lit "log-/web") true))
    as (Hth & _ & Hget & _).
  - apply (reachable_step _ _ (initial_locals, initial_world)).
    + apply reachable_start. reflexivity.
    + apply step_loop_body. vm_compute. reflexivity.
  - reflexivity.
  - reflexivity.
  - reflexivity.
  - exact Hrun.
  - auto.
Defined.

(** ** Whole streams *)

Lemma printed_lines_app t1 t2 :
  printed_lines (t1 ++ t2) = printed_lines t1 ++ printed_lines t2.
Proof. apply omap_app. Qed.

Lemma indexed_docs_app t1 t2 :
  indexed_docs (t1 ++ t2) = indexed_docs t1 ++ indexed_docs t2.
Proof. apply omap_app. Qed.

Lemma logged_errors_app fmt t1 t2 :
  logged_errors fmt (t1 ++ t2) = (logged_errors fmt t1 + logged_errors fmt t2)%nat.
Proof. unfold logged_errors. now rewrite List.filter_app, length_app. Qed.

Section whole_stream.
Context (g : globals) (env : environment) (container_id name : str).

(** What the lines of a stream add to the trace, when no line's hand-over
    raises: the events of the first line, then those of the second, ... *)
Lemma iter_lines_per_line (Q : bytes -> list event -> Prop) :
  (forall raw w,
     fst (forward_line g env container_id name raw w) = Ok tt
     /\ exists new,
          trace (snd (forward_line g env container_id name raw w)) = trace w ++ new
          /\ Q raw new) ->
  forall lines ending w,
    fst (iter_lines (forward_line g env container_id name) lines ending w)
    = match ending with
      | EOF => Ok tt
      | ReadError => Raise (Exception "ChunkedEncodingError")
      end
    /\ exists news,
         trace (snd (iter_lines (forward_line g env container_id name)
                                lines ending w))
         = trace w ++ concat news
         /\ Forall2 Q lines news.
Proof.
  intros Hline lines ending. induction lines as [|raw lines IH]; intros w.
  - simpl. split; [now destruct ending|]. exists []. split; [| constructor].
    simpl. rewrite app_nil_r. now destruct ending.
  - cbn [iter_lines]. unfold bind.
    destruct (Hline raw w) as (Hret & new & Hnew & HQ).
    destruct (forward_line g env container_id name raw w) as [r w1].
    simpl in Hret, Hnew. subst r.
    destruct (IH w1) as (Hend & news & Hnews & Hall).
    split; [exact Hend|]. exists (new :: news). split; [| now constructor].
    rewrite Hnews, Hnew. simpl. now rewrite app_assoc.
Qed.

Lemma stream_logs_per_line (Q : bytes -> list event -> Prop)
    w status lines ending :
  (forall raw w,
     fst (forward_line g env container_id name raw w) = Ok tt
     /\ exists new,
          trace (snd (forward_line g env container_id name raw w)) = trace w ++ new
          /\ Q raw new) ->
  container_logs env container_id (tick w) = LogsResponse status lines ending ->
  (400 <=? status) && (status <? 600) = false ->
  exists news,
    trace (snd (stream_logs g env container_id name w))
    = trace w
      ++ [EvLog INFO "Starting log stream for %s (%s)"]
      ++ concat news
      ++ match ending with
         | EOF => []
         | ReadError => [EvLog ERROR "Error streaming logs for %s (%s): %s"]
         end
      ++ [EvLog INFO "Log stream ended for %s (%s)"]
    /\ Forall2 Q lines news.
Proof.
  intros Hline Hr Hs.
  unfold stream_logs, bind, try_except, ask, log, emit; simpl.
  rewrite Hr. unfold raise_for_status. rewrite Hs; simpl.
  set (w1 := next_tick (add_event _ w)).
  destruct (iter_lines_per_line Q Hline lines ending w1)
    as (Hend & news & Hnews & Hall).
  exists news. split; [| exact Hall].
  destruct (iter_lines _ lines ending w1) as [r w2]. simpl in Hend, Hnews.
  subst r. destruct ending; simpl; rewrite Hnews; unfold w1; simpl;
    now rewrite <- !app_assoc.
Qed.
End whole_stream.

(** The number of non-empty lines among [lines], read off a per-line
    description of the trace. *)
Lemma nonempty_lines_count (Q : bytes -> list event -> Prop)
    (count : list event -> nat) lines news :
  (forall t1 t2, count (t1 ++ t2) = (count t1 + count t2)%nat) ->
  count [] = 0%nat ->
  (forall raw new, Q raw new ->
     count new = if nonempty_line raw then 1%nat else 0%nat) ->
  Forall2 Q lines news ->
  count (concat news) = length (List.filter nonempty_line lines).
Proof.
  intros Happ Hnil HQ. induction 1 as [|raw new lines news Hq _ IH]; simpl.
  - exact Hnil.
  - rewrite Happ, IH, (HQ raw new Hq). now destruct (nonempty_line raw).
Qed.

(** When the backend client was never built (the mode is neither "local"
    nor a working "opensearch"), a worker still reads its whole stream and
    returns, but every record is dropped: nothing is printed, nothing is
    stored, and one error is logged per non-empty line. *)
Theorem records_are_dropped_without_client
    (g : globals) (env : environment) (container_id name : str) (w : world)
    (status : Z) (lines : list bytes) (ending : stream_end) :
  AGENT_MODE g ≠ lit "local" ->
  opensearch_client g = None ->
  container_logs env container_id (tick w) = LogsResponse status lines ending ->
  (400 <=? status) && (status <? 600) = false ->
  let w' := snd (stream_logs g env container_id name w) in
  let dropped := "OpenSearch client not initialized, cannot send log"%string in
  printed_lines (trace w') = printed_lines (trace w)
  /\ indexed_docs (trace w') = indexed_docs (trace w)
  /\ logged_errors dropped (trace w')
     = (logged_errors dropped (trace w)
        + length (List.filter nonempty_line lines))%nat.
Proof.
  intros Hmode Hc Hr Hs w' dropped.
  set (Q := fun (raw : bytes) (new : list event) =>
              match raw with
              | [] => new = []
              | _ :: _ => exists d, new = [EvSendLog d; EvLog ERROR dropped]
              end).
  destruct (stream_logs_per_line g env container_id name Q w status lines ending)
    as (news & Htrace & Hall); [| exact Hr | exact Hs |].
  { intros raw w0. destruct raw as [|b raw].
    - split; [reflexivity|]. exists []. split; [| reflexivity].
      simpl. now rewrite app_nil_r.
    - rewrite forward_line_nonempty by discriminate.
      rewrite (send_log_no_client g env _ _ Hmode Hc).
      split; [reflexivity|]. eexists. split; [reflexivity|]. unfold Q. eauto. }
  assert (Hquiet : printed_lines (concat news) = []
                   /\ indexed_docs (concat news) = []).
  { clear Htrace Hr. induction Hall as [|raw new lines news Hq _ IH]; [auto|].
    simpl. rewrite printed_lines_app, indexed_docs_app.
    destruct IH as [-> ->]. unfold Q in Hq. destruct raw.
    - now subst new.
    - now destruct Hq as (d & ->). }
  assert (Hcount : logged_errors dropped (concat news)
                   = length (List.filter nonempty_line lines)).
  { apply (nonempty_lines_count Q); [apply logged_errors_app | reflexivity | | exact Hall].
    intros raw new Hq. unfold Q in Hq. destruct raw.
    - now subst new.
    - now destruct Hq as (d & ->). }
  destruct Hquiet as [Hp Hi]. unfold w'. rewrite Htrace.
  rewrite !printed_lines_app, !indexed_docs_app, !logged_errors_app, Hp, Hi, Hcount.
  destruct ending; simpl; rewrite ?app_nil_r; repeat split; unfold logged_errors;
    simpl; lia.
Qed.

Lemma records_are_dropped_without_client_witness :
  let g := Globals (lit "podman-logs") (lit "podman-node") 10 (lit "debug")
             (init_opensearch_client (lit "debug") true) in
  let env := streaming_env (LogsResponse 200 [invalid_line; []; line_b] EOF)
                           false false in
  let w' := snd (stream_logs g env (lit "abc123") (lit "/web") initial_world) in
  printed_lines (trace w') = []
  /\ indexed_docs (trace w') = []
  /\ logged_errors "OpenSearch client not initialized, cannot send log" (trace w')
     = 2%nat.
Proof.
  intros g env w'.
  apply (records_are_dropped_without_client g env (lit "abc123") (lit "/web")
           initial_world 200 [invalid_line; []; line_b] EOF).
  - discriminate.
  - reflexivity.
  - reflexivity.
  - reflexivity.
Defined.

(** In local mode, when standard output accepts every write, a worker
    prints exactly one line per record it hands over, in order, each line
    being the record with its message cut to 300 characters plus marker,
    and it never contacts the backend. *)
Theorem debug_worker_prints_each_record
    (g : globals) (env : environment) (container_id name : str) (w : world)
    (status : Z) (lines : list bytes) (ending : stream_end) :
  AGENT_MODE g = lit "local" ->
  (forall n, print_raises env n = false) ->
  container_logs env container_id (tick w) = LogsResponse status lines ending ->
  (400 <=? status) && (status <? 600) = false ->
  let w' := snd (stream_logs g env container_id name w) in
  exists records,
    sent_records (trace w') = sent_records (trace w) ++ records
    /\ length records = length (List.filter nonempty_line lines)
    /\ printed_lines (trace w') = printed_lines (trace w) ++ map debug_line records
    /\ indexed_docs (trace w') = indexed_docs (trace w).
Proof.
  intros Hmode Hprint Hr Hs w'.
  set (Q := fun (raw : bytes) (new : list event) =>
              match raw with
              | [] => new = []
              | _ :: _ => exists d, new = [EvSendLog d; EvPrint (debug_line d)]
              end).
  destruct (stream_logs_per_line g env container_id name Q w status lines ending)
    as (news & Htrace & Hall); [| exact Hr | exact Hs |].
  { intros raw w0. destruct raw as [|b raw].
    - split; [reflexivity|]. exists []. split; [| reflexivity].
      simpl. now rewrite app_nil_r.
    - rewrite forward_line_nonempty by discriminate.
      rewrite (send_log_debug g env _ _ Hmode). cbv zeta. cbn [tick set_heap next_tick].
      rewrite Hprint. split; [reflexivity|].
      eexists. split; [reflexivity|]. unfold Q. eauto. }
  exists (sent_records (concat news)).
  assert (Hobs : printed_lines (concat news)
                 = map debug_line (sent_records (concat news))
                 /\ indexed_docs (concat news) = []).
  { clear Htrace Hr. induction Hall as [|raw new lines news Hq _ IH]; [auto|].
    simpl. rewrite printed_lines_app, indexed_docs_app, sent_records_app, map_app.
    destruct IH as [-> ->]. unfold Q in Hq. destruct raw.
    - now subst new.
    - now destruct Hq as (d & ->). }
  assert (Hcount : length (sent_records (concat news))
                   = length (List.filter nonempty_line lines)).
  { apply (nonempty_lines_count Q (fun t => length (sent_records t)));
      [| reflexivity | | exact Hall].
    - intros t1 t2. now rewrite sent_records_app, length_app.
    - intros raw new Hq. unfold Q in Hq. destruct raw.
      + now subst new.
      + now destruct Hq as (d & ->). }
  destruct Hobs as [Hp Hi]. unfold w'. rewrite Htrace.
  rewrite !sent_records_app, !printed_lines_app, !indexed_docs_app, Hp, Hi.
  destruct ending; simpl; rewrite ?app_nil_r; auto.
Qed.

Lemma debug_worker_prints_each_record_witness :
  let env := streaming_env (LogsResponse 200 [invalid_line; []; line_b] EOF)
                           false false in
  let w' := snd (stream_logs debug_globals env (lit "abc123") (lit "/web")
                             initial_world) in
  exists records,
    sent_records (trace w') = records
    /\ length records = 2%nat
    /\ printed_lines (trace w') = map debug_line records.
Proof.
  intros env w'.
  destruct (debug_worker_prints_each_record
              debug_globals env (lit "abc123") (lit "/web") initial_world
              200 [invalid_line; []; line_b] EOF)
    as (records & Hsent & Hlen & Hprinted & _).
  - reflexivity.
  - reflexivity.
  - reflexivity.
  - reflexivity.
  - exists records. auto.
Defined.

(** With the indexing sink and a built client, every record a worker hands
    over is either stored by the backend or answered by one logged error,
    never both and never neither; the stored documents are records of the
    stream in stream order, each under an index that starts with the
    configured prefix and a hyphen; nothing is printed; and if the backend
    never fails every record is stored. *)
Theorem every_record_is_indexed_or_logged
    (g : globals) (env : environment) (container_id name : str) (w : world)
    (status : Z) (lines : list bytes) (ending : stream_end) (c : unit) :
  AGENT_MODE g ≠ lit "local" ->
  opensearch_client g = Some c ->
  container_logs env container_id (tick w) = LogsResponse status lines ending ->
  (400 <=? status) && (status <? 600) = false ->
  let w' := snd (stream_logs g env container_id name w) in
  let failed := "Failed to index log line: %s"%string in
  exists records stored,
    sent_records (trace w') = sent_records (trace w) ++ records
    /\ length records = length (List.filter nonempty_line lines)
    /\ indexed_docs (trace w') = indexed_docs (trace w) ++ stored
    /\ map snd stored `sublist_of` records
    /\ Forall (fun id => exists date,
                 fst id = OPENSEARCH_INDEX_PREFIX g ++ lit "-" ++ date) stored
    /\ (length stored + logged_errors failed (trace w')
        = logged_errors failed (trace w) + length records)%nat
    /\ printed_lines (trace w') = printed_lines (trace w)
    /\ ((forall n, index_raises env n = false) -> map snd stored = records).
Proof.
  intros Hmode Hc Hr Hs w' failed.
  set (Q := fun (raw : bytes) (new : list event) =>
              match raw with
              | [] => new = []
              | _ :: _ =>
                  exists d,
                    (new = [EvSendLog d; EvLog ERROR failed]
                     /\ exists n, index_raises env n = true)
                    \/ exists date,
                         new = [EvSendLog d;
                                EvIndex (OPENSEARCH_INDEX_PREFIX g ++ lit "-" ++ date) d]
              end).
  destruct (stream_logs_per_line g env container_id name Q w status lines ending)
    as (news & Htrace & Hall); [| exact Hr | exact Hs |].
  { intros raw w0. destruct raw as [|b raw].
    - split; [reflexivity|]. exists []. split; [| reflexivity].
      simpl. now rewrite app_nil_r.
    - rewrite forward_line_nonempty by discriminate.
      rewrite (send_log_indexing g env _ _ c Hmode Hc). cbv zeta.
      split; [reflexivity|]. eexists. split; [reflexivity|]. unfold Q.
      eexists. destruct (index_raises env _) eqn:E; [left | right]; eauto. }
  exists (sent_records (concat news)), (indexed_docs (concat news)).
  assert (Hobs :
    map snd (indexed_docs (concat news)) `sublist_of` sent_records (concat news)
    /\ Forall (fun id => exists date,
                 fst id = OPENSEARCH_INDEX_PREFIX g ++ lit "-" ++ date)
              (indexed_docs (concat news))
    /\ (length (indexed_docs (concat news)) + logged_errors failed (concat news)
        = length (sent_records (concat news)))%nat
    /\ printed_lines (concat news) = []
    /\ ((forall n, index_raises env n = false) ->
        map snd (indexed_docs (concat news)) = sent_records (concat news))).
  { clear Htrace Hr. induction Hall as [|raw new lines news Hq _ IH].
    - simpl. repeat split; [constructor | constructor].
    - cbn [concat].
      rewrite indexed_docs_app, sent_records_app, printed_lines_app,
        logged_errors_app, map_app, !length_app.
      destruct IH as (IH1 & IH2 & IH3 & IH4 & IH5).
      unfold Q in Hq. destruct raw.
      + subst new. simpl. auto.
      + destruct Hq as (d & [(-> & n & Hn)|(date & ->)]); simpl.
        * split; [now apply sublist_cons|]. split; [exact IH2|].
          split; [unfold logged_errors in *; simpl; lia|]. split; [exact IH4|].
          intros Hnever. rewrite Hnever in Hn. discriminate.
        * split; [now apply sublist_skip|].
          split; [constructor; [now exists date | exact IH2]|].
          split; [unfold logged_errors in *; simpl; lia|]. split; [exact IH4|].
          intros Hnever. now rewrite IH5. }
  assert (Hcount : length (sent_records (concat news))
                   = length (List.filter nonempty_line lines)).
  { apply (nonempty_lines_count Q (fun t => length (sent_records t)));
      [| reflexivity | | exact Hall].
    - intros t1 t2. now rewrite sent_records_app, length_app.
    - intros raw new Hq. unfold Q in Hq. destruct raw.
      + now subst new.
      + now destruct Hq as (d & [(-> & _)|(date & ->)]). }
  destruct Hobs as (H1 & H2 & H3 & H4 & H5). unfold w'. rewrite Htrace.
  rewrite !sent_records_app, !indexed_docs_app, !printed_lines_app,
    !logged_errors_app, H4.
  destruct ending; simpl; rewrite ?app_nil_r;
    (repeat split; [assumption .. | unfold logged_errors in *; simpl; lia | assumption]).
Qed.

Lemma every_record_is_indexed_or_logged_witness :
  let env := streaming_env (LogsResponse 200 [invalid_line; []; line_b] EOF)
                           false false in
  let w' := snd (stream_logs indexing_globals env (lit "abc123") (lit "/web")
                             initial_world) in
  exists records stored,
    sent_records (trace w') = records
    /\ indexed_docs (trace w') = stored
    /\ map snd stored = records
    /\ length records = 2%nat.
Proof.
  intros env w'.
  destruct (every_record_is_indexed_or_logged
              indexing_globals env (lit "abc123") (lit "/web") initial_world
              200 [invalid_line; []; line_b] EOF tt)
    as (records & stored & Hsent & Hlen & Hstored & _ & _ & _ & _ & Hall).
  - discriminate.
  - reflexivity.
  - reflexivity.
  - reflexivity.
  - exists records, stored. repeat split; auto.
Defined.

(** ** Requests that fail *)

(** When the log request cannot be made, or is answered with a 4xx or 5xx
    status, the worker forwards nothing, whatever lines the answer carries:
    it reads no clock, allocates no record, logs the failure and returns. *)
Theorem failed_log_request_forwards_nothing
    (g : globals) (env : environment) (container_id name : str) (w : world) :
  match container_logs env container_id (tick w) with
  | LogsUnreachable => True
  | LogsResponse status _ _ => (400 <=? status) && (status <? 600) = true
  end ->
  stream_logs g env container_id name w
  = (Ok tt,
     {| heap := heap w; pool := pool w;
        trace := trace w ++ [EvLog INFO "Starting log stream for %s (%s)";
                             EvLog ERROR "Error streaming logs for %s (%s): %s";
                             EvLog INFO "Log stream ended for %s (%s)"];
        tick := S (tick w) |}).
Proof.
  intros Hr. unfold stream_logs, bind, try_except, ask, log, emit; simpl.
  destruct (container_logs env container_id (tick w)) as [|status lines ending];
    simpl.
  - unfold add_event, next_tick; simpl. now rewrite <- !app_assoc.
  - unfold raise_for_status. rewrite Hr; simpl.
    unfold add_event, next_tick; simpl. now rewrite <- !app_assoc.
Qed.

Lemma failed_log_request_forwards_nothing_witness :
  let env := streaming_env (LogsResponse 404 [invalid_line; line_b] EOF)
                           false false in
  sent_records
    (trace (snd (stream_logs indexing_globals env (lit "abc123") (lit "/web")
                             initial_world))) = [].
Proof.
  intros env.
  rewrite (failed_log_request_forwards_nothing
             indexing_globals env (lit "abc123") (lit "/web") initial_world).
  - reflexivity.
  - reflexivity.
Defined.

(** ** What the debug sink prints *)

Lemma dict_keys_set_present {V} (d : dict V) k v :
  is_Some (dict_get d k) -> dict_keys (dict_set d k v) = dict_keys d.
Proof.
  unfold dict_keys. induction d as [|[k0 v0] d IH]; simpl.
  - intros [? H]. discriminate.
  - destruct (decide (k0 = k)) as [->|Hne]; simpl; [reflexivity|].
    intros H. now rewrite IH.
Qed.

(** The line the debug sink prints has the keys of the record, in the same
    order; its message is never longer than 314 characters, starts with the
    first 300 characters of the record's message, and is the record's
    message whenever that has at most 300 characters. *)
Theorem debug_line_is_bounded
    (g : globals) (env : environment) (doc : nat) (w : world)
    (d : dict str) (msg : str) :
  AGENT_MODE g = lit "local" ->
  heap w !! doc = Some d ->
  dict_get d (lit "message") = Some msg ->
  print_raises env (tick w) = false ->
  exists line printed,
    trace (snd (send_log g env doc w)) = trace w ++ [EvSendLog d; EvPrint line]
    /\ dict_keys line = dict_keys d
    /\ dict_get line (lit "message") = Some printed
    /\ (length printed <= 314)%nat
    /\ take 300 printed = take 300 msg.
Proof.
  intros Hmode Hdoc Hmsg Hprint.
  rewrite (send_log_debug g env doc w Hmode). cbv zeta. rewrite Hdoc, Hprint.
  cbn [snd trace default from_option id].
  unfold debug_line, dict_get_default. rewrite Hmsg.
  cbn [default from_option id]. destruct (300 <? length msg)%nat eqn:Hlen.
  - apply Nat.ltb_lt in Hlen.
    exists (dict_set d (lit "message") (take 300 msg ++ TRUNCATION_MARKER)),
           (take 300 msg ++ TRUNCATION_MARKER).
    split; [reflexivity | split; [| split; [| split]]].
    + apply dict_keys_set_present. eauto.
    + apply dict_get_set_eq.
    + rewrite length_app, length_take. change (length TRUNCATION_MARKER) with 14%nat.
      lia.
    + rewrite take_app_le by (rewrite length_take; lia).
      now rewrite take_take, Nat.min_id.
  - apply Nat.ltb_ge in Hlen. exists d, msg.
    split; [reflexivity | split; [reflexivity | split; [exact Hmsg | split]]];
      [lia | reflexivity].
Qed.

Lemma debug_line_is_bounded_witness :
  exists line printed,
    trace (snd (send_log debug_globals (quiet_env 3600) 0
                         (world_with (doc_of_as 310))))
      = [EvSendLog (doc_of_as 310); EvPrint line]
    /\ dict_keys line = dict_keys (doc_of_as 310)
    /\ dict_get line (lit "message") = Some printed
    /\ (length printed <= 314)%nat.
Proof.
  destruct (debug_line_is_bounded
              debug_globals (quiet_env 3600) 0 (world_with (doc_of_as 310))
              (doc_of_as 310) (replicate 310 97%N))
    as (line & printed & Htrace & Hkeys & Hget & Hlen & _).
  - reflexivity.
  - reflexivity.
  - reflexivity.
  - reflexivity.
  - exists line, printed. auto.
Defined.

(** A record without a message key is printed as it is: no key is added,
    nothing is cut. *)
Theorem debug_sink_without_message
    (g : globals) (env : environment) (doc : nat) (w : world) (d : dict str) :
  AGENT_MODE g = lit "local" ->
  heap w !! doc = Some d ->
  dict_get d (lit "message") = None ->
  print_raises env (tick w) = false ->
  send_log g env doc w
  = (Ok tt, {| heap := heap w ++ [d]; pool := pool w;
               trace := trace w ++ [EvSendLog d; EvPrint d];
               tick := S (tick w) |}).
Proof.
  intros Hmode Hdoc Hmsg Hprint.
  rewrite (send_log_debug g env doc w Hmode). cbv zeta. rewrite Hdoc, Hprint.
  cbn [default from_option id]. unfold debug_line, dict_get_default.
  now rewrite Hmsg.
Qed.

Lemma debug_sink_without_message_witness :
  trace (snd (send_log debug_globals (quiet_env 0) 0
                       (world_with [(lit "node", lit "podman-node")])))
  = [EvSendLog [(lit "node", lit "podman-node")];
     EvPrint [(lit "node", lit "podman-node")]].
Proof.
  rewrite (debug_sink_without_message debug_globals (quiet_env 0) 0
             (world_with [(lit "node", lit "podman-node")])
             [(lit "node", lit "podman-node")]); reflexivity.
Defined.

(** ** Listing: containers without names *)

(** A container whose [Id] is a non-empty string and whose names are
    missing or an empty array is listed under [Id], whatever its [ID] key
    holds, and named by the first 12 characters of [Id] (the whole
    identifier when it is shorter), provided no later object of the
    response repeats the identifier. *)
Theorem nameless_container_is_named_by_short_id
    (env : environment) (w : world) (status : Z)
    (cs1 cs2 : list container_obj) (c : container_obj) (cid : str) :
  containers_json env (tick w) = ListResponse status (Some (cs1 ++ c :: cs2)) ->
  (400 <=? status) && (status <? 600) = false ->
  Id c = Some cid ->
  cid ≠ [] ->
  Names c = None \/ Names c = Some [] ->
  (forall c', c' ∈ cs2 -> effective_id c' ≠ Some cid) ->
  exists out short,
    fst (list_containers env w) = Ok out
    /\ dict_get out cid = Some short
    /\ short = take 12 cid
    /\ (length short <= 12)%nat
    /\ ((length cid <= 12)%nat -> short = cid).
Proof.
  intros Hr Hs HId Hne Hnames Hlater.
  assert (Heff : effective_id c = Some cid).
  { unfold effective_id, py_or. rewrite HId. now destruct cid. }
  rewrite (list_containers_ok env w status _ Hr Hs).
  eexists _, (take 12 cid). split; [reflexivity|]. split; [| split; [reflexivity | split]].
  - cbn [fst]. rewrite fold_left_app. simpl.
    rewrite containers_fold_get_other by exact Hlater.
    rewrite (add_container_truthy _ c cid Heff Hne), dict_get_set_eq.
    unfold recorded_name. now destruct Hnames as [-> | ->].
  - rewrite length_take. lia.
  - intros Hlen. now apply take_ge.
Qed.

Lemma nameless_container_is_named_by_short_id_witness :
  exists out,
    fst (list_containers
           (listing_env (ListResponse 200 (Some [nameless_container])))
           initial_world) = Ok out
    /\ dict_get out (lit "0123456789abcdef") = Some (lit "0123456789ab").
Proof.
  destruct (nameless_container_is_named_by_short_id
              (listing_env (ListResponse 200 (Some [nameless_container])))
              initial_world 200 [] [] nameless_container (lit "0123456789abcdef"))
    as (out & short & Hout & Hget & -> & _).
  - reflexivity.
  - reflexivity.
  - reflexivity.
  - discriminate.
  - now left.
  - intros c' Hc'. inversion Hc'.
  - exists out. auto.
Defined.

(** ** One index per local day *)

Lemma all_from_spec k check :
  forall lo, all_from k lo check = true ->
  forall z, lo <= z < lo + 2 ^ Z.of_nat k -> check z = true.
Proof.
  induction k as [|k IH]; intros lo H z Hz.
  - simpl in *. assert (z = lo) as -> by lia. exact H.
  - cbn [all_from] in H. apply andb_prop in H as [H1 H2].
    rewrite Nat2Z.inj_succ, Z.pow_succ_r in Hz by lia.
    destruct (Z.lt_ge_cases z (lo + 2 ^ Z.of_nat k)) as [Hlt|Hge].
    + apply (IH lo H1). lia.
    + apply (IH _ H2). lia.
Qed.

(** Checked by evaluation on the 146097 days of an era. *)
Lemma day_of_year_checked :
  all_from 17 0 (fun z => (0 <=? day_of_year z) && (day_of_year z <=? 365))
  && all_from 14 131072
       (fun z => (146096 <? z)
                 || ((0 <=? day_of_year z) && (day_of_year z <=? 365)))
  = true.
Proof. vm_cast_no_check (eq_refl true). Qed.

Lemma day_of_year_range doe :
  0 <= doe <= 146096 -> 0 <= day_of_year doe <= 365.
Proof.
  intros H. pose proof day_of_year_checked as Hc.
  apply andb_prop in Hc as [Hlow Hhigh].
  destruct (Z.lt_ge_cases doe 131072) as [Hlt|Hge].
  - pose proof (all_from_spec 17 _ 0 Hlow doe) as Hd. cbv beta in Hd.
    assert (Hr : 0 <= doe < 0 + 2 ^ Z.of_nat 17)
      by (change (2 ^ Z.of_nat 17) with 131072; lia).
    apply Hd, andb_prop in Hr as [H1 H2].
    apply Z.leb_le in H1. apply Z.leb_le in H2. lia.
  - pose proof (all_from_spec 14 _ 131072 Hhigh doe) as Hd. cbv beta in Hd.
    assert (Hr : 131072 <= doe < 131072 + 2 ^ Z.of_nat 14)
      by (change (2 ^ Z.of_nat 14) with 16384; lia).
    apply Hd, orb_prop in Hr as [Hr|Hr].
    + apply Z.ltb_lt in Hr. lia.
    + apply andb_prop in Hr as [H1 H2].
      apply Z.leb_le in H1. apply Z.leb_le in H2. lia.
Qed.

(** From year 0 on, [civil_from_days] gives a month from 1 to 12 and a day
    from 1 to 31. *)
Lemma civil_from_days_range days y m d :
  -719468 <= days -> civil_from_days days = (y, m, d) ->
  0 <= y /\ 1 <= m <= 12 /\ 1 <= d <= 31.
Proof.
  unfold civil_from_days. intros Hd H.
  set (z := days + 719468) in *.
  set (era := z / 146097) in *.
  set (doe := z - era * 146097) in *.
  change (doe - (365 * ((doe - doe / 1460 + doe / 36524 - doe / 146096) / 365)
                 + (doe - doe / 1460 + doe / 36524 - doe / 146096) / 365 / 4
                 - (doe - doe / 1460 + doe / 36524 - doe / 146096) / 365 / 100))
    with (day_of_year doe) in H.
  set (yoe := (doe - doe / 1460 + doe / 36524 - doe / 146096) / 365) in *.
  set (doy := day_of_year doe) in *.
  set (mp := (5 * doy + 2) / 153) in *.
  injection H as Hy Hm Hdd.
  assert (Hera : 0 <= era) by (apply Z.div_pos; lia).
  assert (Hdoe : 0 <= doe <= 146096).
  { unfold doe, era. pose proof (Z.mod_pos_bound z 146097 ltac:(lia)) as Hmod.
    rewrite Z.mod_eq in Hmod by lia. lia. }
  assert (Hyoe : 0 <= yoe).
  { unfold yoe. apply Z.div_pos; [| lia].
    pose proof (Z.div_le_upper_bound doe 1460 doe ltac:(lia) ltac:(nia)).
    pose proof (Z.div_pos doe 36524 ltac:(lia) ltac:(lia)).
    assert (doe / 146096 <= 1)
      by (apply Z.div_le_upper_bound; lia).
    assert (doe / 146096 = 1 -> 4 <= doe / 36524).
    { intros Heq. apply Z.div_le_lower_bound; [lia|].
      assert (146096 <= doe); [| lia].
      destruct (Z.lt_ge_cases doe 146096) as [Hlt|]; [| assumption].
      rewrite Z.div_small in Heq by lia. discriminate. }
    lia. }
  assert (Hdoy : 0 <= doy <= 365) by (apply day_of_year_range; exact Hdoe).
  assert (Hmp : 0 <= mp <= 11).
  { unfold mp. split; [apply Z.div_pos; lia|].
    apply Z.lt_succ_r. apply Z.div_lt_upper_bound; lia. }
  assert (Hday : 0 <= (153 * mp + 2) / 5 <= doy /\ doy - (153 * mp + 2) / 5 <= 30).
  { assert (Hlow : 153 * mp <= 5 * doy + 2)
      by (unfold mp; apply Z.mul_div_le; lia).
    assert (Hup : 5 * doy + 2 < 153 * (mp + 1)).
    { unfold mp. pose proof (Z.mod_pos_bound (5 * doy + 2) 153 ltac:(lia)) as Hmod.
      rewrite Z.mod_eq in Hmod by lia. lia. }
    assert (H5 : 5 * ((153 * mp + 2) / 5) <= 153 * mp + 2)
      by (apply Z.mul_div_le; lia).
    assert (H5' : 153 * mp + 2 < 5 * ((153 * mp + 2) / 5 + 1)).
    { pose proof (Z.mod_pos_bound (153 * mp + 2) 5 ltac:(lia)) as Hmod.
      rewrite Z.mod_eq in Hmod by lia. lia. }
    assert (0 <= (153 * mp + 2) / 5) by (apply Z.div_pos; lia).
    lia. }
  split; [| split].
  - rewrite <- Hy. destruct (_ <=? 2); lia.
  - rewrite <- Hm. destruct (mp <? 10) eqn:E;
      [apply Z.ltb_lt in E | apply Z.ltb_ge in E]; lia.
  - rewrite <- Hdd. lia.
Qed.

Lemma date_of_broken_down secs off :
  date_of (broken_down secs off) = civil_from_days ((secs + off) / 86400).
Proof.
  unfold broken_down, date_of.
  now destruct (civil_from_days ((secs + off) / 86400)) as [[y m] d].
Qed.

(** Two records written by the indexing sink go to the same index exactly
    when they are written on the same local calendar day (for writes at
    local times from 1970 on): one index per local day. *)
Theorem one_index_per_local_day
    (g : globals) (env : environment) (doc1 doc2 : nat) (w1 w2 : world)
    (c : unit) :
  AGENT_MODE g ≠ lit "local" ->
  opensearch_client g = Some c ->
  index_raises env (S (tick w1)) = false ->
  index_raises env (S (tick w2)) = false ->
  let now1 := clock env (tick w1) in
  let now2 := clock env (tick w2) in
  0 <= epoch now1 + utcoffset now1 ->
  0 <= epoch now2 + utcoffset now2 ->
  exists i1 i2 d1 d2,
    indexed_docs (trace (snd (send_log g env doc1 w1)))
      = indexed_docs (trace w1) ++ [(i1, d1)]
    /\ indexed_docs (trace (snd (send_log g env doc2 w2)))
       = indexed_docs (trace w2) ++ [(i2, d2)]
    /\ (i1 = i2 <-> date_of (localtime now1) = date_of (localtime now2)).
Proof.
  intros Hmode Hc Hok1 Hok2 now1 now2 Hpos1 Hpos2.
  rewrite !(send_log_indexing g env _ _ c Hmode Hc). cbv zeta.
  cbn [snd trace]. rewrite Hok1, Hok2, !indexed_docs_app.
  eexists _, _, _, _. split; [reflexivity | split; [reflexivity|]].
  fold now1 now2. split.
  - intros Heq. apply app_inv_head in Heq. apply (app_inv_head (lit "-")) in Heq.
    unfold localtime in *. rewrite !date_of_broken_down in *.
    destruct (civil_from_days ((epoch now1 + utcoffset now1) / 86400))
      as [[y1 m1] dd1] eqn:E1.
    destruct (civil_from_days ((epoch now2 + utcoffset now2) / 86400))
      as [[y2 m2] dd2] eqn:E2.
    apply civil_from_days_range in E1; [| apply Z.div_le_lower_bound; lia].
    apply civil_from_days_range in E2; [| apply Z.div_le_lower_bound; lia].
    apply yyyy_mm_dd_inj; [lia .. | exact Heq].
  - now intros ->.
Qed.

Lemma one_index_per_local_day_witness :
  exists i1 i2 d1 d2,
    indexed_docs (trace (snd (send_log indexing_globals (quiet_env 0) 0
                                       (world_with hello_doc))))
      = [(i1, d1)]
    /\ indexed_docs (trace (snd (send_log indexing_globals (quiet_env 0) 0
                                          (world_with (doc_of_as 3)))))
       = [(i2, d2)]
    /\ i1 = i2.
Proof.
  destruct (one_index_per_local_day indexing_globals (quiet_env 0) 0 0
              (world_with hello_doc) (world_with (doc_of_as 3)) tt)
    as (i1 & i2 & d1 & d2 & H1 & H2 & Hiff).
  - discriminate.
  - reflexivity.
  - reflexivity.
  - reflexivity.
  - vm_compute. discriminate.
  - vm_compute. discriminate.
  - exists i1, i2, d1, d2. split; [exact H1 | split; [exact H2|]].
    apply Hiff. reflexivity.
Defined.

(** * Properties of the SBOM agent *)

(** ** Stripping slashes *)

Lemma lstrip_spec c s :
  exists n, s = replicate n c ++ Dtrack.lstrip c s
            /\ head (Dtrack.lstrip c s) ≠ Some c.
Proof.
  induction s as [|a s IH]; simpl.
  - exists 0%nat. split; [reflexivity | discriminate].
  - destruct (a =? c)%N eqn:E.
    + apply N.eqb_eq in E as ->. destruct IH as (n & Hs & Hhead).
      exists (S n). split; [simpl; now f_equal | exact Hhead].
    + exists 0%nat. split; [reflexivity|]. simpl. intros [= ->].
      now rewrite N.eqb_refl in E.
Qed.

Lemma rstrip_spec c s :
  exists n, s = Dtrack.rstrip c s ++ replicate n c
            /\ last (Dtrack.rstrip c s) ≠ Some c.
Proof.
  unfold Dtrack.rstrip. destruct (lstrip_spec c (reverse s)) as (n & Hs & Hhead).
  exists n. split.
  - apply (f_equal reverse) in Hs.
    rewrite reverse_involutive, reverse_app, reverse_replicate in Hs. exact Hs.
  - now rewrite last_reverse.
Qed.

(** The agent starts only when its three required settings are non-empty,
    and then works with [DT_URL] less all its trailing slashes, so that the
    URLs it builds have a single slash before [api]. *)
Theorem startup_strips_trailing_slashes (url key project : option str) :
  match Dtrack.startup url key project with
  | Ok (dt_url, dt_key, dt_project) =>
      (exists n, url = Some (dt_url ++ replicate n 47%N))
      /\ last dt_url ≠ Some 47%N
      /\ key = Some dt_key /\ dt_key ≠ []
      /\ project = Some dt_project /\ dt_project ≠ []
  | Raise e =>
      e = Exception "SystemExit"
      /\ (truthy_opt_str url = false \/ truthy_opt_str key = false
          \/ truthy_opt_str project = false)
  end.
Proof.
  unfold Dtrack.startup.
  destruct url as [[|a u]|], key as [[|b k]|], project as [[|c p]|]; simpl;
    try (split; [reflexivity | auto]).
  destruct (rstrip_spec 47 (a :: u)) as (n & Hs & Hlast).
  split; [exists n; congruence|]. repeat split; try assumption; discriminate.
Qed.

Example startup_examples :
  Dtrack.startup (Some (lit "https://dtrack.example//")) (Some (lit "k"))
                 (Some (lit "shop"))
  = Ok (lit "https://dtrack.example", lit "k", lit "shop")
  /\ Dtrack.startup (Some (lit "https://dtrack.example")) None (Some (lit "shop"))
     = Raise (Exception "SystemExit").
Proof. split; reflexivity. Qed.

(** ** Traces of the SBOM agent *)

Lemma requests_app t1 t2 :
  Dtrack.requests (t1 ++ t2) = Dtrack.requests t1 ++ Dtrack.requests t2.
Proof. apply omap_app. Qed.

Lemma commands_app t1 t2 :
  Dtrack.commands (t1 ++ t2) = Dtrack.commands t1 ++ Dtrack.commands t2.
Proof. apply omap_app. Qed.

Lemma sleeps_app t1 t2 :
  Dtrack.sleeps (t1 ++ t2) = Dtrack.sleeps t1 ++ Dtrack.sleeps t2.
Proof. apply omap_app. Qed.

Lemma only_printed_refl w : only_printed w w.
Proof. now repeat split. Qed.

Lemma only_printed_trans w1 w2 w3 :
  only_printed w1 w2 -> only_printed w2 w3 -> only_printed w1 w3.
Proof.
  intros (A1 & B1 & C1 & D1 & E1) (A2 & B2 & C2 & D2 & E2).
  repeat split; congruence.
Qed.

Lemma log_only_prints env fmt w :
  exists w', Dtrack.log env fmt w = (Ok tt, w') /\ only_printed w w'.
Proof.
  eexists. split; [reflexivity|]. unfold only_printed; simpl.
  rewrite requests_app, commands_app, sleeps_app; simpl.
  now rewrite !app_nil_r.
Qed.

Lemma for_each_log_only_prints {A} env (fmt : A -> option string) xs w :
  exists w',
    Dtrack.for_each
      (fun x => match fmt x with
                | Some f => Dtrack.log env f
                | None => Dtrack.ret tt
                end) xs w = (Ok tt, w')
    /\ only_printed w w'.
Proof.
  revert w. induction xs as [|x xs IH]; intros w.
  - exists w. split; [reflexivity | apply only_printed_refl].
  - cbn [Dtrack.for_each]. unfold Dtrack.bind.
    destruct (fmt x) as [f|].
    + destruct (log_only_prints env f w) as (w1 & -> & H1).
      destruct (IH w1) as (w' & Hrun & H2). exists w'.
      split; [exact Hrun | now apply (only_printed_trans w w1 w')].
    + apply IH.
Qed.

Lemma check_output_eq env c w :
  Dtrack.check_output env c w
  = (match Dtrack.subprocess env (Dtrack.process_runs w) with
     | Dtrack.NotFound => Raise (Exception "FileNotFoundError")
     | Dtrack.ExitNonZero => Raise (Exception "CalledProcessError")
     | Dtrack.Output parsed => Ok parsed
     end,
     Dtrack.World (Dtrack.trace w ++ [Dtrack.Ran c]) (Dtrack.clock_reads w)
                  (Dtrack.http_calls w) (S (Dtrack.process_runs w))).
Proof.
  unfold Dtrack.check_output, Dtrack.bind, Dtrack.emit; simpl.
  now destruct (Dtrack.subprocess env (Dtrack.process_runs w)).
Qed.

Lemma request_eq env v e p w :
  Dtrack.request env v e p w
  = (match Dtrack.http env (Dtrack.http_calls w) with
     | Dtrack.Unreachable => Raise (Exception "ConnectionError")
     | Dtrack.Response status body => Ok (status, body)
     end,
     Dtrack.World (Dtrack.trace w ++ [Dtrack.Requested v e p])
                  (Dtrack.clock_reads w) (S (Dtrack.http_calls w))
                  (Dtrack.process_runs w)).
Proof.
  unfold Dtrack.request, Dtrack.bind, Dtrack.emit; simpl.
  now destruct (Dtrack.http env (Dtrack.http_calls w)).
Qed.

(** ** Discovering containers *)

Lemma describe_named fields :
  named_container (Dtrack.JObj fields) ->
  Dtrack.describe (Dtrack.JObj fields)
  = Ok (Dtrack.Container
          (default Dtrack.JNull (dict_get fields (lit "Id")))
          (discovered_name fields)
          (default Dtrack.JNull (dict_get fields (lit "Image")))).
Proof.
  intros (fields' & [= <-] & Hnames). unfold Dtrack.describe, discovered_name.
  cbn [Dtrack.py_get Dtrack.rbind].
  destruct Hnames as [-> | (first & rest & ->)]; [reflexivity|].
  now destruct first.
Qed.

Lemma discovered_name_no_slash fields :
  head (discovered_name fields) ≠ Some 47%N.
Proof.
  unfold discovered_name.
  destruct (dict_get fields (lit "Names")) as [[| | | |[|[| | |[|a first]| |] rest]|]|];
    try discriminate.
  destruct (lstrip_spec 47 (a :: first)) as (n & _ & Hhead). exact Hhead.
Qed.

Lemma map_describe_named items :
  Forall named_container items ->
  exists cs,
    Dtrack.map_result Dtrack.describe items = Ok cs
    /\ Forall2
         (fun item c =>
            exists fields,
              item = Dtrack.JObj fields
              /\ Dtrack.c_name c = discovered_name fields
              /\ Dtrack.c_id c = default Dtrack.JNull (dict_get fields (lit "Id"))
              /\ Dtrack.c_image c
                 = default Dtrack.JNull (dict_get fields (lit "Image")))
         items cs.
Proof.
  induction 1 as [|item items Hitem _ (cs & Hcs & Hall)].
  - exists []. split; [reflexivity | constructor].
  - pose proof Hitem as (fields & -> & _).
    eexists (_ :: cs). cbn [Dtrack.map_result].
    rewrite (describe_named fields Hitem), Hcs. split; [reflexivity|].
    constructor; [| exact Hall]. exists fields. simpl. auto.
Qed.

(** When the runtime's list is an array of objects whose names are absent
    or start with a string, [discover_containers] returns one entry per
    object, in order, with the object's [Id] and [Image] (or None); the
    entry's name is the object's first name less all its leading slashes,
    or "unknown" when the names are absent or the first name is empty; it
    never begins with a slash.  The agent runs curl once for this and makes
    no request. *)
Theorem discovered_names_have_no_leading_slash
    (env : Dtrack.environment) (w : Dtrack.world) (items : list Dtrack.json) :
  Dtrack.subprocess env (Dtrack.process_runs w)
    = Dtrack.Output (Some (Dtrack.JArr items)) ->
  Forall named_container items ->
  exists cs w',
    Dtrack.discover_containers env w = (Ok cs, w')
    /\ Forall2
         (fun item c =>
            exists fields,
              item = Dtrack.JObj fields
              /\ Dtrack.c_name c = discovered_name fields
              /\ head (Dtrack.c_name c) ≠ Some 47%N
              /\ Dtrack.c_id c = default Dtrack.JNull (dict_get fields (lit "Id"))
              /\ Dtrack.c_image c
                 = default Dtrack.JNull (dict_get fields (lit "Image")))
         items cs
    /\ Dtrack.commands (Dtrack.trace w')
       = Dtrack.commands (Dtrack.trace w) ++ [Dtrack.Curl]
    /\ Dtrack.requests (Dtrack.trace w') = Dtrack.requests (Dtrack.trace w).
Proof.
  intros Hsub Hnamed.
  destruct (map_describe_named items Hnamed) as (cs & Hcs & Hall).
  unfold Dtrack.discover_containers, Dtrack.bind, Dtrack.try_except.
  rewrite check_output_eq, Hsub.
  cbn [Dtrack.json_loads Dtrack.ret Dtrack.lift Dtrack.py_iter].
  rewrite Hcs.
  set (w1 := Dtrack.World _ _ _ _).
  destruct (log_only_prints env "Discovered {len(containers)} containers:" w1)
    as (w2 & -> & H2).
  destruct (for_each_log_only_prints env
              (fun _ : Dtrack.container => Some "  - {c['name']} ({c['image']})"%string)
              cs w2) as (w3 & Hfor & H3).
  cbv beta iota in Hfor. unfold Dtrack.bind in Hfor. rewrite Hfor.
  exists cs, w3. split; [reflexivity|].
  split.
  - eapply Forall2_impl; [exact Hall|].
    intros item c (fields & -> & Hname & Hid & Himage). exists fields.
    repeat split; try assumption. rewrite Hname. apply discovered_name_no_slash.
  - destruct (only_printed_trans w1 w2 w3 H2 H3) as (Hreq & Hcmd & _).
    rewrite Hreq, Hcmd. unfold w1; simpl.
    rewrite requests_app, commands_app; simpl. now rewrite app_nil_r.
Qed.

Lemma discovered_names_have_no_leading_slash_witness :
  exists cs w',
    Dtrack.discover_containers
      (dtrack_env (Dtrack.Output (Some (Dtrack.JArr [web_entry])))
                  (always Dtrack.Unreachable))
      Dtrack.initial_world = (Ok cs, w')
    /\ map Dtrack.c_name cs = [lit "web"].
Proof.
  destruct (discovered_names_have_no_leading_slash
              (dtrack_env (Dtrack.Output (Some (Dtrack.JArr [web_entry])))
                          (always Dtrack.Unreachable))
              Dtrack.initial_world [web_entry])
    as (cs & w' & Hrun & Hall & _).
  - reflexivity.
  - constructor; [| constructor]. eexists. split; [reflexivity|].
    right. eexists _, _. reflexivity.
  - exists cs, w'. split; [exact Hrun|].
    vm_compute in Hrun. now injection Hrun as <- _.
Defined.

Lemma map_result_raises {A B} (f : A -> result B) good x rest e :
  Forall (fun y => exists b, f y = Ok b) good ->
  f x = Raise e ->
  Dtrack.map_result f (good ++ x :: rest) = Raise e.
Proof.
  intros Hgood Hx. induction Hgood as [|y good (b & Hy) _ IH]; simpl.
  - now rewrite Hx.
  - now rewrite Hy, IH.
Qed.

(** A container object whose names are an empty array makes
    [discover_containers] raise IndexError: the exception is not caught
    there nor in the scan cycle, so it ends the agent's loop. *)
Theorem empty_names_array_ends_the_agent
    (cfg : Dtrack.config) (env : Dtrack.environment) (url_ok : str -> bool)
    (hostname : str) (parent_uuid : Dtrack.json) (w : Dtrack.world)
    (good rest : list Dtrack.json) (fields : list (str * Dtrack.json)) :
  Dtrack.subprocess env (Dtrack.process_runs w)
    = Dtrack.Output (Some (Dtrack.JArr (good ++ Dtrack.JObj fields :: rest))) ->
  Forall named_container good ->
  dict_get fields (lit "Names") = Some (Dtrack.JArr []) ->
  fst (Dtrack.discover_containers env w) = Raise (Exception "IndexError")
  /\ fst (Dtrack.scan_cycle cfg env url_ok hostname parent_uuid w)
     = Raise (Exception "IndexError")
  /\ forall cycles,
       fst (Dtrack.scan_cycles cfg env url_ok hostname parent_uuid (S cycles) w)
       = Raise (Exception "IndexError").
Proof.
  intros Hsub Hgood Hnames.
  assert (Hmap : Dtrack.map_result Dtrack.describe
                   (good ++ Dtrack.JObj fields :: rest)
                 = Raise (Exception "IndexError")).
  { apply map_result_raises.
    - eapply Forall_impl; [exact Hgood|]. intros item Hitem.
      pose proof Hitem as (f & -> & _). rewrite (describe_named f Hitem). eauto.
    - unfold Dtrack.describe. cbn [Dtrack.py_get Dtrack.rbind].
      now rewrite Hnames. }
  assert (Hdisc : forall w0,
            Dtrack.process_runs w0 = Dtrack.process_runs w ->
            fst (Dtrack.discover_containers env w0) = Raise (Exception "IndexError")).
  { intros w0 Hw0.
    unfold Dtrack.discover_containers, Dtrack.bind, Dtrack.try_except.
    rewrite check_output_eq, Hw0, Hsub.
    cbn [Dtrack.json_loads Dtrack.ret Dtrack.lift Dtrack.py_iter].
    now rewrite Hmap. }
  assert (Hcycle : fst (Dtrack.scan_cycle cfg env url_ok hostname parent_uuid w)
                   = Raise (Exception "IndexError")).
  { unfold Dtrack.scan_cycle. unfold Dtrack.bind at 1.
    destruct (log_only_prints env "Starting scan cycle" w)
      as (w1 & -> & (_ & _ & _ & _ & Hproc)).
    unfold Dtrack.bind at 1. specialize (Hdisc w1 Hproc).
    destruct (Dtrack.discover_containers env w1) as [r w2].
    simpl in Hdisc. now subst r. }
  split; [apply Hdisc; reflexivity | split; [exact Hcycle|]].
  intros cycles. cbn [Dtrack.scan_cycles]. unfold Dtrack.bind.
  destruct (Dtrack.scan_cycle cfg env url_ok hostname parent_uuid w) as [r w2].
  simpl in Hcycle. now subst r.
Qed.

Lemma empty_names_array_ends_the_agent_witness :
  fst (Dtrack.discover_containers
         (dtrack_env (Dtrack.Output (Some (Dtrack.JArr [web_entry; unnamed_entry])))
                     (always Dtrack.Unreachable))
         Dtrack.initial_world)
  = Raise (Exception "IndexError").
Proof.
  apply (empty_names_array_ends_the_agent
           dtrack_config
           (dtrack_env (Dtrack.Output (Some (Dtrack.JArr [web_entry; unnamed_entry])))
                       (always Dtrack.Unreachable))
           (fun _ => true) (lit "host1") (Dtrack.JStr (lit "uuid-0001"))
           Dtrack.initial_world [web_entry] []
           [(lit "Id", Dtrack.JStr (lit "def456")); (lit "Names", Dtrack.JArr [])]).
  - reflexivity.
  - constructor; [| constructor]. eexists. split; [reflexivity|].
    right. eexists _, _. reflexivity.
  - reflexivity.
Defined.



(** ** Sanitizing licenses *)

Lemma scan_licenses_chooses url_ok lics :
  Dtrack.rbind (Dtrack.scan_licenses url_ok lics) (fun r => Ok (fst r))
  = chosen_license lics.
Proof.
  induction lics as [|lic rest IH]; [reflexivity|].
  cbn [Dtrack.scan_licenses chosen_license].
  assert (Hcont : forall lic',
    Dtrack.rbind
      (Dtrack.rbind (Dtrack.scan_licenses url_ok rest)
                    (fun r => Ok (fst r, lic' :: snd r)))
      (fun r => Ok (fst r))
    = chosen_license rest).
  { intros lic'. rewrite <- IH.
    now destruct (Dtrack.scan_licenses url_ok rest) as [[v l]|e]. }
  unfold offered, bad_url.
  destruct lic as [| | | | |fields]; try apply Hcont.
  destruct (dict_get fields (lit "expression")) as [[| | |expr| |]|];
    try reflexivity;
    (destruct (dict_get fields (lit "license")) as [[| | | | |lic_obj]|];
     try apply Hcont;
     destruct (dict_get lic_obj (lit "id")) as [id|]; [reflexivity|];
     destruct (dict_get lic_obj (lit "name")) as [name|]; [reflexivity|];
     destruct (dict_get lic_obj (lit "url")) as [[| | |url| |]|];
     try reflexivity; try apply Hcont;
     destruct (url_ok url); apply Hcont).
Qed.

Lemma sanitize_component_eq url_ok fields :
  Dtrack.sanitize_component url_ok (Dtrack.JObj fields)
  = match dict_get fields (lit "licenses") with
    | None => Ok (Dtrack.JObj fields)
    | Some licenses =>
        Dtrack.rbind (Dtrack.py_iter licenses) (fun lics =>
        Dtrack.rbind (chosen_license lics) (fun choice =>
          Ok (Dtrack.JObj (sanitized_fields fields choice))))
    end.
Proof.
  unfold Dtrack.sanitize_component. cbn [Dtrack.py_in Dtrack.py_item Dtrack.rbind].
  destruct (dict_get fields (lit "licenses")) as [licenses|]; [| reflexivity].
  cbn [negb Dtrack.rbind]. destruct (Dtrack.py_iter licenses) as [lics|e];
    [| reflexivity].
  cbn [Dtrack.rbind]. rewrite <- (scan_licenses_chooses url_ok).
  destruct (Dtrack.scan_licenses url_ok lics) as [[v l]|e]; [| reflexivity].
  simpl. now destruct v.
Qed.

Lemma sanitize_component_any_pattern url_ok1 url_ok2 c :
  Dtrack.sanitize_component url_ok1 c = Dtrack.sanitize_component url_ok2 c.
Proof.
  destruct c as [| | | | |fields]; try reflexivity.
  now rewrite !sanitize_component_eq.
Qed.

Lemma map_result_ext {A B} (f g : A -> result B) xs :
  (forall x, f x = g x) -> Dtrack.map_result f xs = Dtrack.map_result g xs.
Proof.
  intros Hfg. induction xs as [|x xs IH]; [reflexivity|].
  simpl. now rewrite Hfg, IH.
Qed.

(** The URL pattern of [sanitize_licenses] has no bearing on its result:
    whatever the pattern accepts, the sanitized document is the same (and
    so is the exception, when one is raised).  The only thing the pattern
    decides is the removal of a url from a license entry that the function
    then discards with the component's old licenses. *)
Theorem url_pattern_is_immaterial
    (url_ok1 url_ok2 : str -> bool) (bom : Dtrack.json) :
  Dtrack.sanitize_licenses url_ok1 bom = Dtrack.sanitize_licenses url_ok2 bom.
Proof.
  unfold Dtrack.sanitize_licenses, Dtrack.for_components.
  destruct (Dtrack.py_get bom (lit "components") (Dtrack.JArr [])) as [cs|e];
    [| reflexivity].
  cbn [Dtrack.rbind]. destruct (Dtrack.py_iter cs) as [items|e]; [| reflexivity].
  cbn [Dtrack.rbind].
  now rewrite (map_result_ext _ _ items
                 (sanitize_component_any_pattern url_ok1 url_ok2)).
Qed.

Lemma chosen_license_first skipped lic rest e :
  Forall (fun l => offered l = None /\ bad_url l = false) skipped ->
  offered lic = Some e ->
  chosen_license (skipped ++ lic :: rest) = Ok (Some (Dtrack.expression_of e)).
Proof.
  intros Hskip Hlic. induction Hskip as [|l skipped [Hoff Hbad] _ IH]; simpl.
  - now rewrite Hlic.
  - now rewrite Hoff, Hbad.
Qed.

Lemma chosen_license_none lics :
  Forall (fun l => offered l = None /\ bad_url l = false) lics ->
  chosen_license lics = Ok None.
Proof.
  induction 1 as [|l lics [Hoff Hbad] _ IH]; simpl; [reflexivity|].
  now rewrite Hoff, Hbad.
Qed.

(** The first license entry that offers something decides a component's
    licenses: they become the single expression it offers (its expression
    if that is a string, else its license id, else its license name), the
    entries before it that offer nothing being skipped.  If no entry offers
    anything the licenses key is removed. *)
Theorem first_offer_decides_the_license
    (url_ok : str -> bool) (fields : list (str * Dtrack.json))
    (lics : list Dtrack.json) :
  dict_get fields (lit "licenses") = Some (Dtrack.JArr lics) ->
  Forall (fun l => bad_url l = false) lics ->
  exists fields',
    Dtrack.sanitize_component url_ok (Dtrack.JObj fields)
      = Ok (Dtrack.JObj fields')
    /\ (forall skipped lic rest e,
          lics = skipped ++ lic :: rest ->
          Forall (fun l => offered l = None) skipped ->
          offered lic = Some e ->
          fields' = dict_set fields (lit "licenses")
                      (Dtrack.JArr [Dtrack.JObj [(lit "expression", e)]]))
    /\ (Forall (fun l => offered l = None) lics ->
        fields' = dict_pop fields (lit "licenses")).
Proof.
  intros Hlics Hgood. rewrite sanitize_component_eq, Hlics.
  cbn [Dtrack.py_iter Dtrack.rbind].
  assert (Hchoice : exists choice, chosen_license lics = Ok choice).
  { clear Hlics. induction Hgood as [|l lics Hbad _ (choice & IH)]; simpl; [eauto|].
    destruct (offered l); [eauto|]. rewrite Hbad. eauto. }
  destruct Hchoice as (choice & Hchoice). rewrite Hchoice. cbn [Dtrack.rbind].
  eexists. split; [reflexivity | split].
  - intros skipped lic rest e -> Hskip Hlic.
    rewrite (chosen_license_first skipped lic rest e) in Hchoice.
    + now injection Hchoice as <-.
    + apply Forall_app in Hgood as [Hgood _].
      rewrite Forall_forall in Hskip, Hgood |- *. auto.
    + exact Hlic.
  - intros Hnone. rewrite chosen_license_none in Hchoice.
    + now injection Hchoice as <-.
    + rewrite Forall_forall in Hnone, Hgood |- *. auto.
Qed.

Lemma first_offer_decides_the_license_witness :
  let mit := Dtrack.JObj [(lit "license", Dtrack.JObj [(lit "name", Dtrack.JStr (lit "MIT License"));
                                                      (lit "id", Dtrack.JStr (lit "MIT"))])] in
  let fields := [(lit "name", Dtrack.JStr (lit "left-pad"));
                 (lit "licenses", Dtrack.JArr [Dtrack.JStr (lit "junk"); mit])] in
  Dtrack.sanitize_component (fun _ => false) (Dtrack.JObj fields)
  = Ok (Dtrack.JObj
          [(lit "name", Dtrack.JStr (lit "left-pad"));
           (lit "licenses",
            Dtrack.JArr [Dtrack.JObj [(lit "expression", Dtrack.JStr (lit "MIT"))]])]).
Proof.
  intros mit fields.
  destruct (first_offer_decides_the_license (fun _ => false) fields
              [Dtrack.JStr (lit "junk"); mit])
    as (fields' & Hrun & Hfirst & _).
  - reflexivity.
  - repeat constructor.
  - rewrite Hrun. do 2 f_equal.
    apply (Hfirst [Dtrack.JStr (lit "junk")] mit [] (Dtrack.JStr (lit "MIT")));
      [reflexivity | repeat constructor | reflexivity].
Defined.

Lemma for_components_present body fields comps :
  dict_get fields (lit "components") = Some (Dtrack.JArr comps) ->
  Dtrack.for_components body (Dtrack.JObj fields)
  = Dtrack.rbind (Dtrack.map_result body comps) (fun items' =>
      Ok (Dtrack.JObj (dict_set fields (lit "components") (Dtrack.JArr items')))).
Proof.
  intros Hc. unfold Dtrack.for_components. cbn [Dtrack.py_get]. rewrite Hc.
  cbn [default from_option id Dtrack.rbind Dtrack.py_iter].
  now destruct (Dtrack.map_result body comps).
Qed.

Lemma map_result_Forall2 {A B} (f : A -> result B) (P : A -> Prop)
    (R : A -> B -> Prop) xs :
  (forall x, P x -> exists y, f x = Ok y /\ R x y) ->
  Forall P xs ->
  exists ys, Dtrack.map_result f xs = Ok ys /\ Forall2 R xs ys.
Proof.
  intros Hf. induction 1 as [|x xs Hx _ (ys & Hys & Hall)].
  - exists []. split; [reflexivity | constructor].
  - destruct (Hf x Hx) as (y & Hy & HR). exists (y :: ys).
    simpl. rewrite Hy, Hys. split; [reflexivity | now constructor].
Qed.

Lemma chosen_license_total lics :
  Forall url_is_text lics ->
  exists choice,
    chosen_license lics = Ok choice
    /\ (choice = None \/ exists e, choice = Some (Dtrack.expression_of e)).
Proof.
  induction 1 as [|l lics Hl _ (choice & IH & Hshape)]; simpl; [eauto|].
  destruct (offered l) as [e|]; [eauto 6|].
  assert (Hbad : bad_url l = false).
  { unfold bad_url. destruct l as [| | | | |fields]; try reflexivity.
    destruct (dict_get fields (lit "license")) as [[| | | | |lic_obj]|] eqn:E1;
      try reflexivity.
    destruct (dict_get lic_obj (lit "url")) as [url|] eqn:E2; [| reflexivity].
    destruct (Hl fields lic_obj url eq_refl E1 E2) as (s & ->). reflexivity. }
  rewrite Hbad. eauto.
Qed.

Lemma sanitize_sound_component url_ok c :
  sound_component c ->
  exists c',
    Dtrack.sanitize_component url_ok c = Ok c' /\ sanitized_component c c'.
Proof.
  intros (fields & -> & Hnd & Hlics). rewrite sanitize_component_eq.
  destruct (dict_get fields (lit "licenses")) as [licenses|] eqn:E.
  - destruct licenses as [| | | |lics|]; try contradiction.
    cbn [Dtrack.py_iter Dtrack.rbind].
    destruct (chosen_license_total lics Hlics) as (choice & -> & Hshape).
    cbn [Dtrack.rbind]. eexists. split; [reflexivity|].
    exists fields, (sanitized_fields fields choice).
    split; [reflexivity | split; [reflexivity|]].
    destruct Hshape as [-> | (e & ->)]; simpl.
    + split; [now apply dict_keys_pop_NoDup|].
      split; [intros k Hk; apply dict_get_pop_ne; congruence|].
      split; [congruence|]. left.
      rewrite dict_get_pop by exact Hnd. now rewrite decide_True.
    + split; [now apply dict_keys_set_NoDup|].
      split; [intros k Hk; apply dict_get_set_ne; congruence|].
      split; [congruence|]. right. exists e. apply dict_get_set_eq.
  - eexists. split; [reflexivity|]. exists fields, fields.
    repeat split; auto.
Qed.

(** On a document whose components are objects with distinct keys, whose
    licenses are arrays and whose license urls are strings,
    [sanitize_licenses] does not raise; it changes nothing but the
    components, keeps their number and order, and leaves every component
    as it was except for its licenses, which afterwards are absent or a
    single expression. *)
Theorem sanitized_components_have_one_expression
    (url_ok : str -> bool) (fields : list (str * Dtrack.json))
    (comps : list Dtrack.json) :
  dict_get fields (lit "components") = Some (Dtrack.JArr comps) ->
  Forall sound_component comps ->
  exists comps',
    Dtrack.sanitize_licenses url_ok (Dtrack.JObj fields)
    = Ok (Dtrack.JObj (dict_set fields (lit "components") (Dtrack.JArr comps')))
    /\ Forall2 sanitized_component comps comps'.
Proof.
  intros Hc Hsound. unfold Dtrack.sanitize_licenses.
  rewrite (for_components_present _ fields comps Hc).
  destruct (map_result_Forall2 (Dtrack.sanitize_component url_ok)
              sound_component sanitized_component comps
              (sanitize_sound_component url_ok) Hsound) as (comps' & -> & Hall).
  exists comps'. split; [reflexivity | exact Hall].
Qed.

Lemma sanitized_components_have_one_expression_witness :
  let comp := Dtrack.JObj
                [(lit "name", Dtrack.JStr (lit "left-pad"));
                 (lit "licenses",
                  Dtrack.JArr [Dtrack.JObj [(lit "license",
                                 Dtrack.JObj [(lit "url", Dtrack.JStr (lit "nowhere"))])]])] in
  Dtrack.sanitize_licenses (fun _ => false)
    (Dtrack.JObj [(lit "bomFormat", Dtrack.JStr (lit "CycloneDX"));
                  (lit "components", Dtrack.JArr [comp])])
  = Ok (Dtrack.JObj
          [(lit "bomFormat", Dtrack.JStr (lit "CycloneDX"));
           (lit "components",
            Dtrack.JArr [Dtrack.JObj [(lit "name", Dtrack.JStr (lit "left-pad"))]])]).
Proof.
  intros comp.
  destruct (sanitized_components_have_one_expression (fun _ => false)
              [(lit "bomFormat", Dtrack.JStr (lit "CycloneDX"));
               (lit "components", Dtrack.JArr [comp])] [comp])
    as (comps' & Hrun & _).
  - reflexivity.
  - constructor; [| constructor]. eexists. split; [reflexivity|].
    split; [apply (bool_decide_unpack _); vm_compute; exact I|].
    cbn. constructor; [| constructor].
    intros f lo url [= <-] [= <-] [= <-]. eauto.
  - rewrite Hrun. vm_compute in Hrun. now injection Hrun as <-.
Defined.

(** ** Preparing the scanner's output *)

Lemma dict_set_twice {V} (d : dict V) k v v' :
  dict_set (dict_set d k v) k v' = dict_set d k v'.
Proof.
  induction d as [|[k0 v0] d IH]; simpl.
  - now rewrite decide_True.
  - destruct (decide (k0 = k)) as [->|Hne]; simpl.
    + now rewrite decide_True.
    + rewrite decide_False by exact Hne. now rewrite IH.
Qed.

Lemma group_then_sanitize url_ok fields comps service_name :
  dict_get fields (lit "components") = Some (Dtrack.JArr comps) ->
  Forall sound_component comps ->
  exists comps',
    Dtrack.rbind
      (Dtrack.for_components
         (fun comp => Dtrack.py_setitem comp (lit "group") (Dtrack.JStr service_name))
         (Dtrack.JObj fields))
      (Dtrack.sanitize_licenses url_ok)
    = Ok (Dtrack.JObj (dict_set fields (lit "components") (Dtrack.JArr comps')))
    /\ Forall2 (grouped_component service_name) comps comps'.
Proof.
  intros Hc Hsound.
  rewrite (for_components_present _ fields comps Hc).
  destruct (map_result_Forall2
              (fun comp => Dtrack.py_setitem comp (lit "group") (Dtrack.JStr service_name))
              sound_component
              (fun c c1 => exists f, c = Dtrack.JObj f
                 /\ c1 = Dtrack.JObj (dict_set f (lit "group") (Dtrack.JStr service_name))
                 /\ sound_component c1)
              comps) as (comps1 & -> & Hall1); [| exact Hsound |].
  { intros c (f & -> & Hnd & Hlics). eexists. split; [reflexivity|].
    exists f. split; [reflexivity | split; [reflexivity|]].
    eexists. split; [reflexivity|]. split; [now apply dict_keys_set_NoDup|].
    rewrite dict_get_set_ne by discriminate. exact Hlics. }
  cbn [Dtrack.rbind].
  unfold Dtrack.sanitize_licenses.
  rewrite (for_components_present _ _ comps1 (dict_get_set_eq _ _ _)).
  destruct (map_result_Forall2 (Dtrack.sanitize_component url_ok)
              sound_component sanitized_component comps1
              (sanitize_sound_component url_ok)) as (comps2 & -> & Hall2).
  { clear -Hall1. induction Hall1 as [|c c1 cs cs1 (f & _ & _ & Hs) _ IH];
      constructor; assumption. }
  exists comps2. cbn [Dtrack.rbind]. rewrite dict_set_twice.
  split; [reflexivity|].
  eapply Forall2_trans; [| exact Hall1 | exact Hall2].
  intros c c1 c2 (f & -> & -> & _) (f1 & f2 & Hf1 & -> & _ & Hframe & _ & Hshape).
  injection Hf1 as <-.
  exists f, f2. split; [reflexivity | split; [reflexivity|]]. split; [| split].
  - rewrite Hframe by discriminate. apply dict_get_set_eq.
  - intros k Hk1 Hk2. rewrite Hframe by exact Hk1.
    apply dict_get_set_ne. congruence.
  - exact Hshape.
Qed.

(** When the scanner's output is an object whose components are sound and
    whose metadata is absent or an object, [run_syft]'s preparation does
    not raise: every component of the result has the service name as its
    group and keeps all its other keys except the sanitized licenses; the
    metadata has a component, the one the scanner gave if it gave one; the
    rest of the document is unchanged. *)
Theorem prepared_bom_carries_the_service_name
    (url_ok : str -> bool) (fields : list (str * Dtrack.json))
    (comps : list Dtrack.json) (service_name : str) :
  dict_get fields (lit "components") = Some (Dtrack.JArr comps) ->
  Forall sound_component comps ->
  (dict_get fields (lit "metadata") = None
   \/ exists m, dict_get fields (lit "metadata") = Some (Dtrack.JObj m)) ->
  exists fields' comps' meta,
    Dtrack.prepare_bom url_ok (Dtrack.JObj fields) service_name
      = Ok (Dtrack.JObj fields')
    /\ dict_get fields' (lit "components") = Some (Dtrack.JArr comps')
    /\ Forall2 (grouped_component service_name) comps comps'
    /\ dict_get fields' (lit "metadata") = Some (Dtrack.JObj meta)
    /\ is_Some (dict_get meta (lit "component"))
    /\ (forall m comp,
          dict_get fields (lit "metadata") = Some (Dtrack.JObj m) ->
          dict_get m (lit "component") = Some comp ->
          dict_get meta (lit "component") = Some comp)
    /\ (forall k, k ≠ lit "components" -> k ≠ lit "metadata" ->
          dict_get fields' k = dict_get fields k).
Proof.
  intros Hc Hsound Hmeta.
  assert (Hprep : exists fields1 meta,
    Dtrack.prepare_bom url_ok (Dtrack.JObj fields) service_name
    = Dtrack.rbind
        (Dtrack.for_components
           (fun comp => Dtrack.py_setitem comp (lit "group") (Dtrack.JStr service_name))
           (Dtrack.JObj (dict_set fields1 (lit "metadata") (Dtrack.JObj meta))))
        (Dtrack.sanitize_licenses url_ok)
    /\ (forall k, k ≠ lit "metadata" -> dict_get fields1 k = dict_get fields k)
    /\ is_Some (dict_get meta (lit "component"))
    /\ (forall m comp,
          dict_get fields (lit "metadata") = Some (Dtrack.JObj m) ->
          dict_get m (lit "component") = Some comp ->
          dict_get meta (lit "component") = Some comp)).
  { unfold Dtrack.prepare_bom. cbn [Dtrack.py_setdefault].
    destruct Hmeta as [Hnone | (m & Hsome)].
    - rewrite Hnone. cbn [Dtrack.rbind Dtrack.py_item].
      rewrite dict_get_set_eq. cbn [Dtrack.rbind Dtrack.py_setdefault dict_get].
      cbn [Dtrack.rbind Dtrack.py_setitem].
      eexists _, _. split; [reflexivity|]. split; [| split].
      + intros k Hk. apply dict_get_set_ne. congruence.
      + vm_compute. eauto.
      + intros m comp Hm. congruence.
    - rewrite Hsome. cbn [Dtrack.rbind Dtrack.py_item]. rewrite Hsome.
      cbn [Dtrack.rbind Dtrack.py_setdefault].
      destruct (dict_get m (lit "component")) as [comp|] eqn:Hcomp;
        cbn [Dtrack.rbind Dtrack.py_setitem];
        (eexists _, _; split; [reflexivity|]; split; [auto | split]).
      + rewrite Hcomp. eauto.
      + intros m' comp' Hm' Hcomp'. congruence.
      + rewrite dict_get_set_eq. eauto.
      + intros m' comp' Hm' Hcomp'. congruence. }
  destruct Hprep as (fields1 & meta & -> & Hframe1 & Hhas & Hkept).
  destruct (group_then_sanitize url_ok
              (dict_set fields1 (lit "metadata") (Dtrack.JObj meta)) comps service_name)
    as (comps' & -> & Hall).
  { rewrite dict_get_set_ne by discriminate.
    rewrite Hframe1 by discriminate. exact Hc. }
  { exact Hsound. }
  eexists _, comps', meta. split; [reflexivity|].
  split; [apply dict_get_set_eq|]. split; [exact Hall|].
  split; [rewrite dict_get_set_ne by discriminate; apply dict_get_set_eq|].
  split; [exact Hhas | split; [exact Hkept|]].
  intros k Hk1 Hk2. rewrite !dict_get_set_ne by congruence. now apply Hframe1.
Qed.

Lemma prepared_bom_carries_the_service_name_witness :
  exists fields',
    Dtrack.prepare_bom (fun _ => true)
      (Dtrack.JObj [(lit "components",
                     Dtrack.JArr [Dtrack.JObj [(lit "name", Dtrack.JStr (lit "left-pad"))]])])
      (lit "web")
    = Ok (Dtrack.JObj fields')
    /\ dict_get fields' (lit "components")
       = Some (Dtrack.JArr
                 [Dtrack.JObj [(lit "name", Dtrack.JStr (lit "left-pad"));
                               (lit "group", Dtrack.JStr (lit "web"))]]).
Proof.
  destruct (prepared_bom_carries_the_service_name (fun _ => true)
              [(lit "components",
                Dtrack.JArr [Dtrack.JObj [(lit "name", Dtrack.JStr (lit "left-pad"))]])]
              [Dtrack.JObj [(lit "name", Dtrack.JStr (lit "left-pad"))]]
              (lit "web"))
    as (fields' & comps' & meta & Hrun & Hcomps & _).
  - reflexivity.
  - constructor; [| constructor]. eexists. split; [reflexivity|].
    split; [| exact I]. apply (bool_decide_unpack _). vm_compute. exact I.
  - now left.
  - exists fields'. split; [exact Hrun|].
    vm_compute in Hrun. now injection Hrun as <-.
Defined.

(** ** Waiting for the server to process an upload *)

Lemma poll_is_bounded env token n w :
  exists k j : nat,
    (k <= n)%nat /\ ((0 < n)%nat -> (1 <= k)%nat)
    /\ ((j + 1)%nat = k \/ (j = k /\ k = n))
    /\ Dtrack.requests (Dtrack.trace (snd (Dtrack.poll env token n w)))
       = Dtrack.requests (Dtrack.trace w)
         ++ replicate k (Dtrack.GET, Dtrack.BomStatus token, Dtrack.NoPayload)
    /\ Dtrack.sleeps (Dtrack.trace (snd (Dtrack.poll env token n w)))
       = Dtrack.sleeps (Dtrack.trace w) ++ replicate j 5
    /\ Dtrack.commands (Dtrack.trace (snd (Dtrack.poll env token n w)))
       = Dtrack.commands (Dtrack.trace w).
Proof.
  revert w. induction n as [|n IH]; intros w.
  - exists 0%nat, 0%nat. cbn [Dtrack.poll].
    destruct (log_only_prints env "BOM processing may still be ongoing" w)
      as (w' & -> & Hr & Hc & Hs & _).
    cbn [snd replicate]. rewrite !app_nil_r. repeat split; auto; lia.
  - remember (Dtrack.poll env token (S n) w) as res eqn:Hres.
    cbn [Dtrack.poll] in Hres. unfold Dtrack.bind at 1 in Hres.
    rewrite request_eq in Hres.
    set (w1 := Dtrack.World _ _ _ _) in Hres.
    assert (Hr1 : Dtrack.requests (Dtrack.trace w1)
                  = Dtrack.requests (Dtrack.trace w)
                    ++ [(Dtrack.GET, Dtrack.BomStatus token, Dtrack.NoPayload)])
      by (unfold w1; cbn [Dtrack.trace]; now rewrite requests_app).
    assert (Hs1 : Dtrack.sleeps (Dtrack.trace w1) = Dtrack.sleeps (Dtrack.trace w))
      by (unfold w1; cbn [Dtrack.trace]; rewrite sleeps_app; apply app_nil_r).
    assert (Hc1 : Dtrack.commands (Dtrack.trace w1) = Dtrack.commands (Dtrack.trace w))
      by (unfold w1; cbn [Dtrack.trace]; rewrite commands_app; apply app_nil_r).
    clearbody w1.
    assert (Hstop : forall r w',
              res = (r, w') -> only_printed w1 w' ->
              exists k j : nat,
                (k <= S n)%nat /\ ((0 < S n)%nat -> (1 <= k)%nat)
                /\ ((j + 1)%nat = k \/ (j = k /\ k = S n))
                /\ Dtrack.requests (Dtrack.trace (snd res))
                   = Dtrack.requests (Dtrack.trace w)
                     ++ replicate k (Dtrack.GET, Dtrack.BomStatus token, Dtrack.NoPayload)
                /\ Dtrack.sleeps (Dtrack.trace (snd res))
                   = Dtrack.sleeps (Dtrack.trace w) ++ replicate j 5
                /\ Dtrack.commands (Dtrack.trace (snd res))
                   = Dtrack.commands (Dtrack.trace w)).
    { intros r w' -> (Hr & Hc & Hs & _). exists 1%nat, 0%nat. cbn [snd].
      rewrite Hr, Hc, Hs, Hr1, Hs1, Hc1. cbn [replicate]. rewrite app_nil_r.
      repeat split; auto; lia. }
    destruct (Dtrack.http env (Dtrack.http_calls w)) as [|status body].
    { eapply Hstop; [exact Hres | apply only_printed_refl]. }
    cbn [fst snd] in Hres. destruct (status =? 200); cbn [negb] in Hres.
    2:{ destruct (log_only_prints env
                    "WARNING: BOM status check failed: {r.status_code} {r.text}" w1)
          as (w' & Hlog & Hp). rewrite Hlog in Hres. now apply (Hstop _ _ Hres). }
    unfold Dtrack.bind at 1 in Hres.
    destruct body as [js|]; cbn [Dtrack.response_json] in Hres.
    2:{ eapply Hstop; [exact Hres | apply only_printed_refl]. }
    unfold Dtrack.ret at 1 in Hres. unfold Dtrack.bind at 1 in Hres.
    unfold Dtrack.lift at 1 in Hres.
    destruct (Dtrack.py_get js (lit "processing") (Dtrack.JBool false))
      as [processing|e].
    2:{ eapply Hstop; [exact Hres | apply only_printed_refl]. }
    destruct (Dtrack.truthy processing); cbn [negb] in Hres.
    2:{ destruct (log_only_prints env "BOM processing completed" w1)
          as (w' & Hlog & Hp). rewrite Hlog in Hres. now apply (Hstop _ _ Hres). }
    unfold Dtrack.bind at 1, Dtrack.sleep, Dtrack.emit in Hres.
    set (w2 := Dtrack.World _ _ _ _) in Hres.
    destruct (IH w2) as (k & j & Hk & _ & Hj & Hr & Hs & Hc).
    exists (S k), (S j). rewrite Hres, Hr, Hs, Hc. unfold w2. cbn [Dtrack.trace].
    rewrite requests_app, sleeps_app, commands_app, Hr1, Hs1, Hc1.
    cbn [Dtrack.requests Dtrack.sleeps Dtrack.commands omap list_omap replicate].
    rewrite !app_nil_r, <- !app_assoc. cbn [app].
    repeat split; auto; lia.
Qed.

(** Whatever the server answers, [wait_for_bom] asks for the status of its
    own token at least once and at most ten times and makes no other
    request; it sleeps five seconds after every request but the one that
    ends the wait, or after all ten; it runs no command. *)
Theorem polling_is_bounded (env : Dtrack.environment) (token : Dtrack.json)
    (w : Dtrack.world) :
  exists k j : nat,
    (1 <= k <= 10)%nat
    /\ ((j + 1)%nat = k \/ (j = 10 /\ k = 10)%nat)
    /\ Dtrack.requests (Dtrack.trace (snd (Dtrack.wait_for_bom env token w)))
       = Dtrack.requests (Dtrack.trace w)
         ++ replicate k (Dtrack.GET, Dtrack.BomStatus token, Dtrack.NoPayload)
    /\ Dtrack.sleeps (Dtrack.trace (snd (Dtrack.wait_for_bom env token w)))
       = Dtrack.sleeps (Dtrack.trace w) ++ replicate j 5
    /\ Dtrack.commands (Dtrack.trace (snd (Dtrack.wait_for_bom env token w)))
       = Dtrack.commands (Dtrack.trace w).
Proof.
  unfold Dtrack.wait_for_bom.
  destruct (poll_is_bounded env token 10 w) as (k & j & Hk & Hpos & Hj & Hr & Hs & Hc).
  exists k, j. repeat split; auto; lia.
Qed.

(** ** Finding or creating a project *)

Ltac run_project H :=
  cbv beta iota delta
    [Dtrack.get_or_create_project Dtrack.bind Dtrack.utc_strftime Dtrack.ret
     Dtrack.lift Dtrack.log Dtrack.emit Dtrack.try_except Dtrack.response_json
     Dtrack.raise Dtrack.any_exception Dtrack.py_last4] in H;
  cbn [Dtrack.trace Dtrack.clock_reads Dtrack.http_calls Dtrack.process_runs] in H.

Ltac answer H Hhttp :=
  rewrite request_eq in H;
  cbn [Dtrack.trace Dtrack.clock_reads Dtrack.http_calls Dtrack.process_runs] in H;
  rewrite Hhttp in H; cbn [fst snd] in H.

Ltac read_trace :=
  unfold added; cbn [Dtrack.trace];
  rewrite ?requests_app, ?commands_app, ?sleeps_app;
  cbn [Dtrack.requests Dtrack.commands Dtrack.sleeps omap list_omap];
  rewrite ?app_nil_r, <- ?app_assoc; cbn [app].

(** When the search for a project is answered with a status other than 200
    and 404, [get_or_create_project] returns [None] after that one request:
    it does not go on to create the project. *)
Theorem failed_search_creates_nothing
    (cfg : Dtrack.config) (env : Dtrack.environment) (name hostname : str)
    (parent_uuid : Dtrack.json) (w : Dtrack.world) (status : Z)
    (body : option Dtrack.json) :
  parent_argument parent_uuid ->
  Dtrack.http env (Dtrack.http_calls w) = Dtrack.Response status body ->
  status <> 200 -> status <> 404 ->
  exists w' project_name project_version,
    Dtrack.get_or_create_project cfg env name hostname parent_uuid w
      = (Ok Dtrack.JNull, w')
    /\ added w w'
         [(Dtrack.GET, Dtrack.ProjectLookup project_name project_version,
           Dtrack.NoPayload)] [] [].
Proof.
  intros Hparent Hhttp H200 H404.
  remember (Dtrack.get_or_create_project cfg env name hostname parent_uuid w)
    as res eqn:Hres.
  apply Z.eqb_neq in H200, H404.
  destruct Hparent as [-> | (p & ->)]; run_project Hres; answer Hres Hhttp;
    rewrite H200, H404 in Hres; cbn [negb] in Hres;
    rewrite Hres; eexists _, _, _; (split; [reflexivity|]);
    read_trace; auto.
Qed.

Lemma failed_search_creates_nothing_witness :
  exists w',
    Dtrack.get_or_create_project dtrack_config
      (dtrack_env Dtrack.NotFound (fun _ => Dtrack.Response 500 None))
      (lit "web") (lit "node1") (Dtrack.JStr (lit "0a1b2c3d")) Dtrack.initial_world
    = (Ok Dtrack.JNull, w')
    /\ length (Dtrack.requests (Dtrack.trace w')) = 1%nat.
Proof.
  destruct (failed_search_creates_nothing dtrack_config
              (dtrack_env Dtrack.NotFound (fun _ => Dtrack.Response 500 None))
              (lit "web") (lit "node1") (Dtrack.JStr (lit "0a1b2c3d"))
              Dtrack.initial_world 500 None)
    as (w' & nm & ver & Hrun & Hr & _).
  - right. eexists. reflexivity.
  - reflexivity.
  - discriminate.
  - discriminate.
  - exists w'. split; [exact Hrun|]. now rewrite Hr.
Defined.

Lemma host_tags_eq cfg hostname :
  hostname ::
    match Dtrack.SERVER_HOSTNAME cfg with
    | Some s => if truthy_str s then [s] else []
    | None => []
    end
  = host_tags cfg hostname.
Proof. unfold host_tags. now destruct (Dtrack.SERVER_HOSTNAME cfg) as [[|c s]|]. Qed.



(** When the search reports no project and the creation is answered with
    status 201 and an object holding a uuid, [get_or_create_project] for a
    container returns that uuid after three requests: the search; the
    creation of a project of the same name and version, classified as a
    container, under the parent; and the tagging of the new project with
    the host's names.  The answer to the tagging, even a failure of the
    request, does not change the result. *)
Theorem missing_project_is_created_under_its_parent
    (cfg : Dtrack.config) (env : Dtrack.environment) (name hostname p : str)
    (w : Dtrack.world) (status : Z) (body : option Dtrack.json)
    (fields : list (str * Dtrack.json)) (uuid : Dtrack.json) :
  Dtrack.http env (Dtrack.http_calls w) = Dtrack.Response status body ->
  reports_absent status body ->
  Dtrack.http env (S (Dtrack.http_calls w))
    = Dtrack.Response 201 (Some (Dtrack.JObj fields)) ->
  dict_get fields (lit "uuid") = Some uuid ->
  let version :=
    Dtrack.VersionTag (Dtrack.DT_PROJECT_VERSION_BASE cfg) (utc_day env w)
                      (Dtrack.JStr (drop (length p - 4) p)) in
  exists w',
    Dtrack.get_or_create_project cfg env name hostname (Dtrack.JStr p) w
      = (Ok uuid, w')
    /\ added w w'
         [(Dtrack.GET, Dtrack.ProjectLookup name version, Dtrack.NoPayload);
          (Dtrack.PUT, Dtrack.ProjectCollection,
           Dtrack.NewProject name version "CONTAINER" (Some (Dtrack.JStr p)));
          (Dtrack.PATCH, Dtrack.ProjectItem uuid,
           Dtrack.ProjectTags (host_tags cfg hostname))] [] [].
Proof.
  intros Hsearch Habsent Hcreate Huuid version.
  remember (Dtrack.get_or_create_project cfg env name hostname (Dtrack.JStr p) w)
    as res eqn:Hres.
  run_project Hres. answer Hres Hsearch.
  assert (Hstatus : (status =? 200) = false /\ (status =? 404) = true
                    \/ (status =? 200) = true
                       /\ exists v, body = Some v /\ Dtrack.truthy v = false).
  { destruct Habsent as [-> | (-> & v & -> & Hv)]; [left | right]; eauto. }
  rewrite host_tags_eq in Hres.
  destruct Hstatus as [(H200 & H404) | (H200 & v & -> & Hv)].
  - rewrite H200, H404 in Hres. cbn [negb] in Hres.
    answer Hres Hcreate. change (201 =? 201) with true in Hres.
    cbn [negb Dtrack.py_in Dtrack.py_item] in Hres. rewrite Huuid in Hres.
    cbn [negb] in Hres. rewrite request_eq in Hres.
    cbn [Dtrack.trace Dtrack.clock_reads Dtrack.http_calls Dtrack.process_runs]
      in Hres.
    set (a := Dtrack.http env (S (S (Dtrack.http_calls w)))) in Hres.
    clearbody a. subst res.
    destruct a; (eexists; split; [reflexivity|]); read_trace; auto.
  - rewrite H200, Hv in Hres.
    answer Hres Hcreate. change (201 =? 201) with true in Hres.
    cbn [negb Dtrack.py_in Dtrack.py_item] in Hres. rewrite Huuid in Hres.
    cbn [negb] in Hres. rewrite request_eq in Hres.
    cbn [Dtrack.trace Dtrack.clock_reads Dtrack.http_calls Dtrack.process_runs]
      in Hres.
    set (a := Dtrack.http env (S (S (Dtrack.http_calls w)))) in Hres.
    clearbody a. subst res.
    destruct a; (eexists; split; [reflexivity|]); read_trace; auto.
Qed.

Lemma missing_project_is_created_under_its_parent_witness :
  exists w',
    Dtrack.get_or_create_project dtrack_config
      (dtrack_env Dtrack.NotFound creating_server)
      (lit "web") (lit "node1") (Dtrack.JStr (lit "0a1b2c3d")) Dtrack.initial_world
    = (Ok (Dtrack.JStr (lit "77aa")), w')
    /\ length (Dtrack.requests (Dtrack.trace w')) = 3%nat.
Proof.
  destruct (missing_project_is_created_under_its_parent dtrack_config
              (dtrack_env Dtrack.NotFound creating_server)
              (lit "web") (lit "node1") (lit "0a1b2c3d") Dtrack.initial_world
              404 None [(lit "uuid", Dtrack.JStr (lit "77aa"))]
              (Dtrack.JStr (lit "77aa")))
    as (w' & Hrun & Hr & _).
  - reflexivity.
  - now left.
  - reflexivity.
  - reflexivity.
  - exists w'. split; [exact Hrun|]. now rewrite Hr.
Defined.

(** When the search reports no project and the creation is refused,
    [get_or_create_project] returns [None] after the search and the
    creation: it does not tag anything. *)
Theorem refused_creation_returns_none
    (cfg : Dtrack.config) (env : Dtrack.environment) (name hostname : str)
    (parent_uuid : Dtrack.json) (w : Dtrack.world) (status status' : Z)
    (body body' : option Dtrack.json) :
  parent_argument parent_uuid ->
  Dtrack.http env (Dtrack.http_calls w) = Dtrack.Response status body ->
  reports_absent status body ->
  Dtrack.http env (S (Dtrack.http_calls w)) = Dtrack.Response status' body' ->
  refuses status' body' ->
  exists w' project_name project_version classifier parent,
    Dtrack.get_or_create_project cfg env name hostname parent_uuid w
      = (Ok Dtrack.JNull, w')
    /\ added w w'
         [(Dtrack.GET, Dtrack.ProjectLookup project_name project_version,
           Dtrack.NoPayload);
          (Dtrack.PUT, Dtrack.ProjectCollection,
           Dtrack.NewProject project_name project_version classifier parent)]
         [] [].
Proof.
  intros Hparent Hsearch Habsent Hcreate Hrefuses.
  remember (Dtrack.get_or_create_project cfg env name hostname parent_uuid w)
    as res eqn:Hres.
  assert (Hstatus : (status =? 200) = false /\ (status =? 404) = true
                    \/ (status =? 200) = true
                       /\ exists v, body = Some v /\ Dtrack.truthy v = false).
  { destruct Habsent as [-> | (-> & v & -> & Hv)]; [left | right]; eauto. }
  assert (Hrefused :
            (status' =? 201) = false
            \/ (status' =? 201) = true
               /\ (body' = None
                   \/ exists fields, body' = Some (Dtrack.JObj fields)
                                     /\ dict_get fields (lit "uuid") = None)).
  { destruct (status' =? 201) eqn:E; [right | now left]. split; [reflexivity|].
    destruct Hrefuses as [Hne | Hbody]; [| exact Hbody].
    apply Z.eqb_eq in E. contradiction. }
  destruct Hparent as [-> | (p & ->)]; run_project Hres; answer Hres Hsearch;
    (destruct Hstatus as [(H200 & H404) | (H200 & v & -> & Hv)];
     [rewrite H200, H404 in Hres; cbn [negb] in Hres | rewrite H200, Hv in Hres]);
    answer Hres Hcreate;
    (destruct Hrefused as [H201 | (H201 & [-> | (fields & -> & Hnone)])];
     rewrite H201 in Hres; cbn [negb Dtrack.py_in] in Hres;
     [destruct body' | | rewrite Hnone in Hres; cbn [negb] in Hres]);
    rewrite Hres; eexists _, _, _, _, _; (split; [reflexivity|]);
    read_trace; auto.
Qed.

Lemma refused_creation_returns_none_witness :
  exists w',
    Dtrack.get_or_create_project dtrack_config
      (dtrack_env Dtrack.NotFound refusing_server)
      (lit "web") (lit "node1") Dtrack.JNull Dtrack.initial_world
    = (Ok Dtrack.JNull, w')
    /\ length (Dtrack.requests (Dtrack.trace w')) = 2%nat.
Proof.
  destruct (refused_creation_returns_none dtrack_config
              (dtrack_env Dtrack.NotFound refusing_server)
              (lit "web") (lit "node1") Dtrack.JNull Dtrack.initial_world
              404 403 None None)
    as (w' & nm & ver & cls & par & Hrun & Hr & _).
  - now left.
  - reflexivity.
  - now left.
  - reflexivity.
  - left. discriminate.
  - exists w'. split; [exact Hrun|]. now rewrite Hr.
Defined.

(** ** The agent's start *)

(** When the search for the root project fails, [main_loop] ends after that
    one request, which asks for the project named [DT_PROJECT_NAME] whose
    version is the base, the UTC day and the host's name: it discovers and
    scans nothing and does not sleep. *)
Theorem agent_stops_without_root_project
    (cfg : Dtrack.config) (env : Dtrack.environment) (url_ok : str -> bool)
    (hostname : str) (cycles : nat) (w : Dtrack.world) (status : Z)
    (body : option Dtrack.json) :
  Dtrack.http env (Dtrack.http_calls w) = Dtrack.Response status body ->
  status <> 200 -> status <> 404 ->
  let day :=
    strftime Dtrack.FMT_DAY
      (broken_down (Dtrack.utc_now env (S (Dtrack.clock_reads w))) 0) in
  exists w',
    Dtrack.main_loop cfg env url_ok hostname cycles w = (Ok tt, w')
    /\ added w w'
         [(Dtrack.GET,
           Dtrack.ProjectLookup (Dtrack.DT_PROJECT_NAME cfg)
             (Dtrack.VersionTag (Dtrack.DT_PROJECT_VERSION_BASE cfg) day
                                (Dtrack.JStr hostname)),
           Dtrack.NoPayload)] [] [].
Proof.
  intros Hhttp H200 H404 day.
  remember (Dtrack.main_loop cfg env url_ok hostname cycles w) as res eqn:Hres.
  apply Z.eqb_neq in H200, H404.
  unfold Dtrack.main_loop in Hres. run_project Hres. answer Hres Hhttp.
  rewrite H200, H404 in Hres. cbn [negb Dtrack.truthy] in Hres.
  rewrite Hres. eexists. split; [reflexivity|]. read_trace. auto.
Qed.

Lemma agent_stops_without_root_project_witness :
  exists w',
    Dtrack.main_loop dtrack_config
      (dtrack_env Dtrack.NotFound (fun _ => Dtrack.Response 500 None))
      (fun _ => true) (lit "node1") 3 Dtrack.initial_world
    = (Ok tt, w')
    /\ Dtrack.requests (Dtrack.trace w')
       = [(Dtrack.GET,
           Dtrack.ProjectLookup (lit "shop")
             (Dtrack.VersionTag (lit "v1.2.0") (lit "20240307")
                                (Dtrack.JStr (lit "node1"))),
           Dtrack.NoPayload)]
    /\ Dtrack.commands (Dtrack.trace w') = [].
Proof.
  destruct (agent_stops_without_root_project dtrack_config
              (dtrack_env Dtrack.NotFound (fun _ => Dtrack.Response 500 None))
              (fun _ => true) (lit "node1") 3 Dtrack.initial_world 500 None)
    as (w' & Hrun & Hr & Hc & _).
  - reflexivity.
  - discriminate.
  - discriminate.
  - exists w'. split; [exact Hrun|]. rewrite Hr, Hc. split; reflexivity.
Defined.

(** ** Running the scanner *)

Lemma is_substring_singleton c s :
  Dtrack.is_substring [c] s = bool_decide (c ∈ s).
Proof.
  induction s as [|b s IH]; cbn [Dtrack.is_substring Dtrack.is_prefix].
  - symmetry. apply bool_decide_eq_false_2. apply not_elem_of_nil.
  - assert (Hnil : forall t, Dtrack.is_prefix [] t = true) by (now intros []).
    rewrite IH, ?Hnil.
    destruct (N.eqb_spec c b) as [->|Hne]; cbn [andb orb]; symmetry.
    + apply bool_decide_eq_true_2. apply elem_of_cons. now left.
    + apply bool_decide_ext. rewrite elem_of_cons. intuition congruence.
Qed.

Lemma run_syft_eq env url_ok s service_name w :
  exists w',
    Dtrack.run_syft env url_ok (Dtrack.JStr s) service_name w
    = (match Dtrack.subprocess env (Dtrack.process_runs w) with
       | Dtrack.NotFound => Raise (Exception "FileNotFoundError")
       | Dtrack.ExitNonZero => Ok Dtrack.JNull
       | Dtrack.Output None => Ok Dtrack.JNull
       | Dtrack.Output (Some bom) => Dtrack.prepare_bom url_ok bom service_name
       end, w')
    /\ added w w' [] [Dtrack.Syft (scanned_image s)] []
    /\ Dtrack.http_calls w' = Dtrack.http_calls w
    /\ Dtrack.process_runs w' = S (Dtrack.process_runs w).
Proof.
  remember (Dtrack.run_syft env url_ok (Dtrack.JStr s) service_name w)
    as res eqn:Hres.
  unfold scanned_image. rewrite <- (is_substring_singleton 58%N s).
  change [58%N] with (lit ":").
  cbv beta iota delta
    [Dtrack.run_syft Dtrack.bind Dtrack.utc_strftime Dtrack.ret Dtrack.lift
     Dtrack.log Dtrack.emit Dtrack.try_except Dtrack.json_loads Dtrack.raise
     Dtrack.any_exception Dtrack.called_process_error Dtrack.py_in
     Dtrack.py_add_str] in Hres.
  destruct (Dtrack.is_substring (lit ":") s);
    rewrite check_output_eq in Hres;
    cbn [Dtrack.trace Dtrack.clock_reads Dtrack.http_calls Dtrack.process_runs]
      in Hres;
    (destruct (Dtrack.subprocess env (Dtrack.process_runs w)) as [| |[bom|]];
     [rewrite bool_decide_eq_false_2 in Hres by discriminate
     |rewrite bool_decide_eq_true_2 in Hres by reflexivity
     | |]);
    rewrite Hres; eexists; (split; [reflexivity|]);
    read_trace; auto.
Qed.

(** [run_syft] on an image's name runs one command, the scanner on that
    name, or on the name followed by [:latest] when it holds no colon,
    whatever the scanner then answers; it makes no request and does not
    sleep. *)
Theorem image_without_tag_is_scanned_as_latest
    (env : Dtrack.environment) (url_ok : str -> bool) (s service_name : str)
    (w : Dtrack.world) :
  let w' := snd (Dtrack.run_syft env url_ok (Dtrack.JStr s) service_name w) in
  exists image,
    added w w' [] [Dtrack.Syft (Dtrack.JStr image)] []
    /\ (58%N ∈ s -> image = s)
    /\ ((58%N ∉ s) -> image = s ++ lit ":latest").
Proof.
  destruct (run_syft_eq env url_ok s service_name w) as (w1 & Hrun & Hadded & _).
  cbv zeta. rewrite Hrun. cbn [snd]. unfold scanned_image in Hadded.
  eexists. split; [exact Hadded|]. split; intros Hin.
  - now rewrite bool_decide_eq_true_2.
  - now rewrite bool_decide_eq_false_2.
Qed.

Lemma image_without_tag_is_scanned_as_latest_witness :
  Dtrack.commands
    (Dtrack.trace
       (snd (Dtrack.run_syft (dtrack_env Dtrack.ExitNonZero (fun _ => Dtrack.Unreachable))
               (fun _ => true) (Dtrack.JStr (lit "nginx")) (lit "web")
               Dtrack.initial_world)))
  = [Dtrack.Syft (Dtrack.JStr (lit "nginx:latest"))].
Proof.
  destruct (image_without_tag_is_scanned_as_latest
              (dtrack_env Dtrack.ExitNonZero (fun _ => Dtrack.Unreachable))
              (fun _ => true) (lit "nginx") (lit "web") Dtrack.initial_world)
    as (image & (_ & Hc & _) & _ & Hlatest).
  rewrite Hc, Hlatest; [reflexivity|].
  apply (bool_decide_unpack _). vm_compute. exact I.
Defined.

(** What [run_syft] returns on an image's name, by the scanner's answer:
    [None] when the scanner exits with an error or prints something that
    is not JSON, these two failures being caught; the prepared document
    when it prints JSON; and when the scanner cannot be started, the
    error of the start, which is not caught. *)
Theorem scanner_failures_yield_no_bom
    (env : Dtrack.environment) (url_ok : str -> bool) (s service_name : str)
    (w : Dtrack.world) (answer : Dtrack.process_answer) :
  Dtrack.subprocess env (Dtrack.process_runs w) = answer ->
  let result := fst (Dtrack.run_syft env url_ok (Dtrack.JStr s) service_name w) in
  match answer with
  | Dtrack.ExitNonZero | Dtrack.Output None => result = Ok Dtrack.JNull
  | Dtrack.Output (Some bom) => result = Dtrack.prepare_bom url_ok bom service_name
  | Dtrack.NotFound => result = Raise (Exception "FileNotFoundError")
  end.
Proof.
  intros <-. destruct (run_syft_eq env url_ok s service_name w) as (w1 & Hrun & _).
  cbv zeta. rewrite Hrun. cbn [fst].
  now destruct (Dtrack.subprocess env (Dtrack.process_runs w)) as [| |[bom|]].
Qed.

Lemma scanner_failures_yield_no_bom_witness :
  fst (Dtrack.run_syft (dtrack_env Dtrack.ExitNonZero (fun _ => Dtrack.Unreachable))
         (fun _ => true) (Dtrack.JStr (lit "nginx")) (lit "web")
         Dtrack.initial_world)
  = Ok Dtrack.JNull.
Proof.
  exact (scanner_failures_yield_no_bom
           (dtrack_env Dtrack.ExitNonZero (fun _ => Dtrack.Unreachable))
           (fun _ => true) (lit "nginx") (lit "web") Dtrack.initial_world
           Dtrack.ExitNonZero eq_refl).
Defined.

(** ** What finding a project never does *)

Lemma within_same n {A} (m : Dtrack.M A) :
  (forall w, only_printed w (snd (m w))) -> within n m.
Proof.
  intros H w. destruct (H w) as (Hr & Hc & Hs & _ & Hp). exists [].
  unfold added. rewrite Hr, Hc, Hs, !app_nil_r.
  repeat split; auto. cbn [length]. lia.
Qed.

Lemma within_ret n {A} (a : A) : within n (Dtrack.ret a).
Proof. apply within_same. intros w. apply only_printed_refl. Qed.

Lemma within_lift n {A} (r : result A) : within n (Dtrack.lift r).
Proof. apply within_same. intros w. apply only_printed_refl. Qed.

Lemma within_raise n {A} e : within n (@Dtrack.raise A e).
Proof. apply within_same. intros w. apply only_printed_refl. Qed.

Lemma within_strftime n env fmt : within n (Dtrack.utc_strftime env fmt).
Proof. apply within_same. intros w. now repeat split. Qed.

Lemma within_log n env fmt : within n (Dtrack.log env fmt).
Proof.
  apply within_same. intros w.
  now destruct (log_only_prints env fmt w) as (w' & -> & H).
Qed.

Lemma within_request n env v e p :
  project_request (v, e, p) -> within (S n) (Dtrack.request env v e p).
Proof.
  intros Hp w. exists [(v, e, p)]. rewrite request_eq. cbn [snd].
  read_trace. repeat split; auto. cbn [length]. lia.
Qed.

Lemma within_then w1 w2 w3 n k rs :
  added w1 w2 rs [] [] -> (length rs <= n)%nat -> Forall project_request rs ->
  Dtrack.process_runs w2 = Dtrack.process_runs w1 ->
  (exists rs', added w2 w3 rs' [] [] /\ (length rs' <= k)%nat
               /\ Forall project_request rs'
               /\ Dtrack.process_runs w3 = Dtrack.process_runs w2) ->
  exists rs'', added w1 w3 rs'' [] [] /\ (length rs'' <= n + k)%nat
               /\ Forall project_request rs''
               /\ Dtrack.process_runs w3 = Dtrack.process_runs w1.
Proof.
  intros (Hr & Hc & Hs) Hn Hall Hp (rs' & (Hr' & Hc' & Hs') & Hk & Hall' & Hp').
  exists (rs ++ rs'). unfold added.
  rewrite Hr', Hc', Hs', Hr, Hc, Hs, Hp', Hp, !app_nil_r, <- app_assoc.
  repeat split; auto.
  - rewrite length_app. lia.
  - now apply Forall_app.
Qed.

Lemma within_stay w1 w2 n k rs :
  added w1 w2 rs [] [] -> (length rs <= n)%nat -> Forall project_request rs ->
  Dtrack.process_runs w2 = Dtrack.process_runs w1 ->
  exists rs'', added w1 w2 rs'' [] [] /\ (length rs'' <= n + k)%nat
               /\ Forall project_request rs''
               /\ Dtrack.process_runs w2 = Dtrack.process_runs w1.
Proof. intros Ha Hn Hall Hp. exists rs. repeat split; auto; try apply Ha. lia. Qed.

Lemma within_bind n k {A B} (m : Dtrack.M A) (f : A -> Dtrack.M B) :
  within n m -> (forall a, within k (f a)) -> within (n + k) (Dtrack.bind m f).
Proof.
  intros Hm Hf w. destruct (Hm w) as (rs & Ha & Hn & Hall & Hp).
  unfold Dtrack.bind. destruct (m w) as [[a|e] w1]; cbn [snd] in *.
  - eapply within_then; eauto. apply Hf.
  - eapply within_stay; eauto.
Qed.

Lemma within_try n k {A} caught (m : Dtrack.M A) h :
  within n m -> (forall e, within k (h e)) ->
  within (n + k) (Dtrack.try_except caught m h).
Proof.
  intros Hm Hh w. destruct (Hm w) as (rs & Ha & Hn & Hall & Hp).
  unfold Dtrack.try_except. destruct (m w) as [[a|e] w1]; cbn [snd] in *.
  - eapply within_stay; eauto.
  - destruct (caught e); cbn [snd].
    + eapply within_then; eauto. apply Hh.
    + eapply within_stay; eauto.
Qed.

Ltac quiet :=
  repeat first
    [ apply within_ret | apply within_lift | apply within_raise
    | apply within_strftime | apply within_log
    | apply within_request; exact I
    | progress unfold Dtrack.response_json, Dtrack.json_loads
    | match goal with
      | |- within _ (match ?x with _ => _ end) => destruct x
      | |- within _ (if ?b then _ else _) => destruct b
      | |- forall _ : _, within _ _ => intro
      end ].

Lemma get_or_create_project_within cfg env name hostname parent_uuid :
  within 3 (Dtrack.get_or_create_project cfg env name hostname parent_uuid).
Proof.
  unfold Dtrack.get_or_create_project.
  apply (within_bind 0 3); [quiet | intros today].
  apply (within_bind 0 3); [quiet | intros suffix].
  apply (within_bind 0 3); [quiet | intros _].
  apply (within_bind 1 2); [quiet | intros r].
  apply (within_bind 0 2).
  { destruct (fst r =? 200).
    - apply (within_bind 0 0); [quiet | intros projects].
      destruct (Dtrack.truthy projects); [| quiet].
      repeat (apply (within_bind 0 0); [quiet | intro]). quiet.
    - destruct (negb (fst r =? 404)); [| quiet].
      apply (within_bind 0 0); quiet. }
  intros [uuid| |]; [quiet | quiet |].
  apply (within_bind 0 2); [quiet | intros _].
  apply (within_bind 1 1); [quiet | intros r'].
  apply (within_bind 0 1).
  { apply (within_try 0 0); quiet. }
  intros body. apply (within_bind 0 1).
  { destruct (negb (fst r' =? 201)); [quiet|]. apply (within_bind 0 0); quiet. }
  intros [|].
  - apply (within_bind 0 1); quiet.
  - apply (within_bind 0 1); [quiet | intros uuid].
    apply (within_bind 0 1); [quiet | intros _].
    apply (within_bind 1 0); [| quiet].
    apply (within_try 1 0); [| quiet].
    apply (within_bind 1 0); quiet.
Qed.

(** Whatever its arguments and whatever the server answers,
    [get_or_create_project] makes at most three requests, all to the
    project endpoints; it runs no command and does not sleep. *)
Theorem project_lookup_stays_within_the_project_api
    (cfg : Dtrack.config) (env : Dtrack.environment) (name hostname : str)
    (parent_uuid : Dtrack.json) (w : Dtrack.world) :
  let w' :=
    snd (Dtrack.get_or_create_project cfg env name hostname parent_uuid w) in
  exists rs,
    added w w' rs [] []
    /\ (length rs <= 3)%nat
    /\ Forall project_request rs
    /\ Dtrack.process_runs w' = Dtrack.process_runs w.
Proof. apply get_or_create_project_within. Qed.


(** ** A container whose scan fails *)

Lemma added_trans w1 w2 w3 rs cs ss rs' cs' ss' :
  added w1 w2 rs cs ss -> added w2 w3 rs' cs' ss' ->
  added w1 w3 (rs ++ rs') (cs ++ cs') (ss ++ ss').
Proof.
  intros (Hr & Hc & Hs) (Hr' & Hc' & Hs'). unfold added.
  now rewrite Hr', Hc', Hs', Hr, Hc, Hs, !app_assoc.
Qed.

(** When the scanner gives no document for a container's image, the turn
    of [main_loop] for that container makes requests to the project
    endpoints only: nothing is uploaded, no upload is waited for, and the
    turn does not sleep.  It runs the scanner at most once. *)
Theorem unscanned_container_is_not_uploaded
    (cfg : Dtrack.config) (env : Dtrack.environment) (url_ok : str -> bool)
    (hostname : str) (parent_uuid : Dtrack.json) (c : Dtrack.container)
    (s : str) (w : Dtrack.world) :
  Dtrack.c_image c = Dtrack.JStr s ->
  scan_fails (Dtrack.subprocess env (Dtrack.process_runs w)) ->
  let w' :=
    snd (Dtrack.scan_container cfg env url_ok hostname parent_uuid c w) in
  exists rs cs,
    added w w' rs cs []
    /\ Forall project_request rs
    /\ (length cs <= 1)%nat.
Proof.
  intros Himage Hfails. cbv zeta. unfold Dtrack.scan_container. rewrite Himage.
  destruct (negb (Dtrack.truthy (Dtrack.JStr s))).
  { exists [], []. cbn [snd]. unfold added. rewrite !app_nil_r.
    repeat split; auto. }
  unfold Dtrack.bind at 1.
  destruct (get_or_create_project_within cfg env (Dtrack.c_name c) hostname
              parent_uuid w) as (rs & Hadded & _ & Hall & Hruns).
  destruct (Dtrack.get_or_create_project cfg env (Dtrack.c_name c) hostname
              parent_uuid w) as [[project_uuid|e] w1]; cbn [snd] in *.
  2:{ exists rs, []. repeat split; auto; apply Hadded. }
  destruct (negb (Dtrack.truthy project_uuid)).
  { exists rs, []. repeat split; auto; apply Hadded. }
  unfold Dtrack.bind at 1.
  destruct (run_syft_eq env url_ok s (Dtrack.c_name c) w1)
    as (w2 & -> & Hadded' & _).
  rewrite Hruns.
  pose proof (added_trans _ _ _ _ _ _ _ _ _ Hadded Hadded') as Hall'.
  rewrite app_nil_r in Hall'. cbn [app] in Hall'.
  destruct (Dtrack.subprocess env (Dtrack.process_runs w)) as [| |[bom|]];
    try contradiction; cbn [snd negb Dtrack.truthy Dtrack.ret];
    exists rs, [Dtrack.Syft (scanned_image s)]; repeat split; auto;
    apply Hall'.
Qed.

Lemma unscanned_container_is_not_uploaded_witness :
  let w' :=
    snd (Dtrack.scan_container dtrack_config
           (dtrack_env Dtrack.ExitNonZero creating_server) (fun _ => true)
           (lit "node1") (Dtrack.JStr (lit "0a1b2c3d"))
           (Dtrack.Container (Dtrack.JStr (lit "c0ffee")) (lit "web")
                             (Dtrack.JStr (lit "nginx")))
           Dtrack.initial_world) in
  Forall project_request (Dtrack.requests (Dtrack.trace w'))
  /\ Dtrack.commands (Dtrack.trace w')
     = [Dtrack.Syft (Dtrack.JStr (lit "nginx:latest"))].
Proof.
  destruct (unscanned_container_is_not_uploaded dtrack_config
              (dtrack_env Dtrack.ExitNonZero creating_server) (fun _ => true)
              (lit "node1") (Dtrack.JStr (lit "0a1b2c3d"))
              (Dtrack.Container (Dtrack.JStr (lit "c0ffee")) (lit "web")
                                (Dtrack.JStr (lit "nginx")))
              (lit "nginx") Dtrack.initial_world)
    as (rs & cs & (Hr & _) & Hall & _).
  - reflexivity.
  - exact I.
  - cbv zeta. split.
    + rewrite Hr. exact Hall.
    + vm_compute. reflexivity.
Defined.
